(** * MovieLens recommendation system: the prediction engine of
    [recommendation.py], embedded in Rocq.

    Conventions of the embedding.
    - A Python [int] is modelled by [Z].  A Python [float] is given by a
      rational of [Q], which names the binary64 number nearest to it, as
      a literal does; a rational that is a binary64 number names itself.
      Where the code only compares, truncates or adds a half
      ([roundRating]) the rational is used as it is, which is exact on
      every float.  Where the code's arithmetic rounds (the products,
      sums and quotient of [predictRatingRules]) it is done on binary64
      numbers, with the operations of the standard library's
      specification of IEEE 754.  The means of [groupby] and the
      squared error are written with exact rationals; no theorem below
      rests on how they round.  Where the source can return an [int] or
      a [float], the result is a [pynum], which keeps the two apart.
    - A pandas [DataFrame] is the ordered list of its named columns, a
      [Series] indexed by cluster id an association list.
    - Python exceptions are values of [exn]; a function that can raise
      returns a [result].
    - [train_kmeans_and_predict] assigns columns on the frames that its
      caller passes in.  Those frames live in a store, the function
      takes their locations, and it is a computation [M] on the store.
      The functions that only read frames take them by value.
    - scikit-learn's [KMeans] is a parameter, the class [Clusterer]; of
      its behaviour only the refusal to fit fewer samples than clusters
      is written out.  mlxtend's [apriori] and [association_rules] are
      the parameter [Miner], and the splitter of [return_datasets] is an
      argument.
    - User, movie and cluster ids are integer cells or missing ones; a
      grouping on a column with any other cell raises. *)

From Stdlib Require Import QArith Qround ZArith List String Bool Lia Lqa Sorted.
From Stdlib Require Import SpecFloat.
From stdpp Require Import base list.
Import ListNotations.
Local Open Scope Z_scope.
Local Open Scope string_scope.

(** ** Numbers *)

(** What a numeric Python expression evaluates to. *)
Inductive pynum : Type :=
| PyInt (n : Z)
| PyFloat (x : Q)
| PyInf (negative : bool)
| PyNaN.

(** The number a [pynum] denotes (Python compares [2 == 2.0] as true).
    The two infinities and NaN are floats that denote no number; they
    are sent to 0. *)
Definition num_val (v : pynum) : Q :=
  match v with
  | PyInt n => inject_Z n
  | PyFloat x => x
  | PyInf _ | PyNaN => 0
  end.

(** [int(x)] on a float: truncation toward zero. *)
Definition int_of_float (x : Q) : Z := Z.quot (Qnum x) (Zpos (Qden x)).

(** The value of the binary64 float with significand [m] and exponent
    [e], as the rational [m * 2^e]. *)
Definition b64 (m e : Z) : Q :=
  if (0 <=? e)%Z then inject_Z (m * 2 ^ e) else Qmake m (Z.to_pos (2 ^ (- e))).

(** Round to the nearest integer, ties to the even one: the rule of
    Python's [round]. *)
Definition round_half_even (x : Q) : Z :=
  let f := Qfloor x in
  let d := (x - inject_Z f)%Q in
  match (d ?= 1 # 2)%Q with
  | Lt => f
  | Gt => f + 1
  | Eq => if Z.even f then f else f + 1
  end.

(** The decimal of two places nearest to [x], ties to the even last
    digit. *)
Definition round2 (x : Q) : Q := Qred (Qmake (round_half_even (x * 100)) 100).

(** ** Binary64 arithmetic *)

(** Addition, multiplication and division of binary64 numbers, each
    rounded to the nearest number, ties to the even significand. *)
Definition fadd : spec_float -> spec_float -> spec_float := SFadd 53 1024.
Definition fmul : spec_float -> spec_float -> spec_float := SFmul 53 1024.
Definition fdiv : spec_float -> spec_float -> spec_float := SFdiv 53 1024.

(** [x == y] and [x < y] on floats: false as soon as one is NaN. *)
Definition feqb : spec_float -> spec_float -> bool := SFeqb.
Definition fltb : spec_float -> spec_float -> bool := SFltb.

Definition fzero : spec_float := S754_zero false.

(** The float that a rational names: the quotient of its numerator by
    its denominator, rounded once. *)
Definition float_of_Q (x : Q) : spec_float :=
  match Qnum x with
  | Z0 => fzero
  | Zpos n => fdiv (S754_finite false n 0) (S754_finite false (Qden x) 0)
  | Zneg n => fdiv (S754_finite true n 0) (S754_finite false (Qden x) 0)
  end.

(** The rational that a finite float is. *)
Definition Q_of_float (x : spec_float) : Q :=
  match x with
  | S754_finite s m e => b64 (cond_Zopp s (Zpos m)) e
  | _ => 0
  end.

(** [round(x, 2)] on a float.  Python rounds the number that the float
    is, exactly, to two places, ties to the even digit, and returns the
    float that this decimal names; an infinity and NaN round to
    themselves.  The sign of a zero is not kept: [-0.0], which Python
    finds equal to [0.0], is [PyFloat 0] too. *)
Definition round_float2 (x : spec_float) : pynum :=
  match x with
  | S754_nan => PyNaN
  | S754_infinity s => PyInf s
  | _ => PyFloat (round2 (Q_of_float x))
  end.

(** ** The rounding stage *)

(** [roundRating(rating)], lines 289-306. *)
Definition roundRating (rating : Q) : pynum :=
  let decimal := (rating - inject_Z (int_of_float rating))%Q in
  if Qlt_le_dec decimal (1 # 4) then PyInt (int_of_float rating)
  else if Qlt_le_dec decimal (3 # 4)
       then PyFloat (Qred (inject_Z (int_of_float rating) + (1 # 2)))
       else PyInt (int_of_float rating + 1).

(** ** Association rules *)

(** A row of the rule table that [association_rules] returns. *)
Record Rule : Type := mkRule {
  antecedents : list string;
  consequents : list string;
  confidence : Q;
  support : Q
}.

(** [predictRatingRules(important_rules)], lines 265-287, on rules whose
    confidences and ratings are floats.  The loop is the left fold
    [accumulate]; its state is the pair [(predicted_rating,
    sum_confidence)], which starts as the integers [(0, 0)]: adding a
    float to the integer 0 adds it to the float 0.0, and an empty list
    leaves the integer 0, which the test of line 283 finds equal to 0 as
    well. *)
Definition accumulate (acc : spec_float * spec_float) (rule : Rule * Q)
  : spec_float * spec_float :=
  let confidence := float_of_Q (confidence (fst rule)) in
  (fadd (fst acc) (fmul confidence (float_of_Q (snd rule))),
   fadd (snd acc) confidence).

Definition predictRatingRules (important_rules : list (Rule * Q)) : pynum :=
  let '(predicted_rating, sum_confidence) :=
    fold_left accumulate important_rules (fzero, fzero) in
  if feqb sum_confidence fzero then PyInt 0
  else round_float2 (fdiv predicted_rating sum_confidence).

(** ** Exceptions *)

Inductive exn : Type :=
| KeyError (label : string)
| IndexError
| ValueError (msg : string)
| TypeError
| ReferenceError.

(** The outcome of a call that can raise. *)
Inductive result (A : Type) : Type :=
| Raise (e : exn)
| Return (a : A).
Arguments Raise {A} e.
Arguments Return {A} a.

Definition rbind {A B} (r : result A) (k : A -> result B) : result B :=
  match r with
  | Raise e => Raise e
  | Return a => k a
  end.

Notation "x <- r ;; k" := (rbind r (fun x => k))
  (at level 100, r at next level, right associativity).

Fixpoint mapR {A B} (f : A -> result B) (l : list A) : result (list B) :=
  match l with
  | [] => Return []
  | a :: l' => b <- f a ;; bs <- mapR f l' ;; Return (b :: bs)
  end.

(** [seq[i]] on a Python list. *)
Definition index {A} (l : list A) (i : nat) : result A :=
  match nth_error l i with
  | Some a => Return a
  | None => Raise IndexError
  end.

(** ** Data frames *)

(** A cell of a frame. [VNaN] is pandas' missing-value marker. *)
Inductive value : Type :=
| VInt (n : Z)
| VFloat (x : Q)
| VStr (s : string)
| VNaN.

(** Elementwise [==]: numbers compare by value, [NaN] equals nothing. *)
Definition val_eqb (a b : value) : bool :=
  match a, b with
  | VInt m, VInt n => Z.eqb m n
  | VInt m, VFloat y => Qeq_bool (inject_Z m) y
  | VFloat x, VInt n => Qeq_bool x (inject_Z n)
  | VFloat x, VFloat y => Qeq_bool x y
  | VStr s, VStr t => String.eqb s t
  | _, _ => false
  end.

(** A frame: its columns in order, each a label and its cells. *)
Abbreviation DataFrame := (list (string * list value)).

Definition columns (df : DataFrame) : list string := map fst df.

(** [label in df.columns] *)
Definition has_column (label : string) (df : DataFrame) : bool :=
  existsb (String.eqb label) (columns df).

(** [len(df)] *)
Definition nrows (df : DataFrame) : nat :=
  match df with
  | [] => 0%nat
  | c :: _ => length (snd c)
  end.

(** Every column is as long as the frame: pandas keeps frames so. *)
Definition rectangular (df : DataFrame) : Prop :=
  Forall (fun c => length (snd c) = nrows df) df.

(** [df.empty]: no column or no row. *)
Definition df_empty (df : DataFrame) : bool :=
  match df with
  | [] => true
  | _ => Nat.eqb (nrows df) 0
  end.

(** [df[label]] *)
Fixpoint get_column (label : string) (df : DataFrame) : result (list value) :=
  match df with
  | [] => Raise (KeyError label)
  | c :: df' => if String.eqb label (fst c) then Return (snd c)
                else get_column label df'
  end.

(** [df.drop(columns=labels)]: a new frame; a missing label raises. *)
Definition drop_columns (labels : list string) (df : DataFrame) : result DataFrame :=
  match List.find (fun l => negb (has_column l df)) labels with
  | Some l => Raise (KeyError l)
  | None =>
      Return (List.filter (fun c => negb (existsb (String.eqb (fst c)) labels)) df)
  end.

Fixpoint replace_column (label : string) (vals : list value) (df : DataFrame)
  : DataFrame :=
  match df with
  | [] => [(label, vals)]
  | c :: df' => if String.eqb label (fst c) then (label, vals) :: df'
                else c :: replace_column label vals df'
  end.

(** The frame after [df[label] = vals]: the column is replaced where it
    stands, or appended; a wrong length raises. *)
Definition set_column (label : string) (vals : list value) (df : DataFrame)
  : result DataFrame :=
  match df with
  | [] => Return [(label, vals)]
  | _ => if Nat.eqb (length vals) (nrows df)
         then Return (replace_column label vals df)
         else Raise (ValueError "Length of values does not match length of index")
  end.

(** Boolean indexing. *)
Fixpoint select {A} (mask : list bool) (l : list A) : list A :=
  match mask, l with
  | b :: mask', a :: l' => if b then a :: select mask' l' else select mask' l'
  | _, _ => []
  end.

(** [df[mask]] *)
Definition select_rows (mask : list bool) (df : DataFrame) : DataFrame :=
  map (fun c => (fst c, select mask (snd c))) df.

(** [df[df[label] == v]] *)
Definition rows_where (label : string) (v : value) (df : DataFrame)
  : result DataFrame :=
  col <- get_column label df ;;
  Return (select_rows (map (fun x => val_eqb x v) col) df).

(** The four identifying columns that every feature view drops. *)
Definition id_columns : list string := ["userId"; "movieId"; "rating"; "title"].

(** ** Group means *)

(** A numeric cell as a number; [None] for a missing one. *)
Definition as_number (v : value) : result (option Q) :=
  match v with
  | VInt n => Return (Some (inject_Z n))
  | VFloat x => Return (Some x)
  | VNaN => Return None
  | VStr _ => Raise TypeError
  end.

(** A cluster label; rows with a missing label belong to no group. *)
Definition as_label (v : value) : result (option Z) :=
  match v with
  | VInt n => Return (Some n)
  | VNaN => Return None
  | _ => Raise TypeError
  end.

Fixpoint insert_key (k : Z) (ks : list Z) : list Z :=
  match ks with
  | [] => [k]
  | k' :: ks' => if (k <? k')%Z then k :: ks
                 else if (k =? k')%Z then ks
                 else k' :: insert_key k ks'
  end.

(** The distinct group keys, ascending. *)
Definition group_keys (labels : list (option Z)) : list Z :=
  fold_right (fun l ks => match l with Some k => insert_key k ks | None => ks end)
             [] labels.

Definition Qsum (xs : list Q) : Q := fold_left Qplus xs 0%Q.

(** [mean()] of one group: missing cells are skipped. *)
Definition mean_of (xs : list (option Q)) : value :=
  match omap id xs with
  | [] => VNaN
  | ys => VFloat (Qred (Qsum ys / inject_Z (Z.of_nat (length ys))))
  end.

Definition is_label (k : Z) (l : option Z) : bool :=
  match l with
  | Some k' => Z.eqb k' k
  | None => false
  end.

(** A Series indexed by cluster id. *)
Abbreviation Series := (list (Z * value)).

(** [df.groupby(by)[col].mean()] *)
Definition groupby_mean (by_ col : string) (df : DataFrame) : result Series :=
  keys <- get_column by_ df ;;
  vals <- get_column col df ;;
  labels <- mapR as_label keys ;;
  xs <- mapR as_number vals ;;
  Return (map (fun k => (k, mean_of (select (map (is_label k) labels) xs)))
              (group_keys labels)).

Fixpoint series_lookup (s : Series) (k : Z) : option value :=
  match s with
  | [] => None
  | (k', v) :: s' => if Z.eqb k' k then Some v else series_lookup s' k
  end.

(** [s.get(k, None)] *)
Definition series_get (s : Series) (k : Z) : option value := series_lookup s k.

(** One cell of [column.map(s)]: a key that [s] lacks maps to [NaN]. *)
Definition series_map (s : Series) (v : value) : value :=
  match v with
  | VInt k => match series_lookup s k with
              | Some x => x
              | None => VNaN
              end
  | _ => VNaN
  end.

(** ** The error metric *)

Definition finite_number (v : value) : result Q :=
  match v with
  | VInt n => Return (inject_Z n)
  | VFloat x => Return x
  | VNaN => Raise (ValueError "Input contains NaN")
  | VStr _ => Raise (ValueError "could not convert string to float")
  end.

(** [mean_squared_error(y_true, y_pred)] of scikit-learn. *)
Definition mean_squared_error (y_true y_pred : list value) : result Q :=
  ys <- mapR finite_number y_true ;;
  ps <- mapR finite_number y_pred ;;
  if negb (Nat.eqb (length ys) (length ps))
  then Raise (ValueError "inconsistent numbers of samples")
  else if Nat.eqb (length ys) 0
  then Raise (ValueError "Found array with 0 sample(s)")
  else Return (Qred (Qsum (map (fun yp => (fst yp - snd yp) * (fst yp - snd yp))%Q
                               (combine ys ps))
                     / inject_Z (Z.of_nat (length ys)))).

(** ** The rule-based refiner *)

(** What [filterRules] returns: one of three shapes. [B] is the type of
    the [cluster_mean_ratings] argument, which the function only hands
    back. *)
Inductive refined (B : Type) : Type :=
| AlreadyRated (rating : value)
| ColdUser (baseline : B)
| ImportantRules (important_rules : list (Rule * value)).
Arguments AlreadyRated {B} rating.
Arguments ColdUser {B} baseline.
Arguments ImportantRules {B} important_rules.

(** The cells of row [i], each with its column label. *)
Definition row_at (i : nat) (df : DataFrame) : list (string * value) :=
  map (fun c => (fst c, nth i (snd c) VNaN)) df.

(** [list(x.index[x == 1])] for a row [x]. *)
Definition ones (row : list (string * value)) : list string :=
  map fst (List.filter (fun c => val_eqb (snd c) (VInt 1)) row).

(** [df.where(lambda x: x == 1).dropna(axis=1).columns]: the labels of
    the columns whose every cell is 1. *)
Definition all_ones_columns (df : DataFrame) : list string :=
  map fst (List.filter (fun c => forallb (fun v => val_eqb v (VInt 1)) (snd c)) df).

(** [s.issubset(t)] *)
Definition issubset (s t : list string) : bool :=
  forallb (fun x => existsb (String.eqb x) t) s.

(** The two nested loops of lines 257-261. *)
Definition match_rules (table : list Rule) (movie_genres : list string)
    (user_movies : list (value * list string)) : list (Rule * value) :=
  flat_map (fun rule =>
    if issubset (consequents rule) movie_genres
    then flat_map (fun movie =>
           if issubset (antecedents rule) (snd movie)
           then [(rule, fst movie)] else []) user_movies
    else []) table.

(** [filterRules(userId, movieId, df, cluster, cluster_mean_ratings,
    rules)], lines 217-263. *)
Definition filterRules {B} (userId movieId : Z) (df : DataFrame) (cluster : nat)
    (cluster_mean_ratings : B) (rules : list (list (list Rule)))
  : result (refined B) :=
  user_movies <- rows_where "userId" (VInt userId) df ;;
  seen <- get_column "movieId" user_movies ;;
  if existsb (fun x => val_eqb x (VInt movieId)) seen then
    rated <- rows_where "movieId" (VInt movieId) user_movies ;;
    ratings <- get_column "rating" rated ;;
    rating <- index ratings 0 ;;
    Return (AlreadyRated rating)
  else if df_empty user_movies then
    Return (ColdUser cluster_mean_ratings)
  else
    user_movies <- drop_columns ["userId"; "movieId"; "title"] user_movies ;;
    let genres := map (fun i => ones (row_at i user_movies))
                      (seq 0 (nrows user_movies)) in
    ratings <- get_column "rating" user_movies ;;
    let user_movies := combine ratings genres in
    movie_rows <- rows_where "movieId" (VInt movieId) df ;;
    movie_features <- drop_columns id_columns movie_rows ;;
    let movie_genres := all_ones_columns movie_features in
    fold0 <- index rules 0 ;;
    table <- index fold0 cluster ;;
    Return (ImportantRules (match_rules table movie_genres user_movies)).

(** ** Frames as shared objects *)

(** The frames of [train_df] and [test_df] are objects that the caller
    still holds: a store of frames, addressed by position. *)
Abbreviation loc := nat.
Abbreviation heap := (list DataFrame).

(** A computation on the store that can raise; what it wrote before it
    raised stays written. *)
Definition M (A : Type) : Type := heap -> result A * heap.

Definition ret {A} (a : A) : M A := fun h => (Return a, h).

Definition bind {A B} (m : M A) (k : A -> M B) : M B :=
  fun h => match m h with
           | (Raise e, h') => (Raise e, h')
           | (Return a, h') => k a h'
           end.

Definition lift {A} (r : result A) : M A := fun h => (r, h).

Definition deref (l : loc) : M DataFrame :=
  fun h => match h !! l with
           | Some df => (Return df, h)
           | None => (Raise ReferenceError, h)
           end.

Definition assign (l : loc) (df : DataFrame) : M unit :=
  fun h => (Return tt, <[l := df]> h).

(** A new frame object. *)
Definition alloc (df : DataFrame) : M loc :=
  fun h => (Return (length h), (h ++ [df])%list).

Notation "x <~ m ;; k" := (bind m (fun x => k))
  (at level 100, m at next level, right associativity).

(** [frame[label] = vals], in place. *)
Definition setitem (l : loc) (label : string) (vals : list value) : M unit :=
  df <~ deref l ;;
  df' <~ lift (set_column label vals df) ;;
  assign l df'.

(** The loop [for a in l], threading the loop state [s]. *)
Fixpoint foldM {A S} (f : S -> A -> M S) (s : S) (l : list A) : M S :=
  match l with
  | [] => ret s
  | a :: l' => s' <~ f s a ;; foldM f s' l'
  end.

(** ** The clustering estimator *)

(** scikit-learn's estimator interface, as far as the source uses it:
    [fit], the fitted [labels_] and [predict].  With [random_state=42]
    fixed by the source, fitting is a function of its input. *)
Class Clusterer : Type := {
  model : Type;
  fit : nat -> DataFrame -> result model;
  labels_ : model -> list Z;
  predict : model -> DataFrame -> result (list Z)
}.

Section Estimator.
Context {K : Clusterer}.

(** [KMeans(n_clusters=n_clusters, random_state=42).fit(X)]: scikit-learn
    refuses fewer samples than clusters before it fits. *)
Definition KMeans_fit (n_clusters : nat) (X : DataFrame) : result model :=
  if Nat.ltb (nrows X) n_clusters
  then Raise (ValueError "n_samples should be >= n_clusters")
  else fit n_clusters X.

(** [predict_rating_kmeans(user_id, movie_id, models, train_dfs,
    movie_data)], lines 138-164.  [None] is the bare [return None]; the
    first component of the tuple is [None] where [Series.get] finds no
    entry. *)
Definition predict_rating_kmeans (user_id movie_id : Z) (models : list model)
    (train_dfs : list DataFrame) (movie_data : DataFrame)
  : result (option (option value * list Z * Series)) :=
  movie_rows <- rows_where "movieId" (VInt movie_id) movie_data ;;
  movie_features <- drop_columns id_columns movie_rows ;;
  if df_empty movie_features then Return None
  else
    model0 <- index models 0 ;;
    predicted_cluster <- predict model0 movie_features ;;
    train0 <- index train_dfs 0 ;;
    cluster_mean_ratings <- groupby_mean "cluster" "rating" train0 ;;
    cluster0 <- index predicted_cluster 0 ;;
    let predicted_rating := series_get cluster_mean_ratings cluster0 in
    Return (Some (predicted_rating, predicted_cluster, cluster_mean_ratings)).

(** Lines 113-128 of the loop body: fit on the train frame, label both
    frames, and predict.  Returns the model, [y_test] and the frame that
    [test_data] names at line 128. *)
Definition fit_predict (n_clusters : nat) (train_data test_data : loc)
  : M (model * list value * loc) :=
  train <~ deref train_data ;;
  test <~ deref test_data ;;
  X_train <~ lift (drop_columns id_columns train) ;;
  X_test <~ lift (drop_columns id_columns test) ;;
  y_test <~ lift (get_column "rating" test) ;;
  kmeans <~ lift (KMeans_fit n_clusters X_train) ;;
  _ <~ setitem train_data "cluster" (map VInt (labels_ kmeans)) ;;
  test <~ deref test_data ;;
  test_data <~ (if has_column "predicted_rating" test
                then dropped <~ lift (drop_columns ["predicted_rating"] test) ;;
                     alloc dropped
                else ret test_data) ;;
  clusters <~ lift (predict kmeans X_test) ;;
  _ <~ setitem test_data "cluster" (map VInt clusters) ;;
  train <~ deref train_data ;;
  cluster_mean_ratings <~ lift (groupby_mean "cluster" "rating" train) ;;
  test <~ deref test_data ;;
  assigned <~ lift (get_column "cluster" test) ;;
  _ <~ setitem test_data "predicted_rating"
                (map (series_map cluster_mean_ratings) assigned) ;;
  ret (kmeans, y_test, test_data).

(** The three lists that the loop appends to. *)
Definition sweep : Type := list Q * list model * list loc.

(** One iteration of the loop of lines 109-134. *)
Definition fold_body (n_clusters : nat) (train_df test_df : list loc)
    (acc : sweep) (i : nat) : M sweep :=
  let '(mse_list, models, train_dfs) := acc in
  train_data <~ lift (index train_df i) ;;
  test_data <~ lift (index test_df i) ;;
  fitted <~ fit_predict n_clusters train_data test_data ;;
  let '(kmeans, y_test, test_data) := fitted in
  test <~ deref test_data ;;
  predicted <~ lift (get_column "predicted_rating" test) ;;
  mse <~ lift (mean_squared_error y_test predicted) ;;
  ret ((mse_list ++ [mse])%list, (models ++ [kmeans])%list,
       (train_dfs ++ [train_data])%list).

(** [train_kmeans_and_predict(train_df, test_df, n_clusters)], lines
    91-136. *)
Definition train_kmeans_and_predict (train_df test_df : list loc)
    (n_clusters : nat) : M sweep :=
  foldM (fold_body n_clusters train_df test_df) ([], [], [])
        (seq 0 (length train_df)).

End Estimator.

(** ** A clusterer to run the examples with *)

(** The sum of the integer cells of row [i]. *)
Definition flag_count (i : nat) (X : DataFrame) : Z :=
  fold_right (fun c acc => match nth i (snd c) VNaN with
                           | VInt n => n + acc
                           | _ => acc
                           end) 0 X.

Definition count_labels (n : nat) (X : DataFrame) : list Z :=
  map (fun i => flag_count i X mod Z.of_nat n) (seq 0 (nrows X)).

(** Partitions rows by the number of flags they set, modulo the number
    of clusters. *)
Definition FlagCount : Clusterer := {|
  model := nat * list Z;
  fit n X := Return (n, count_labels n X);
  labels_ m := snd m;
  predict m X := Return (count_labels (fst m) X)
|}.

(** ** Reference definitions and example data *)

(** The specification's formula, [sum(confidence_i * rating_i) /
    sum(confidence_i)], on floats: the terms of the two sums, a sum
    taken from 0 and from left to right, and the quotient of the two. *)
Definition products (l : list (Rule * Q)) : list spec_float :=
  map (fun r => fmul (float_of_Q (confidence (fst r))) (float_of_Q (snd r))) l.

Definition confidences (l : list (Rule * Q)) : list spec_float :=
  map (fun r => float_of_Q (confidence (fst r))) l.

Definition float_sum (xs : list spec_float) : spec_float := fold_left fadd xs fzero.

Definition weighted_average (l : list (Rule * Q)) : spec_float :=
  fdiv (float_sum (products l)) (float_sum (confidences l)).

(** The sum of the confidences as numbers, without rounding. *)
Definition confidence_sum (l : list (Rule * Q)) : Q :=
  fold_right (fun r s => confidence (fst r) + s)%Q 0%Q l.

(** A rule of which only the confidence matters. *)
Definition rule_with (c : Q) : Rule := mkRule [] [] c 0.

(** The fractional part of a non-negative number. *)
Definition frac (x : Q) : Q := (x - inject_Z (Qfloor x))%Q.

(** The cell of column [label] in row [i]. *)
Definition cell (label : string) (i : nat) (df : DataFrame) : option value :=
  match get_column label df with
  | Return c => nth_error c i
  | Raise _ => None
  end.

(** Row [i] carries [v] in column [label]. *)
Definition carries (label : string) (v : value) (i : nat) (df : DataFrame) : bool :=
  match cell label i df with
  | Some x => val_eqb x v
  | None => false
  end.

(** How often [label] names a column of [df]. *)
Definition occurrences (label : string) (df : DataFrame) : nat :=
  length (List.filter (String.eqb label) (columns df)).

(** A small dataset: users 1 and 2, movies 10 and 11. *)
Definition example_ratings : DataFrame :=
  [("userId", [VInt 1; VInt 1; VInt 2]);
   ("movieId", [VInt 10; VInt 11; VInt 10]);
   ("rating", [VFloat 4; VFloat (7 # 2); VFloat 2]);
   ("title", [VStr "Heat"; VStr "Big"; VStr "Heat"]);
   ("Action", [VInt 1; VInt 0; VInt 1]);
   ("Comedy", [VInt 0; VInt 1; VInt 0])].

(** ** Reasoning about computations on the store *)

(** [wp m Inv Post h]: run from [h], [m] leaves a store that satisfies
    [Inv] if it raises and [Post a] if it returns [a]. *)
Definition wp {A} (m : M A) (Inv : heap -> Prop) (Post : A -> heap -> Prop)
    (h : heap) : Prop :=
  match m h with
  | (Raise _, h') => Inv h'
  | (Return a, h') => Post a h'
  end.

(** The store only grows, and a frame that has a column keeps its
    number of rows and stays rectangular. *)
Definition grows (h h' : heap) : Prop :=
  (length h <= length h')%nat /\
  forall (l : loc) (df : DataFrame), h !! l = Some df -> df <> [] ->
    exists df', h' !! l = Some df' /\ df' <> [] /\ nrows df' = nrows df /\
                (rectangular df -> rectangular df').

(** The frame at [l] carries a prediction column already. *)
Definition stale (h : heap) (l : loc) : Prop :=
  exists df, h !! l = Some df /\ has_column "predicted_rating" df = true.

(** The frames of [h] that one fold on [train_data] and [test_data]
    leaves alone. *)
Definition kept (h : heap) (train_data test_data : loc) (l : loc) : Prop :=
  (l < length h)%nat /\ l <> train_data /\ (l = test_data -> stale h l).

Definition untouched (P : loc -> Prop) (h h' : heap) : Prop :=
  forall l, P l -> h' !! l = h !! l.

(** The invariant of one fold, relative to the store [h] it starts from. *)
Definition fold_inv (h : heap) (train_data test_data : loc) (h' : heap) : Prop :=
  grows h h' /\ untouched (kept h train_data test_data) h h'.

(** The caller's frames that a whole sweep leaves alone. *)
Definition spared (h : heap) (train_df test_df : list loc) (l : loc) : Prop :=
  (l < length h)%nat /\ ~ In l train_df /\ (In l test_df -> stale h l).

Definition sweep_inv (h : heap) (train_df test_df : list loc) (h' : heap) : Prop :=
  grows h h' /\ untouched (spared h train_df test_df) h h'.

(** Both stores hold the same frame at every train location. *)
Definition agree (trains : list loc) (h1 h2 : heap) : Prop :=
  forall l, In l trains -> exists df, h1 !! l = Some df /\ h2 !! l = Some df.

(** Frames for the examples: a train frame whose rows set 2, 1 and 1
    flags, test frames, a test frame that carries a prediction column
    from an earlier run, and a train frame of one row. *)
Definition example_train : DataFrame :=
  [("userId", [VInt 1; VInt 1; VInt 2]);
   ("movieId", [VInt 10; VInt 11; VInt 10]);
   ("rating", [VFloat 4; VFloat (7 # 2); VFloat 2]);
   ("title", [VStr "Heat"; VStr "Big"; VStr "Heat"]);
   ("Action", [VInt 1; VInt 0; VInt 1]);
   ("Comedy", [VInt 1; VInt 1; VInt 0])].

Definition example_test : DataFrame :=
  [("userId", [VInt 3; VInt 3]);
   ("movieId", [VInt 10; VInt 11]);
   ("rating", [VFloat 5; VFloat 3]);
   ("title", [VStr "Heat"; VStr "Big"]);
   ("Action", [VInt 1; VInt 0]);
   ("Comedy", [VInt 1; VInt 1])].

Definition other_test : DataFrame :=
  [("userId", [VInt 4]);
   ("movieId", [VInt 11]);
   ("rating", [VFloat 1]);
   ("title", [VStr "Big"]);
   ("Action", [VInt 0]);
   ("Comedy", [VInt 1])].

Definition unseen_test : DataFrame :=
  [("userId", [VInt 3; VInt 3]);
   ("movieId", [VInt 10; VInt 12]);
   ("rating", [VFloat 5; VFloat 3]);
   ("title", [VStr "Heat"; VStr "Fog"]);
   ("Action", [VInt 1; VInt 0]);
   ("Comedy", [VInt 1; VInt 0])].

Definition stale_test : DataFrame :=
  [("userId", [VInt 3; VInt 3]);
   ("movieId", [VInt 10; VInt 11]);
   ("rating", [VFloat 5; VFloat 3]);
   ("title", [VStr "Heat"; VStr "Big"]);
   ("Action", [VInt 1; VInt 0]);
   ("Comedy", [VInt 1; VInt 1]);
   ("predicted_rating", [VFloat 1; VFloat 1])].

Definition tiny_train : DataFrame :=
  [("userId", [VInt 7]);
   ("movieId", [VInt 10]);
   ("rating", [VFloat 3]);
   ("title", [VStr "Heat"]);
   ("Action", [VInt 1]);
   ("Comedy", [VInt 0])].

Definition example_store : heap :=
  [example_train; example_test; tiny_train; stale_test; unseen_test].

(** [example_train] as a fold with three clusters leaves it. *)
Definition clustered_train : DataFrame :=
  (example_train ++ [("cluster", [VInt 2; VInt 1; VInt 1])])%list.

(** The frame at [tr] carries the labels of [k] in its cluster column. *)
Definition labelled {K : Clusterer} (h : heap) (k : model) (tr : loc) : Prop :=
  exists df, h !! tr = Some df /\
             get_column "cluster" df = Return (map VInt (labels_ k)).

(** The frame that fold [i] predicted into holds the predictions of
    line 128 from [table]: that frame is the [i]-th of [tests], or a
    frame made since the store held [n0] frames where the test frame
    carried a prediction column already, and its [predicted_rating]
    column is what [table] gives for its [cluster] column. *)
Definition predicted_from (tests : list loc) (n0 : nat) (h : heap) (i : nat)
    (table : Series) : Prop :=
  exists te te' test assigned,
    nth_error tests i = Some te /\ (te' = te \/ (n0 <= te')%nat) /\
    h !! te' = Some test /\
    get_column "cluster" test = Return assigned /\
    get_column "predicted_rating" test = Return (map (series_map table) assigned).

(** What a fold on the train frame [tr] that fitted [k] has left in the
    store: the labels of [k] in the train frame, and in the frame it
    predicted into the predictions from the baseline table of line 127,
    the means of the train ratings by cluster. *)
Definition baselined {K : Clusterer} (trains tests : list loc) (n0 : nat)
    (h : heap) (k : model) (tr : loc) : Prop :=
  exists i train table,
    nth_error trains i = Some tr /\
    h !! tr = Some train /\
    get_column "cluster" train = Return (map VInt (labels_ k)) /\
    groupby_mean "cluster" "rating" train = Return table /\
    predicted_from tests n0 h i table.

(** ** Splitting into folds *)

(** [df.iloc[positions]]: the rows at the given positions, in the given
    order; a position past the last row raises. *)
Definition iloc (positions : list nat) (df : DataFrame) : result DataFrame :=
  if existsb (fun i => Nat.leb (nrows df) i) positions
  then Raise IndexError
  else Return (map (fun c => (fst c, map (fun i => nth i (snd c) VNaN) positions)) df).

(** What [kf.split(data)] yields: for each fold its train and its test
    positions.  The splitter is the caller's; it sees the number of rows. *)
Abbreviation Splits := (list (list nat * list nat)).

(** One iteration of the loop of lines 79-85.  Each [.copy()] is a new
    frame object. *)
Definition split_body (data : loc) (acc : list loc * list loc)
    (fold : list nat * list nat) : M (list loc * list loc) :=
  let '(all_train_data, all_test_data) := acc in
  let '(train_index, test_index) := fold in
  df <~ deref data ;;
  train_rows <~ lift (iloc train_index df) ;;
  train_data_kf <~ alloc train_rows ;;
  df <~ deref data ;;
  test_rows <~ lift (iloc test_index df) ;;
  test_data_kf <~ alloc test_rows ;;
  ret ((all_train_data ++ [train_data_kf])%list,
       (all_test_data ++ [test_data_kf])%list).

(** [return_datasets(data, kf)], lines 61-88. *)
Definition return_datasets (data : loc) (kf : nat -> result Splits)
  : M (list loc * list loc) :=
  df <~ deref data ;;
  data <~ alloc df ;;
  df <~ deref data ;;
  folds <~ lift (kf (nrows df)) ;;
  foldM (split_body data) ([], []) folds.

(** The store [h'] extends [h]: nothing that [h] holds has changed. *)
Definition extends (h h' : heap) : Prop := exists ext, h' = (h ++ ext)%list.

(** The frames of the folds, train frame before test frame. *)
Definition interleave (frames : list (DataFrame * DataFrame)) : heap :=
  flat_map (fun ab => [fst ab; snd ab]) frames.

(** ** The users with the most ratings *)

Definition is_nan (v : value) : bool :=
  match v with
  | VNaN => true
  | _ => false
  end.

(** [count()] of one group: its cells that are not missing. *)
Definition count_cells (cells : list value) : nat :=
  length (List.filter (fun v => negb (is_nan v)) cells).

(** [df.groupby(by)[col].count()]: a Series of counts, keys ascending. *)
Definition groupby_count (by_ col : string) (df : DataFrame)
  : result (list (Z * nat)) :=
  keys <- get_column by_ df ;;
  vals <- get_column col df ;;
  labels <- mapR as_label keys ;;
  Return (map (fun k => (k, count_cells (select (map (is_label k) labels) vals)))
              (group_keys labels)).

(** [x] goes behind every entry that counts as much or more. *)
Fixpoint insert_desc (x : Z * nat) (l : list (Z * nat)) : list (Z * nat) :=
  match l with
  | [] => [x]
  | y :: l' => if Nat.ltb (snd y) (snd x) then x :: l else y :: insert_desc x l'
  end.

(** The entries by descending count; entries that count the same stay
    in their order. *)
Definition sort_desc (l : list (Z * nat)) : list (Z * nat) :=
  fold_left (fun acc x => insert_desc x acc) l [].

(** [s.nlargest(n)], with its default [keep='first']. *)
Definition nlargest (n : Z) (s : list (Z * nat)) : list (Z * nat) :=
  firstn (Z.to_nat n) (sort_desc s).

(** One cell of [column.isin(index)]. *)
Definition isin (index : list Z) (v : value) : bool :=
  match v with
  | VInt k => existsb (Z.eqb k) index
  | _ => false
  end.

(** [shrinking_data(n, df)], lines 52-58.  Frames are addressed by
    position, so [reset_index(drop=True)] changes nothing. *)
Definition shrinking_data (n : Z) (df : DataFrame) : result DataFrame :=
  user_likes <- groupby_count "userId" "movieId" df ;;
  let top_users := map fst (nlargest n user_likes) in
  users <- get_column "userId" df ;;
  Return (select_rows (map (isin top_users) users) df).

(** A cell as a user or movie id; [None] for a cell that is none. *)
Definition int_label (v : value) : option Z :=
  match v with
  | VInt k => Some k
  | _ => None
  end.

(** Counts fall along the list. *)
Definition descending (l : list (Z * nat)) : Prop :=
  StronglySorted (fun a b => (snd b <= snd a)%nat) l.

(** ** The two mappings *)

(** Two cells hold the same value: equal, or both missing. *)
Definition same_value (a b : value) : bool :=
  val_eqb a b || (is_nan a && is_nan b).

(** [s.unique()]: the distinct cells, each where it first appears. *)
Fixpoint unique (cells : list value) : list value :=
  match cells with
  | [] => []
  | c :: cells' => c :: List.filter (fun x => negb (same_value x c)) (unique cells')
  end.

(** [df.groupby(by)[col].unique().to_dict()]: the keys ascending, each
    with the distinct cells of its group. *)
Definition groupby_unique (keys vals : list value)
  : result (list (Z * list value)) :=
  labels <- mapR as_label keys ;;
  Return (map (fun k => (k, unique (select (map (is_label k) labels) vals)))
              (group_keys labels)).

(** [d.get(k)] on a dict. *)
Fixpoint dict_get {A} (d : list (Z * A)) (k : Z) : option A :=
  match d with
  | [] => None
  | (k', a) :: d' => if Z.eqb k' k then Some a else dict_get d' k
  end.

(** [create_mappings(df)], lines 11-28. *)
Definition create_mappings (df : DataFrame)
  : result (list (Z * list value) * list (Z * list value)) :=
  users <- get_column "userId" df ;;
  movies <- get_column "movieId" df ;;
  user2movie <- groupby_unique users movies ;;
  movie2user <- groupby_unique movies users ;;
  Return (user2movie, movie2user).

(** ** Mining rules *)

(** mlxtend's [apriori] and [association_rules], as far as the source
    uses them: the first mines the frequent itemsets of a frame of
    flags, the second derives the table of rules from them. *)
Class Miner : Type := {
  itemsets : Type;
  apriori : DataFrame -> Q -> result itemsets;
  association_rules : itemsets -> string -> Q -> result (list Rule)
}.

Section Mining.
Context {Mi : Miner}.

(** [getFrequentItemset(clustered_data, min_support)], lines 167-190. *)
Definition getFrequentItemset (clustered_data : list DataFrame) (min_support : Q)
  : result (list (list itemsets)) :=
  mapR (fun dataset =>
          train_df <- drop_columns id_columns dataset ;;
          clusters <- get_column "cluster" train_df ;;
          mapR (fun cluster =>
                  rows <- rows_where "cluster" cluster train_df ;;
                  flags <- drop_columns ["cluster"] rows ;;
                  apriori flags min_support)
               (unique clusters))
       clustered_data.

(** [getRules(freq_itemsets, metric, min_threshold)], lines 193-215. *)
Definition getRules (freq_itemsets : list (list itemsets)) (metric : string)
    (min_threshold : Q) : result (list (list (list Rule))) :=
  mapR (fun set =>
          mapR (fun cluster => association_rules cluster metric min_threshold) set)
       freq_itemsets.

End Mining.

(** The flags that are mined for cluster label [c] of [dataset]: no id
    column, no cluster column, and of every other column the cells of
    the rows that carry [c]. *)
Definition flags_of (dataset : DataFrame) (clusters : list value) (c : value)
    (flags : DataFrame) : Prop :=
  (forall label, In label ("cluster" :: id_columns) ->
                 has_column label flags = false) /\
  forall label, ~ In label ("cluster" :: id_columns) ->
    get_column label flags
    = rbind (get_column label dataset)
            (fun cells => Return (select (map (fun x => val_eqb x c) clusters) cells)).

(** ** The utility matrix *)

(** The pivot table after [fillna(0)]: its row labels, its column
    labels and its rows of cells. *)
Record UtilityMatrix : Type := mkUtility {
  um_index : list Z;
  um_columns : list Z;
  um_rows : list (list Q)
}.

(** A row of the frame as [pivot_table] sees it: user, movie, rating. *)
Abbreviation Triple := (option Z * (option Z * option Q))%type.

(** The rows that enter the table: both keys and the rating present. *)
Definition is_rated (t : Triple) : bool :=
  match t with
  | (Some _, (Some _, Some _)) => true
  | _ => false
  end.

Definition in_group (u m : Z) (t : Triple) : bool :=
  is_label u (fst t) && is_label m (fst (snd t)).

(** The cell of user [u] and movie [m]: the mean of the ratings of the
    pair, and 0 where [fillna] met no rating. *)
Definition pivot_cell (rows : list Triple) (u m : Z) : Q :=
  match mean_of (map (fun t => snd (snd t)) (List.filter (in_group u m) rows)) with
  | VFloat x => x
  | _ => 0%Q
  end.

(** [create_utility_matrix(df)], lines 31-49.  [pivot_table] looks the
    value column up first, groups the rows by user and movie, leaves out
    a row with a missing key, takes the mean of the ratings of a pair
    without its missing ones, drops a pair that has none, and lays the
    means out with the users and the movies ascending; [fillna(0)] then
    fills the cells of the pairs without a mean. *)
Definition create_utility_matrix (df : DataFrame) : result UtilityMatrix :=
  ratings <- get_column "rating" df ;;
  users <- get_column "userId" df ;;
  movies <- get_column "movieId" df ;;
  us <- mapR as_label users ;;
  ms <- mapR as_label movies ;;
  rs <- mapR as_number ratings ;;
  let rows := List.filter is_rated (combine us (combine ms rs)) in
  let index := group_keys (map fst rows) in
  let columns := group_keys (map (fun t => fst (snd t)) rows) in
  Return (mkUtility index columns
            (map (fun u => map (fun m => pivot_cell rows u m) columns) index)).

(** The position of [k] among the labels. *)
Fixpoint position (k : Z) (labels : list Z) : option nat :=
  match labels with
  | [] => None
  | k' :: labels' => if Z.eqb k' k then Some 0%nat
                     else option_map S (position k labels')
  end.

(** [utility_matrix.loc[u, m]], with [None] for a label that the table
    lacks. *)
Definition um_get (M : UtilityMatrix) (u m : Z) : option Q :=
  match position u (um_index M), position m (um_columns M) with
  | Some i, Some j =>
      match nth_error (um_rows M) i with
      | Some row => nth_error row j
      | None => None
      end
  | _, _ => None
  end.

(** A numeric cell as a number. *)
Definition number_of (v : value) : option Q :=
  match v with
  | VInt n => Some (inject_Z n)
  | VFloat x => Some x
  | _ => None
  end.

(** ** A miner and a splitter to run the examples with *)

(** Finds the flags that every row of the frame sets, and draws a rule
    from each of them to each other one. *)
Definition FlagMiner : Miner := {|
  itemsets := list string;
  apriori X _ := Return (all_ones_columns X);
  association_rules sets _ _ :=
    Return (flat_map (fun a =>
              flat_map (fun b => if String.eqb a b then []
                                 else [mkRule [a] [b] 1 0]) sets) sets)
|}.

(** Two folds: the last row tests the first, the first row the second. *)
Definition example_kf (n : nat) : result Splits :=
  if Nat.ltb n 2 then Raise (ValueError "n_splits is greater than the number of samples")
  else Return [(seq 0 (n - 1), [(n - 1)%nat]); (seq 1 (n - 1), [0%nat])].

(** [example_ratings] with a row whose rating is missing. *)
Definition sparse_ratings : DataFrame :=
  [("userId", [VInt 1; VInt 1; VInt 2; VInt 3]);
   ("movieId", [VInt 10; VInt 11; VInt 10; VInt 12]);
   ("rating", [VFloat 4; VFloat (7 # 2); VInt 2; VNaN]);
   ("title", [VStr "Heat"; VStr "Big"; VStr "Heat"; VStr "Fog"])].

(** * Properties *)

(** ** Frames *)

Lemma get_column_select_rows (label : string) (mask : list bool) (df : DataFrame) :
  get_column label (select_rows mask df)
  = rbind (get_column label df) (fun c => Return (select mask c)).
Proof.
  induction df as [| c df IH]; simpl; [reflexivity |].
  destruct (String.eqb label (fst c)); [reflexivity | exact IH].
Qed.

Lemma has_column_get_column (label : string) (df : DataFrame) :
  has_column label df = true -> exists c, get_column label df = Return c.
Proof.
  unfold has_column, columns. induction df as [| c df IH]; simpl; [discriminate |].
  destruct (String.eqb label (fst c)); simpl; eauto.
Qed.

Lemma get_column_has_column (label : string) (df : DataFrame) (c : list value) :
  get_column label df = Return c -> has_column label df = true.
Proof.
  unfold has_column, columns. induction df as [| c' df IH]; simpl; [discriminate |].
  destruct (String.eqb label (fst c')); simpl; auto.
Qed.

Lemma select_none {A B} (f : A -> bool) (l : list A) (c : list B) :
  (forall x, In x l -> f x = false) -> select (map f l) c = [].
Proof.
  revert c. induction l as [| a l IH]; intros c H; simpl; [reflexivity |].
  destruct c as [| b c]; [reflexivity |].
  rewrite (H a) by (left; reflexivity). apply IH. intros x Hx. apply H. right. exact Hx.
Qed.

Lemma df_empty_select_none {A} (f : A -> bool) (l : list A) (df : DataFrame) :
  (forall x, In x l -> f x = false) -> df_empty (select_rows (map f l) df) = true.
Proof.
  intros H. destruct df as [| c df]; [reflexivity |].
  simpl. rewrite (select_none f l (snd c) H). reflexivity.
Qed.

(** The first rating that both masks of lines 236 and 240 let through is
    the rating of the one row that carries both ids. *)
Lemma select_twice_head (f g : value -> bool) :
  forall (i : nat) (us ms rs : list value) (u m R : value),
    nth_error us i = Some u -> nth_error ms i = Some m -> nth_error rs i = Some R ->
    f u = true -> g m = true ->
    (forall j u' m', nth_error us j = Some u' -> nth_error ms j = Some m' ->
                     f u' = true -> g m' = true -> j = i) ->
    existsb g (select (map f us) ms) = true /\
    nth_error (select (map g (select (map f us) ms)) (select (map f us) rs)) 0
    = Some R.
Proof.
  induction i as [| i IH]; intros us ms rs u m R Hu Hm Hr Hf Hg Huniq;
    destruct us as [| u0 us]; destruct ms as [| m0 ms]; destruct rs as [| r0 rs];
    try discriminate; simpl in Hu, Hm, Hr.
  - injection Hu as ->. injection Hm as ->. injection Hr as ->.
    simpl. rewrite Hf. simpl. rewrite Hg. split; reflexivity.
  - assert (Htail : forall j u' m', nth_error us j = Some u' ->
              nth_error ms j = Some m' -> f u' = true -> g m' = true -> j = i).
    { intros j u' m' H1 H2 H3 H4.
      specialize (Huniq (S j) u' m' H1 H2 H3 H4). lia. }
    destruct (IH us ms rs u m R Hu Hm Hr Hf Hg Htail) as [He Hn].
    simpl. destruct (f u0) eqn:Ef; [| split; assumption].
    simpl. destruct (g m0) eqn:Eg.
    + specialize (Huniq 0%nat u0 m0 eq_refl eq_refl Ef Eg). discriminate.
    + simpl. split; assumption.
Qed.

Lemma cell_column (label : string) (i : nat) (df : DataFrame) (v : value) :
  cell label i df = Some v ->
  exists c, get_column label df = Return c /\ nth_error c i = Some v.
Proof.
  unfold cell. destruct (get_column label df) as [e | c]; [discriminate |]. eauto.
Qed.

Lemma carries_column (label : string) (v : value) (i : nat) (df : DataFrame) :
  carries label v i df = true ->
  exists c x, get_column label df = Return c /\ nth_error c i = Some x /\
              val_eqb x v = true.
Proof.
  unfold carries. destruct (cell label i df) as [x |] eqn:E; [| discriminate].
  intros H. destruct (cell_column _ _ _ _ E) as (c & Hc & Hx). eauto.
Qed.

(** ** Rounding *)

Lemma int_of_float_floor (x : Q) : (0 <= x)%Q -> int_of_float x = Qfloor x.
Proof.
  destruct x as [n d]. unfold Qle, int_of_float, Qfloor. simpl. intros H.
  apply Z.quot_div_nonneg; lia.
Qed.

(** ** The weighted average *)

Lemma accumulate_sums (l : list (Rule * Q)) : forall a b : spec_float,
  fold_left accumulate l (a, b)
  = (fold_left fadd (products l) a, fold_left fadd (confidences l) b).
Proof.
  induction l as [| r l IH]; intros a b; simpl; [reflexivity |].
  unfold accumulate at 2. simpl. apply IH.
Qed.

(** The loop computes the two sums of the formula. *)
Lemma predictRatingRules_sums (l : list (Rule * Q)) :
  predictRatingRules l
  = if feqb (float_sum (confidences l)) fzero then PyInt 0
    else round_float2 (weighted_average l).
Proof. unfold predictRatingRules. rewrite accumulate_sums. reflexivity. Qed.

Lemma fltb_positive (x : spec_float) : fltb fzero x = true -> feqb x fzero = false.
Proof.
  destruct x as [s | s | | s m e]; try destruct s;
    unfold fltb, feqb, SFltb, SFeqb, fzero; simpl; congruence.
Qed.

(** [round_half_even] picks the nearest integer, and the even one of two
    that are as near. *)
Lemma round_half_even_nearest (y : Q) :
  (- (1 # 2) <= inject_Z (round_half_even y) - y)%Q /\
  (inject_Z (round_half_even y) - y <= 1 # 2)%Q /\
  ((inject_Z (round_half_even y) - y == 1 # 2)%Q \/
   (inject_Z (round_half_even y) - y == - (1 # 2))%Q ->
   Z.even (round_half_even y) = true).
Proof.
  unfold round_half_even.
  pose proof (Qfloor_le y) as F1. pose proof (Qlt_floor y) as F2.
  rewrite inject_Z_plus in F2. change (inject_Z 1) with 1%Q in F2.
  destruct (Qcompare_spec (y - inject_Z (Qfloor y)) (1 # 2)) as [E | L | G].
  - destruct (Z.even (Qfloor y)) eqn:Ev.
    + split; [lra |]. split; [lra |]. intros _. exact Ev.
    + rewrite inject_Z_plus. change (inject_Z 1) with 1%Q.
      split; [lra |]. split; [lra |]. intros _.
      replace (Qfloor y + 1)%Z with (Z.succ (Qfloor y)) by lia.
      rewrite Z.even_succ, <- Z.negb_even, Ev. reflexivity.
  - split; [lra |]. split; [lra |]. intros [H | H]; exfalso; lra.
  - rewrite inject_Z_plus. change (inject_Z 1) with 1%Q.
    split; [lra |]. split; [lra |]. intros [H | H]; exfalso; lra.
Qed.

Lemma Qeq_0_num (c : Q) : (c == 0)%Q -> Qnum c = 0%Z.
Proof. unfold Qeq. simpl. lia. Qed.

Lemma confidence_sum_nonneg (l : list (Rule * Q)) :
  (forall r, In r l -> (0 <= confidence (fst r))%Q) -> (0 <= confidence_sum l)%Q.
Proof.
  induction l as [| r l IH]; intros H; simpl; [discriminate |].
  pose proof (H r (or_introl eq_refl)).
  pose proof (IH (fun r' Hr' => H r' (or_intror Hr'))). lra.
Qed.

(** Confidences that are not negative and add up to zero are all zero,
    and so is their sum as floats. *)
Lemma float_sum_no_confidence (l : list (Rule * Q)) :
  (forall r, In r l -> (0 <= confidence (fst r))%Q) ->
  (confidence_sum l == 0)%Q ->
  float_sum (confidences l) = fzero.
Proof.
  unfold float_sum. induction l as [| r l IH]; intros H S; simpl; [reflexivity |].
  simpl in S.
  pose proof (H r (or_introl eq_refl)) as Hr.
  pose proof (confidence_sum_nonneg l (fun r' Hr' => H r' (or_intror Hr'))) as Hl.
  assert (Er : (confidence (fst r) == 0)%Q) by lra.
  assert (El : (confidence_sum l == 0)%Q) by lra.
  unfold float_of_Q. rewrite (Qeq_0_num _ Er). simpl.
  apply IH; [intros r' Hr'; apply H; right; exact Hr' | exact El].
Qed.

Lemma frac_int_of_float (x : Q) :
  (0 <= x)%Q -> (x - inject_Z (int_of_float x))%Q = frac x.
Proof. intros H. unfold frac. rewrite int_of_float_floor by exact H. reflexivity. Qed.

(** C7, as the code has it: for a non-negative rating, [roundRating]
    returns [int(x)] when the fractional part is below 0.25, [int(x) +
    0.5] when it lies in [0.25, 0.75), and [int(x) + 1] from 0.75 on; it
    maps 2.1 to 2, 2.25 to 2.5, 2.7 to 2.5, 2.76 to 3, and 2.4 to 2.5. *)
Theorem roundRating_law :
  (forall x : Q, (0 <= x)%Q ->
     ((frac x < 1 # 4)%Q -> roundRating x = PyInt (int_of_float x)) /\
     ((1 # 4 <= frac x)%Q -> (frac x < 3 # 4)%Q ->
        roundRating x = PyFloat (Qred (inject_Z (int_of_float x) + (1 # 2)))) /\
     ((3 # 4 <= frac x)%Q -> roundRating x = PyInt (int_of_float x + 1))) /\
  roundRating (21 # 10) = PyInt 2 /\
  roundRating (24 # 10) = PyFloat (5 # 2) /\
  roundRating (225 # 100) = PyFloat (5 # 2) /\
  roundRating (27 # 10) = PyFloat (5 # 2) /\
  roundRating (276 # 100) = PyInt 3.
Proof.
  split; [| repeat split; reflexivity].
  intros x Hx. unfold roundRating. rewrite (frac_int_of_float x Hx).
  split; [| split].
  - intros H. destruct (Qlt_le_dec (frac x) (1 # 4)) as [_ | H']; [reflexivity |].
    exfalso. exact (Qlt_not_le _ _ H H').
  - intros H1 H2. destruct (Qlt_le_dec (frac x) (1 # 4)) as [H' | _].
    + exfalso. exact (Qlt_not_le _ _ H' H1).
    + destruct (Qlt_le_dec (frac x) (3 # 4)) as [_ | H']; [reflexivity |].
      exfalso. exact (Qlt_not_le _ _ H2 H').
  - intros H. destruct (Qlt_le_dec (frac x) (1 # 4)) as [H' | _].
    + exfalso. apply (Qlt_not_le _ _ H'). apply Qle_trans with (3 # 4); [| exact H].
      discriminate.
    + destruct (Qlt_le_dec (frac x) (3 # 4)) as [H' | _]; [| reflexivity].
      exfalso. exact (Qlt_not_le _ _ H' H).
Qed.

(** The law applied at 2.4, whose fractional part 0.4 lies in
    [0.25, 0.75). *)
Lemma roundRating_law_witness :
  (0 <= 24 # 10)%Q /\ (1 # 4 <= frac (24 # 10))%Q /\ (frac (24 # 10) < 3 # 4)%Q /\
  roundRating (24 # 10) = PyFloat (Qred (inject_Z (int_of_float (24 # 10)) + (1 # 2))).
Proof.
  assert (H0 : (0 <= 24 # 10)%Q) by discriminate.
  assert (H1 : (1 # 4 <= frac (24 # 10))%Q) by discriminate.
  assert (H2 : (frac (24 # 10) < 3 # 4)%Q) by reflexivity.
  split; [exact H0 | split; [exact H1 | split; [exact H2 |]]].
  exact (proj1 (proj2 (proj1 roundRating_law (24 # 10) H0)) H1 H2).
Defined.

(** C7, as the claim states it, fails at 2.4: [roundRating(2.4)] is 2.5
    and not 2, for the decimal 2.4 and for the binary64 float nearest to
    it alike. *)
Lemma roundRating_2_4_is_not_2 :
  roundRating (24 # 10) = PyFloat (5 # 2) /\
  roundRating (b64 5404319552844595 (-51)) = PyFloat (5 # 2) /\
  ~ (num_val (roundRating (24 # 10)) == 2)%Q /\
  ~ (num_val (roundRating (b64 5404319552844595 (-51))) == 2)%Q.
Proof. repeat split; try reflexivity; discriminate. Qed.

(** C5: on a non-empty list whose confidences sum to a positive number,
    [predictRatingRules] returns [sum(confidence_i * rating_i) /
    sum(confidence_i)], computed on floats, rounded to two decimal
    places: the decimal [k / 100] where [k] is the integer nearest to a
    hundred times the quotient, the even one of two that are as near; a
    quotient that is infinite or no number is returned as it is.  On
    confidences 0.8 and 0.5 with ratings 4.0 and 3.0 it returns 3.62;
    on confidences 0.81 and 0.99 with ratings 3.5 and 5.0, where the
    quotient of the floats lies above 4.325, it returns 4.33. *)
Theorem predictRatingRules_weighted_average :
  (forall l : list (Rule * Q), l <> [] ->
     fltb fzero (float_sum (confidences l)) = true ->
     match weighted_average l with
     | S754_nan => predictRatingRules l = PyNaN
     | S754_infinity s => predictRatingRules l = PyInf s
     | q =>
         exists k : Z,
           predictRatingRules l = PyFloat (Qred (k # 100)) /\
           (- (1 # 2) <= inject_Z k - 100 * Q_of_float q)%Q /\
           (inject_Z k - 100 * Q_of_float q <= 1 # 2)%Q /\
           ((inject_Z k - 100 * Q_of_float q == 1 # 2)%Q \/
            (inject_Z k - 100 * Q_of_float q == - (1 # 2))%Q ->
            Z.even k = true)
     end) /\
  (num_val (predictRatingRules
              [(rule_with (8 # 10), 4%Q); (rule_with (5 # 10), 3%Q)])
   == 362 # 100)%Q /\
  (num_val (predictRatingRules
              [(rule_with (81 # 100), 35 # 10); (rule_with (99 # 100), 5%Q)])
   == 433 # 100)%Q.
Proof.
  split; [| split; vm_compute; reflexivity].
  intros l _ H. rewrite predictRatingRules_sums, (fltb_positive _ H).
  assert (R : forall q : spec_float,
            exists k : Z,
              PyFloat (round2 (Q_of_float q)) = PyFloat (Qred (k # 100)) /\
              (- (1 # 2) <= inject_Z k - 100 * Q_of_float q)%Q /\
              (inject_Z k - 100 * Q_of_float q <= 1 # 2)%Q /\
              ((inject_Z k - 100 * Q_of_float q == 1 # 2)%Q \/
               (inject_Z k - 100 * Q_of_float q == - (1 # 2))%Q ->
               Z.even k = true)).
  { intros q. exists (round_half_even (Q_of_float q * 100)).
    destruct (round_half_even_nearest (Q_of_float q * 100)) as (L & U & T).
    split; [reflexivity |]. split; [lra |]. split; [lra |].
    intros [E | E]; apply T; [left | right]; lra. }
  destruct (weighted_average l) as [s | s | | s m e];
    [exact (R (S754_zero s)) | reflexivity | reflexivity
    | exact (R (S754_finite s m e))].
Qed.

(** The example of the specification. *)
Lemma predictRatingRules_weighted_average_witness :
  let l := [(rule_with (8 # 10), 4%Q); (rule_with (5 # 10), 3%Q)] in
  l <> [] /\ fltb fzero (float_sum (confidences l)) = true /\
  exists k : Z,
    predictRatingRules l = PyFloat (Qred (k # 100)) /\
    (- (1 # 2) <= inject_Z k - 100 * Q_of_float (weighted_average l))%Q /\
    (inject_Z k - 100 * Q_of_float (weighted_average l) <= 1 # 2)%Q /\
    ((inject_Z k - 100 * Q_of_float (weighted_average l) == 1 # 2)%Q \/
     (inject_Z k - 100 * Q_of_float (weighted_average l) == - (1 # 2))%Q ->
     Z.even k = true).
Proof.
  intros l.
  assert (H1 : l <> []) by discriminate.
  assert (H2 : fltb fzero (float_sum (confidences l)) = true)
    by (vm_compute; reflexivity).
  split; [exact H1 | split; [exact H2 |]].
  exact (proj1 predictRatingRules_weighted_average l H1 H2).
Defined.

(** The quotient that is rounded is the one of the floats.  With two
    rules of one rating, the float next below 2.675, the average of the
    ratings is that rating, which rounds to 2.67; the quotient of the
    sums is the float next above it, and the prediction is 2.68. *)
Lemma predictRatingRules_rounds_the_float_quotient :
  let rating := b64 6023564501608038 (-51) in
  let l := [(rule_with (1 # 100), rating); (rule_with (2 # 100), rating)] in
  float_of_Q (2675 # 1000) = S754_finite false 6023564501608038 (-51) /\
  round_float2 (float_of_Q rating) = PyFloat (267 # 100) /\
  weighted_average l = S754_finite false 6023564501608039 (-51) /\
  (num_val (predictRatingRules l) == 268 # 100)%Q.
Proof. vm_compute. repeat split; reflexivity. Qed.

(** C6: on a list whose confidences sum to zero, and on the empty list
    among them, [predictRatingRules] returns the integer 0 and nothing
    else: it takes no baseline and falls back to none.  The sum is the
    one the code tests, of floats; for confidences that are not
    negative it is zero whenever the confidences add up to zero as
    numbers. *)
Theorem predictRatingRules_no_signal :
  (forall l : list (Rule * Q),
     feqb (float_sum (confidences l)) fzero = true -> predictRatingRules l = PyInt 0) /\
  (forall l : list (Rule * Q),
     (forall r, In r l -> (0 <= confidence (fst r))%Q) ->
     (confidence_sum l == 0)%Q -> predictRatingRules l = PyInt 0) /\
  predictRatingRules [] = PyInt 0.
Proof.
  split; [| split; [| reflexivity]].
  - intros l H. rewrite predictRatingRules_sums, H. reflexivity.
  - intros l Hn H. rewrite predictRatingRules_sums.
    rewrite (float_sum_no_confidence l Hn H). reflexivity.
Qed.

(** Two rules without confidence. *)
Lemma predictRatingRules_no_signal_witness :
  let l := [(rule_with 0, 4%Q); (rule_with 0, 5 # 2)] in
  feqb (float_sum (confidences l)) fzero = true /\
  (forall r, In r l -> (0 <= confidence (fst r))%Q) /\
  (confidence_sum l == 0)%Q /\ predictRatingRules l = PyInt 0.
Proof.
  intros l.
  assert (H1 : feqb (float_sum (confidences l)) fzero = true) by reflexivity.
  assert (H2 : forall r, In r l -> (0 <= confidence (fst r))%Q)
    by (intros r [<- | [<- | []]]; discriminate).
  assert (H3 : (confidence_sum l == 0)%Q) by reflexivity.
  split; [exact H1 | split; [exact H2 | split; [exact H3 |]]].
  exact (proj1 (proj2 predictRatingRules_no_signal) l H2 H3).
Defined.

(** Confidences of both signs can add up to zero as numbers and not as
    floats: 2^53 + 1 is rounded to 2^53, and the sum that line 283 tests
    is -1. *)
Lemma predictRatingRules_mixed_signs :
  let l := [(rule_with (inject_Z (2 ^ 53)), 1%Q); (rule_with 1, 1%Q);
            (rule_with (inject_Z (- 2 ^ 53)), 1%Q); (rule_with (- (1)), 1%Q)] in
  (confidence_sum l == 0)%Q /\
  float_sum (confidences l) = S754_finite true 4503599627370496 (-52) /\
  predictRatingRules l = PyFloat 1.
Proof. vm_compute. repeat split; reflexivity. Qed.

(** ** The refiner's short cuts *)

(** C1: for a user whom no row of the dataset carries, [filterRules]
    returns exactly the baseline it was given, whatever the rules and
    the cluster are: no rule is looked at. *)
Theorem filterRules_cold_user (B : Type) (userId movieId : Z) (df : DataFrame)
    (cluster : nat) (cluster_mean_ratings : B) (rules : list (list (list Rule)))
    (users : list value) :
  get_column "userId" df = Return users ->
  has_column "movieId" df = true ->
  (forall v, In v users -> val_eqb v (VInt userId) = false) ->
  filterRules userId movieId df cluster cluster_mean_ratings rules
  = Return (ColdUser cluster_mean_ratings).
Proof.
  intros Hu Hm Hnone. unfold filterRules, rows_where. rewrite Hu. simpl.
  destruct (has_column_get_column _ _ Hm) as [ms Hms].
  rewrite get_column_select_rows, Hms. simpl.
  rewrite (select_none (fun x => val_eqb x (VInt userId)) users ms Hnone). simpl.
  rewrite (df_empty_select_none (fun x => val_eqb x (VInt userId)) users df Hnone).
  reflexivity.
Qed.

(** C4: where the dataset holds the one row in which the user rates the
    movie, with rating [R], [filterRules] returns exactly [R], whatever
    the rules, the cluster and the baseline are. *)
Theorem filterRules_already_rated (B : Type) (userId movieId : Z) (df : DataFrame)
    (cluster : nat) (cluster_mean_ratings : B) (rules : list (list (list Rule)))
    (i : nat) (R : value) :
  carries "userId" (VInt userId) i df = true ->
  carries "movieId" (VInt movieId) i df = true ->
  cell "rating" i df = Some R ->
  (forall j, carries "userId" (VInt userId) j df = true ->
             carries "movieId" (VInt movieId) j df = true -> j = i) ->
  filterRules userId movieId df cluster cluster_mean_ratings rules
  = Return (AlreadyRated R).
Proof.
  intros Hu Hm Hr Huniq.
  destruct (carries_column _ _ _ _ Hu) as (us & u & Hus & Hui & Huv).
  destruct (carries_column _ _ _ _ Hm) as (ms & m & Hms & Hmi & Hmv).
  destruct (cell_column _ _ _ _ Hr) as (rs & Hrs & Hri).
  assert (Hone : forall j u' m', nth_error us j = Some u' -> nth_error ms j = Some m' ->
            val_eqb u' (VInt userId) = true -> val_eqb m' (VInt movieId) = true ->
            j = i).
  { intros j u' m' H1 H2 H3 H4. apply Huniq; unfold carries, cell.
    - rewrite Hus, H1. exact H3.
    - rewrite Hms, H2. exact H4. }
  destruct (select_twice_head (fun x => val_eqb x (VInt userId))
              (fun x => val_eqb x (VInt movieId)) i us ms rs u m R
              Hui Hmi Hri Huv Hmv Hone) as [Hex Hhd].
  unfold filterRules, rows_where. rewrite Hus. simpl.
  rewrite get_column_select_rows, Hms. simpl. rewrite Hex.
  rewrite !get_column_select_rows, Hrs. simpl.
  unfold index. rewrite Hhd. reflexivity.
Qed.

(** ** Computations on the store *)

Lemma wp_bind {A B} (m : M A) (k : A -> M B) Inv Post h :
  wp m Inv (fun a h1 => wp (k a) Inv Post h1) h -> wp (bind m k) Inv Post h.
Proof. unfold wp, bind. destruct (m h) as [[e | a] h1]; auto. Qed.

Lemma wp_run {A} (m : M A) Inv Post h r h' :
  wp m Inv Post h -> m h = (r, h') ->
  match r with Raise _ => Inv h' | Return a => Post a h' end.
Proof. unfold wp. intros H E. rewrite E in H. exact H. Qed.

Lemma wp_ret {A} (a : A) Inv (Post : A -> heap -> Prop) h :
  Post a h -> wp (ret a) Inv Post h.
Proof. auto. Qed.

Lemma wp_lift {A} (x : result A) Inv (Post : A -> heap -> Prop) h :
  match x with Raise _ => Inv h | Return a => Post a h end ->
  wp (lift x) Inv Post h.
Proof. unfold wp, lift. destruct x; auto. Qed.

Lemma wp_deref (l : loc) Inv (Post : DataFrame -> heap -> Prop) h :
  match h !! l with Some df => Post df h | None => Inv h end ->
  wp (deref l) Inv Post h.
Proof. unfold wp, deref. destruct (h !! l); auto. Qed.

Lemma wp_alloc (df : DataFrame) Inv (Post : loc -> heap -> Prop) h :
  Post (length h) (h ++ [df])%list -> wp (alloc df) Inv Post h.
Proof. auto. Qed.

Lemma wp_setitem (l : loc) (label : string) (vals : list value) Inv
    (Post : unit -> heap -> Prop) h :
  Inv h ->
  (forall df df', h !! l = Some df -> set_column label vals df = Return df' ->
                  Post tt (<[l := df']> h)) ->
  wp (setitem l label vals) Inv Post h.
Proof.
  intros Hi Hp. unfold wp, setitem, bind, deref, lift, assign.
  destruct (h !! l) as [df |] eqn:E; [| exact Hi].
  destruct (set_column label vals df) as [e | df'] eqn:E'; [exact Hi |].
  apply (Hp df df'); [reflexivity | exact E'].
Qed.

(** ** Columns set in place *)

Lemma set_column_replace (label : string) (vals : list value) (df df' : DataFrame) :
  set_column label vals df = Return df' -> df' = replace_column label vals df.
Proof.
  unfold set_column. destruct df as [| c df]; [intros [= <-]; reflexivity |].
  destruct (Nat.eqb _ _); [intros [= <-]; reflexivity | discriminate].
Qed.

Lemma set_column_length (label : string) (vals : list value) (df df' : DataFrame) :
  df <> [] -> set_column label vals df = Return df' -> length vals = nrows df.
Proof.
  unfold set_column. destruct df as [| c df]; [congruence |]. intros _.
  destruct (Nat.eqb _ _) eqn:E; [| discriminate].
  intros _. apply Nat.eqb_eq. exact E.
Qed.

Lemma replace_column_nonempty (label : string) (vals : list value) (df : DataFrame) :
  replace_column label vals df <> [].
Proof. destruct df as [| c df]; simpl; [| destruct (String.eqb _ _)]; discriminate. Qed.

Lemma replace_column_nrows (label : string) (vals : list value) (df : DataFrame) :
  df <> [] -> length vals = nrows df ->
  nrows (replace_column label vals df) = nrows df.
Proof.
  destruct df as [| c df]; [congruence |]. intros _ H. simpl.
  destruct (String.eqb _ _); simpl; [exact H | reflexivity].
Qed.

Lemma replace_column_Forall (P : string * list value -> Prop) (label : string)
    (vals : list value) (df : DataFrame) :
  P (label, vals) -> Forall P df -> Forall P (replace_column label vals df).
Proof.
  intros Hn. induction 1 as [| c df Hc Hdf IH]; simpl.
  - constructor; [exact Hn | constructor].
  - destruct (String.eqb _ _); constructor; assumption.
Qed.

Lemma set_column_keeps (label : string) (vals : list value) (df df' : DataFrame) :
  df <> [] -> set_column label vals df = Return df' ->
  df' <> [] /\ nrows df' = nrows df /\ (rectangular df -> rectangular df').
Proof.
  intros Hne Hs. pose proof (set_column_length _ _ _ _ Hne Hs) as Hlen.
  apply set_column_replace in Hs. subst df'.
  split; [apply replace_column_nonempty |].
  split; [apply replace_column_nrows; assumption |].
  unfold rectangular. rewrite (replace_column_nrows label vals df Hne Hlen).
  apply replace_column_Forall. exact Hlen.
Qed.

Lemma get_column_replace_eq (label : string) (vals : list value) (df : DataFrame) :
  get_column label (replace_column label vals df) = Return vals.
Proof.
  induction df as [| c df IH]; simpl.
  - rewrite String.eqb_refl. reflexivity.
  - destruct (String.eqb label (fst c)) eqn:E; simpl.
    + rewrite String.eqb_refl. reflexivity.
    + rewrite E. exact IH.
Qed.

Lemma get_column_replace_ne (label label' : string) (vals : list value)
    (df : DataFrame) :
  label <> label' ->
  get_column label' (replace_column label vals df) = get_column label' df.
Proof.
  intros Hne. apply String.eqb_neq in Hne.
  induction df as [| c df IH]; simpl.
  - rewrite String.eqb_sym, Hne. reflexivity.
  - destruct (String.eqb label (fst c)) eqn:E; simpl.
    + apply String.eqb_eq in E. rewrite <- E.
      rewrite String.eqb_sym, Hne. reflexivity.
    + destruct (String.eqb label' (fst c)); [reflexivity | exact IH].
Qed.

Lemma occurrences_replace_ne (label label' : string) (vals : list value)
    (df : DataFrame) :
  label <> label' ->
  occurrences label' (replace_column label vals df) = occurrences label' df.
Proof.
  intros Hne. apply String.eqb_neq in Hne. unfold occurrences, columns.
  induction df as [| c df IH]; simpl.
  - rewrite String.eqb_sym, Hne. reflexivity.
  - destruct (String.eqb label (fst c)) eqn:E; simpl.
    + apply String.eqb_eq in E. rewrite <- E. reflexivity.
    + destruct (String.eqb label' (fst c)); simpl; rewrite IH; reflexivity.
Qed.

Lemma occurrences_replace_new (label : string) (vals : list value) (df : DataFrame) :
  occurrences label df = 0%nat ->
  occurrences label (replace_column label vals df) = 1%nat.
Proof.
  unfold occurrences, columns. induction df as [| c df IH]; simpl.
  - rewrite String.eqb_refl. reflexivity.
  - destruct (String.eqb label (fst c)) eqn:E; simpl; [discriminate |].
    rewrite E. exact IH.
Qed.

Lemma has_column_occurrences (label : string) (df : DataFrame) :
  has_column label df = false -> occurrences label df = 0%nat.
Proof.
  unfold has_column, occurrences, columns. induction df as [| c df IH]; simpl;
    [reflexivity |].
  destruct (String.eqb label (fst c)); simpl; [discriminate | exact IH].
Qed.

Lemma drop_columns_filter (labels : list string) (df df' : DataFrame) :
  drop_columns labels df = Return df' ->
  df' = List.filter (fun c => negb (existsb (String.eqb (fst c)) labels)) df.
Proof.
  unfold drop_columns. destruct (List.find _ labels); [discriminate |].
  intros [= <-]. reflexivity.
Qed.

Lemma occurrences_drop (label : string) (df df' : DataFrame) :
  drop_columns [label] df = Return df' -> occurrences label df' = 0%nat.
Proof.
  intros H. apply drop_columns_filter in H. subst df'.
  unfold occurrences, columns. induction df as [| c df IH]; simpl; [reflexivity |].
  rewrite orb_false_r. destruct (String.eqb (fst c) label) eqn:E; simpl; [exact IH |].
  rewrite String.eqb_sym, E. exact IH.
Qed.

Lemma drop_columns_nrows (labels : list string) (df df' : DataFrame) :
  rectangular df -> drop_columns labels df = Return df' ->
  (nrows df' <= nrows df)%nat.
Proof.
  intros Hr H. apply drop_columns_filter in H. subst df'.
  unfold rectangular in Hr. revert Hr. generalize (nrows df) as n.
  induction df as [| c df IH]; intros n Hr; simpl; [lia |].
  inversion Hr as [| ? ? Hc Hdf]; subst.
  destruct (negb _); simpl; [lia | apply IH; exact Hdf].
Qed.

Lemma drop_columns_nonempty (labels : list string) (l : string) (df df' : DataFrame) :
  drop_columns (l :: labels) df = Return df' -> df <> [].
Proof. intros H ->. discriminate. Qed.

(** ** What a fold leaves alone *)

Lemma grows_refl (h : heap) : grows h h.
Proof.
  split; [lia |]. intros l df Hl Hne. exists df. repeat split; auto.
Qed.

Lemma grows_trans (h1 h2 h3 : heap) : grows h1 h2 -> grows h2 h3 -> grows h1 h3.
Proof.
  intros [L12 G12] [L23 G23]. split; [lia |].
  intros l df Hl Hne.
  destruct (G12 l df Hl Hne) as (df2 & Hl2 & Hne2 & Hn2 & Hr2).
  destruct (G23 l df2 Hl2 Hne2) as (df3 & Hl3 & Hne3 & Hn3 & Hr3).
  exists df3. repeat split; auto. congruence.
Qed.

Lemma grows_insert (h : heap) (l : loc) (label : string) (vals : list value)
    (df df' : DataFrame) :
  h !! l = Some df -> set_column label vals df = Return df' ->
  grows h (<[l := df']> h).
Proof.
  intros Hl Hs. split; [rewrite length_insert; lia |].
  intros l0 df0 Hl0 Hne. destruct (decide (l0 = l)) as [-> | Hd].
  - assert (df0 = df) by congruence. subst df0.
    destruct (set_column_keeps _ _ _ _ Hne Hs) as (H1 & H2 & H3).
    exists df'. split; [| auto].
    apply list_lookup_insert_eq. eapply lookup_lt_Some. exact Hl.
  - exists df0. rewrite list_lookup_insert_ne by congruence. auto.
Qed.

Lemma grows_app (h : heap) (df : DataFrame) : grows h (h ++ [df]).
Proof.
  split; [rewrite length_app; lia |].
  intros l df0 Hl Hne. exists df0. split; [| auto].
  rewrite lookup_app_l; [exact Hl | eapply lookup_lt_Some; exact Hl].
Qed.

Lemma untouched_refl (P : loc -> Prop) (h : heap) : untouched P h h.
Proof. intros l _. reflexivity. Qed.

Lemma untouched_trans (P : loc -> Prop) (h1 h2 h3 : heap) :
  untouched P h1 h2 -> untouched P h2 h3 -> untouched P h1 h3.
Proof. intros H12 H23 l Hl. rewrite (H23 l Hl). apply H12. exact Hl. Qed.

Lemma untouched_insert (P : loc -> Prop) (h : heap) (l : loc) (df : DataFrame) :
  ~ P l -> untouched P h (<[l := df]> h).
Proof.
  intros Hn l0 Hl0. apply list_lookup_insert_ne. intros ->. exact (Hn Hl0).
Qed.

Lemma untouched_app (P : loc -> Prop) (h : heap) (df : DataFrame) :
  (forall l, P l -> (l < length h)%nat) -> untouched P h (h ++ [df]).
Proof. intros Hb l Hl. apply lookup_app_l. exact (Hb l Hl). Qed.

Lemma fold_inv_refl h tr te : fold_inv h tr te h.
Proof. split; [apply grows_refl | apply untouched_refl]. Qed.

Lemma fold_inv_insert h tr te h1 l label vals df df' :
  fold_inv h tr te h1 -> h1 !! l = Some df ->
  set_column label vals df = Return df' -> ~ kept h tr te l ->
  fold_inv h tr te (<[l := df']> h1).
Proof.
  intros [G U] Hl Hs Hn. split.
  - eapply grows_trans; [exact G | eapply grows_insert; eassumption].
  - eapply untouched_trans; [exact U | apply untouched_insert; exact Hn].
Qed.

Lemma fold_inv_app h tr te h1 df :
  fold_inv h tr te h1 -> fold_inv h tr te (h1 ++ [df]).
Proof.
  intros [G U]. split.
  - eapply grows_trans; [exact G | apply grows_app].
  - eapply untouched_trans; [exact U |]. apply untouched_app.
    intros l (Hl & _). destruct G as [Hlen _]. lia.
Qed.

Lemma fresh_not_kept h tr te h1 :
  fold_inv h tr te h1 -> ~ kept h tr te (length h1).
Proof. intros [[Hlen _] _] (Hl & _). lia. Qed.

Lemma train_not_kept h tr te : ~ kept h tr te tr.
Proof. intros (_ & Hne & _). congruence. Qed.

Lemma test_not_kept h tr te h1 test :
  fold_inv h tr te h1 -> h1 !! te = Some test ->
  has_column "predicted_rating" test = false -> ~ kept h tr te te.
Proof.
  intros [_ U] Hte Hno Hk. pose proof (U te Hk) as E.
  destruct Hk as (_ & _ & Hs). destruct (Hs eq_refl) as (df & Hdf & Hhas).
  congruence.
Qed.

(** ** Group means *)

Lemma insert_key_In (k x : Z) (ks : list Z) :
  In x (insert_key k ks) -> x = k \/ In x ks.
Proof.
  induction ks as [| k' ks IH]; simpl.
  - intros [<- | []]. left. reflexivity.
  - destruct (k <? k')%Z; [simpl; intuition congruence |].
    destruct (k =? k')%Z; [simpl; intuition |].
    simpl. intros [<- | H]; [right; left; reflexivity |].
    destruct (IH H) as [-> | H']; [left; reflexivity | right; right; exact H'].
Qed.

Lemma group_keys_In (k : Z) (labels : list (option Z)) :
  In k (group_keys labels) -> In (Some k) labels.
Proof.
  induction labels as [| l labels IH]; simpl; [tauto |].
  destruct l as [k' |]; [| intros H; right; exact (IH H)].
  intros H. destruct (insert_key_In _ _ _ H) as [-> | H'];
    [left; reflexivity | right; exact (IH H')].
Qed.

Lemma as_label_In (k : Z) (cells : list value) :
  forall labels, mapR as_label cells = Return labels ->
                 In (Some k) labels -> In (VInt k) cells.
Proof.
  induction cells as [| c cells IH]; simpl; intros labels.
  - intros [= <-] [].
  - destruct (as_label c) as [e | l] eqn:El; simpl; [discriminate |].
    destruct (mapR as_label cells) as [e | ls]; simpl; [discriminate |].
    intros [= <-] [-> | H].
    + left. destruct c; simpl in El; congruence.
    + right. exact (IH ls eq_refl H).
Qed.

Lemma series_lookup_absent {A} (f : Z -> A) (g : A -> value) (k : Z) (ks : list Z) :
  ~ In k ks -> series_lookup (map (fun x => (x, g (f x))) ks) k = None.
Proof.
  induction ks as [| k' ks IH]; simpl; [reflexivity |].
  intros H. destruct (Z.eqb_spec k' k) as [-> | Hne]; [exfalso; apply H; left; reflexivity |].
  apply IH. intros Hin. apply H. right. exact Hin.
Qed.

(** A cluster without a member has no entry in the baseline table. *)
Lemma groupby_mean_absent (df : DataFrame) (table : Series) (members : list value)
    (k : Z) :
  groupby_mean "cluster" "rating" df = Return table ->
  get_column "cluster" df = Return members ->
  ~ In (VInt k) members ->
  series_lookup table k = None.
Proof.
  unfold groupby_mean. intros Hg Hc Hk. rewrite Hc in Hg. simpl in Hg.
  destruct (get_column "rating" df) as [e | vals]; simpl in Hg; [discriminate |].
  destruct (mapR as_label members) as [e | labels] eqn:El; simpl in Hg;
    [discriminate |].
  destruct (mapR as_number vals) as [e | xs]; simpl in Hg; [discriminate |].
  injection Hg as <-.
  apply (series_lookup_absent
           (fun x => select (map (is_label x) labels) xs) mean_of).
  intros Hin. apply Hk. eapply as_label_In; [exact El |].
  apply group_keys_In. exact Hin.
Qed.

Lemma groupby_mean_members (df : DataFrame) (table : Series) :
  groupby_mean "cluster" "rating" df = Return table ->
  exists members, get_column "cluster" df = Return members.
Proof.
  unfold groupby_mean. destruct (get_column "cluster" df) as [e | members];
    [discriminate | eauto].
Qed.

Ltac wp_pure I :=
  apply wp_bind; first [apply wp_lift | apply wp_deref];
  match goal with
  | |- match ?x with _ => _ end => destruct x eqn:?; try exact I
  end.

Ltac wp_write I J Hnk :=
  apply wp_bind, wp_setitem;
  [exact I
  | let df := fresh "df" in
    let df' := fresh "df'" in
    let Hl := fresh "Hl" in
    let Hs := fresh "Hs" in
    intros df df' Hl Hs;
    assert (J := fold_inv_insert _ _ _ _ _ _ _ _ _ I Hl Hs Hnk)].

Section Sweep.
Context {K : Clusterer}.

(** Whatever its outcome, one fold leaves alone every frame but its
    train frame and a test frame without a prediction column. *)
Lemma fit_predict_frame (n : nat) (tr te : loc) (h : heap) :
  wp (fit_predict n tr te) (fold_inv h tr te) (fun _ h' => fold_inv h tr te h') h.
Proof.
  pose proof (fold_inv_refl h tr te) as I0.
  pose proof (train_not_kept h tr te) as Ntr.
  unfold fit_predict.
  do 6 wp_pure I0.
  wp_write I0 I1 Ntr.
  wp_pure I1.
  apply wp_bind.
  match goal with |- context [has_column ?l ?d] => destruct (has_column l d) eqn:Hst end.
  - apply wp_bind, wp_lift.
    match goal with
    | |- match ?x with _ => _ end => destruct x eqn:?; [exact I1 |]
    end.
    apply wp_alloc.
    match goal with
    | |- context [(_ ++ [?x])%list] => pose proof (fold_inv_app _ _ _ _ x I1) as I2
    end.
    pose proof (fresh_not_kept _ _ _ _ I1) as Nte.
    wp_pure I2.
    wp_write I2 I3 Nte.
    do 4 wp_pure I3.
    wp_write I3 I4 Nte.
    apply wp_ret. exact I4.
  - apply wp_ret.
    assert (Nte : ~ kept h tr te te) by (eapply test_not_kept; eauto).
    wp_pure I1.
    wp_write I1 I3 Nte.
    do 4 wp_pure I3.
    wp_write I3 I4 Nte.
    apply wp_ret. exact I4.
Qed.

Lemma wp_conseq {A} (m : M A) (Inv Inv' : heap -> Prop)
    (Post Post' : A -> heap -> Prop) (h : heap) :
  wp m Inv Post h -> (forall h', Inv h' -> Inv' h') ->
  (forall a h', Post a h' -> Post' a h') -> wp m Inv' Post' h.
Proof. unfold wp. destruct (m h) as [[e | a] h']; auto. Qed.

Lemma fold_inv_sweep (h : heap) (trains tests : list loc) (tr te : loc) (h' : heap) :
  In tr trains -> In te tests -> fold_inv h tr te h' -> sweep_inv h trains tests h'.
Proof.
  intros Htr Hte [G U]. split; [exact G |].
  intros l (Hl & Hn & Hs). apply U. split; [exact Hl |]. split.
  - intros ->. exact (Hn Htr).
  - intros ->. exact (Hs Hte).
Qed.

Lemma sweep_inv_refl (h : heap) (trains tests : list loc) : sweep_inv h trains tests h.
Proof. split; [apply grows_refl | apply untouched_refl]. Qed.

Lemma sweep_inv_trans (h0 h1 h2 : heap) (trains tests : list loc) :
  sweep_inv h0 trains tests h1 -> sweep_inv h1 trains tests h2 ->
  sweep_inv h0 trains tests h2.
Proof.
  intros [G1 U1] [G2 U2]. split; [eapply grows_trans; eassumption |].
  intros l Hl. rewrite <- (U1 l Hl). apply U2.
  destruct Hl as (Hlt & Hn & Hs). destruct G1 as [Hlen _].
  split; [lia |]. split; [exact Hn |].
  intros Hin. destruct (Hs Hin) as (df & Hdf & Hhas).
  exists df. split; [| exact Hhas].
  rewrite (U1 l (conj Hlt (conj Hn Hs))). exact Hdf.
Qed.

Lemma index_In {A} (l : list A) (i : nat) (a : A) : index l i = Return a -> In a l.
Proof.
  unfold index. destruct (nth_error l i) eqn:E; [| discriminate].
  intros [= <-]. eapply nth_error_In. exact E.
Qed.

Lemma fold_body_frame (n : nat) (trains tests : list loc) (acc : sweep) (i : nat)
    (h : heap) :
  wp (fold_body n trains tests acc i) (sweep_inv h trains tests)
     (fun _ h' => sweep_inv h trains tests h') h.
Proof.
  pose proof (sweep_inv_refl h trains tests) as I0.
  unfold fold_body. destruct acc as [[mse_list models] train_dfs].
  do 2 wp_pure I0.
  match goal with
  | H1 : index trains i = Return ?tr, H2 : index tests i = Return ?te |- _ =>
      apply index_In in H1; apply index_In in H2;
      apply wp_bind;
      apply (wp_conseq _ _ _ _ _ _ (fit_predict_frame n tr te h));
      [intros h' Hh'; eapply fold_inv_sweep; eassumption |]
  end.
  intros [[kmeans y_test] te'] h' Hh'.
  eapply fold_inv_sweep in Hh'; [| eassumption | eassumption].
  do 3 wp_pure Hh'.
Qed.

Lemma foldM_frame (n : nat) (trains tests : list loc) (h0 : heap) :
  forall (idx : list nat) (acc : sweep) (h : heap),
    sweep_inv h0 trains tests h ->
    wp (foldM (fold_body n trains tests) acc idx) (sweep_inv h0 trains tests)
       (fun _ h' => sweep_inv h0 trains tests h') h.
Proof.
  induction idx as [| i idx IH]; intros acc h Hh; simpl.
  - apply wp_ret. exact Hh.
  - apply wp_bind.
    apply (wp_conseq _ _ _ _ _ _ (fold_body_frame n trains tests acc i h)).
    + intros h' Hh'. eapply sweep_inv_trans; eassumption.
    + intros acc' h' Hh'. apply IH. eapply sweep_inv_trans; eassumption.
Qed.

(** Whatever its outcome, the sweep leaves alone every frame of the
    caller but the train frames and the test frames without a prediction
    column. *)
Lemma train_kmeans_and_predict_frame (trains tests : list loc) (n : nat)
    (h : heap) (r : result sweep) (h' : heap) :
  train_kmeans_and_predict trains tests n h = (r, h') ->
  sweep_inv h trains tests h'.
Proof.
  intros E.
  pose proof (foldM_frame n trains tests h (seq 0 (length trains)) ([], [], []) h
                (sweep_inv_refl h trains tests)) as W.
  pose proof (wp_run _ _ _ _ _ _ W E) as R. destruct r; exact R.
Qed.

Lemma has_column_replace_ne (label label' : string) (vals : list value)
    (df : DataFrame) :
  label <> label' ->
  has_column label' (replace_column label vals df) = has_column label' df.
Proof.
  intros Hne. apply String.eqb_neq in Hne. unfold has_column, columns.
  induction df as [| c df IH]; simpl.
  - rewrite String.eqb_sym, Hne. reflexivity.
  - destruct (String.eqb label (fst c)) eqn:E; simpl.
    + apply String.eqb_eq in E. rewrite <- E. reflexivity.
    + rewrite IH. reflexivity.
Qed.

Lemma groupby_mean_replace (by_ col label : string) (vals : list value)
    (df : DataFrame) :
  label <> by_ -> label <> col ->
  groupby_mean by_ col (replace_column label vals df) = groupby_mean by_ col df.
Proof.
  intros H1 H2. unfold groupby_mean.
  rewrite !get_column_replace_ne by assumption. reflexivity.
Qed.

(** Lines 125-128, once the frame [te'] to predict into is fixed. *)
Lemma predicted_frame (h2 : heap) (tr te' : loc) (clusters : list Z)
    (df3 df4 d2 d3 df5 df6 : DataFrame) (table : Series) (assigned : list value) :
  h2 !! te' = Some df3 ->
  occurrences "predicted_rating" df3 = 0%nat ->
  set_column "cluster" (map VInt clusters) df3 = Return df4 ->
  <[te' := df4]> h2 !! tr = Some d2 ->
  groupby_mean "cluster" "rating" d2 = Return table ->
  <[te' := df4]> h2 !! te' = Some d3 ->
  get_column "cluster" d3 = Return assigned ->
  <[te' := df4]> h2 !! te' = Some df5 ->
  set_column "predicted_rating" (map (series_map table) assigned) df5 = Return df6 ->
  (te' <> tr -> <[te' := df6]> (<[te' := df4]> h2) !! tr = h2 !! tr) /\
  exists train_final test',
    <[te' := df6]> (<[te' := df4]> h2) !! tr = Some train_final /\
    groupby_mean "cluster" "rating" train_final = Return table /\
    <[te' := df6]> (<[te' := df4]> h2) !! te' = Some test' /\
    get_column "cluster" test' = Return assigned /\
    get_column "predicted_rating" test' = Return (map (series_map table) assigned) /\
    occurrences "predicted_rating" test' = 1%nat.
Proof.
  intros Hl3 Hocc Hs3 Htr Hg Hd3 Hc Hl5 Hs5.
  pose proof (lookup_lt_Some _ _ _ Hl3) as Hlt.
  rewrite list_lookup_insert_eq in Hd3, Hl5 by exact Hlt.
  injection Hd3 as <-. injection Hl5 as <-.
  apply set_column_replace in Hs3, Hs5. subst df6.
  split.
  { intros Hne. rewrite !list_lookup_insert_ne by exact Hne. reflexivity. }
  assert (Hfin : <[te' := replace_column "predicted_rating"
                            (map (series_map table) assigned) df4]>
                   (<[te' := df4]> h2) !! te'
                 = Some (replace_column "predicted_rating"
                           (map (series_map table) assigned) df4)).
  { apply list_lookup_insert_eq. rewrite length_insert. exact Hlt. }
  assert (Hgr : groupby_mean "cluster" "rating"
                  (replace_column "predicted_rating"
                     (map (series_map table) assigned) df4)
                = groupby_mean "cluster" "rating" df4).
  { apply groupby_mean_replace; discriminate. }
  destruct (decide (te' = tr)) as [E | Hne].
  - subst tr. rewrite list_lookup_insert_eq in Htr by exact Hlt.
    injection Htr as <-.
    eexists _, _. split; [exact Hfin |]. split; [rewrite Hgr; exact Hg |].
    split; [exact Hfin |].
    split; [rewrite get_column_replace_ne by discriminate; exact Hc |].
    split; [apply get_column_replace_eq |].
    apply occurrences_replace_new. subst df4.
    rewrite occurrences_replace_ne by discriminate. exact Hocc.
  - eexists d2, _. split; [rewrite list_lookup_insert_ne by exact Hne; exact Htr |].
    split; [exact Hg |].
    split; [exact Hfin |].
    split; [rewrite get_column_replace_ne by discriminate; exact Hc |].
    split; [apply get_column_replace_eq |].
    apply occurrences_replace_new. subst df4.
    rewrite occurrences_replace_ne by discriminate. exact Hocc.
Qed.

Ltac wp_name I H :=
  apply wp_bind; first [apply wp_lift | apply wp_deref];
  match goal with
  | |- match ?x with _ => _ end => destruct x eqn:H; try exact I
  end.

(** What holds of the store when one fold's fit and prediction return. *)
Lemma fit_predict_Return (n : nat) (tr te : loc) (h : heap) :
  wp (fit_predict n tr te) (fun _ => True)
     (fun fitted h' =>
        let '(kmeans, y_test, te') := fitted in
        exists train test X X_test,
          h !! tr = Some train /\ h !! te = Some test /\
          drop_columns id_columns train = Return X /\
          drop_columns id_columns test = Return X_test /\
          KMeans_fit n X = Return kmeans /\
          get_column "rating" test = Return y_test /\
          (te' = te \/ (length h <= te')%nat) /\
          (stale h te -> (length h <= te')%nat) /\
          (~ stale h te -> te' = te) /\
          (te' <> tr ->
             exists train', set_column "cluster" (map VInt (labels_ kmeans)) train
                            = Return train' /\ h' !! tr = Some train') /\
          exists train_final table test' assigned,
            h' !! tr = Some train_final /\
            groupby_mean "cluster" "rating" train_final = Return table /\
            h' !! te' = Some test' /\
            get_column "cluster" test' = Return assigned /\
            get_column "predicted_rating" test'
            = Return (map (series_map table) assigned) /\
            occurrences "predicted_rating" test' = 1%nat) h.
Proof.
  unfold fit_predict.
  wp_name Logic.I Htrain. wp_name Logic.I Htest.
  wp_name Logic.I HX. wp_name Logic.I HXt.
  wp_name Logic.I Hy. wp_name Logic.I Hfit.
  apply wp_bind, wp_setitem; [exact Logic.I | intros df train' Hl Hs].
  rewrite Htrain in Hl. injection Hl as <-.
  pose proof (lookup_lt_Some _ _ _ Htrain) as Htr_lt.
  assert (Htr1 : <[tr := train']> h !! tr = Some train')
    by (apply list_lookup_insert_eq; exact Htr_lt).
  wp_name Logic.I Htest2.
  apply wp_bind.
  match goal with |- context [has_column ?l ?d] => destruct (has_column l d) eqn:Hst end.
  - apply wp_bind, wp_lift.
    match goal with
    | |- match ?x with _ => _ end => destruct x eqn:Hdrop; [exact Logic.I |]
    end.
    apply wp_alloc.
    wp_name Logic.I Hpred.
    apply wp_bind, wp_setitem; [exact Logic.I | intros df3 df4 Hl3 Hs3].
    wp_name Logic.I Htr3. wp_name Logic.I Hgroup.
    wp_name Logic.I Hte3. wp_name Logic.I Hassigned.
    apply wp_bind, wp_setitem; [exact Logic.I | intros df5 df6 Hl5 Hs5].
    apply wp_ret.
    pose proof Hl3 as Hl3'.
    rewrite lookup_app_r in Hl3' by lia. rewrite Nat.sub_diag in Hl3'.
    injection Hl3' as <-.
    destruct (predicted_frame _ tr _ _ _ _ _ _ _ _ _ _ Hl3
                (occurrences_drop _ _ _ Hdrop) Hs3 Htr3 Hgroup Hte3 Hassigned
                Hl5 Hs5) as [Hkeep Hfin].
    rewrite length_insert in *.
    eexists _, _, _, _.
    split; [reflexivity |]. split; [reflexivity |]. split; [exact HX |].
    split; [exact HXt |]. split; [exact Hfit |]. split; [exact Hy |].
    split; [right; lia |]. split; [intros _; lia |].
    split.
    { intros Hns. exfalso. apply Hns.
      destruct (decide (te = tr)) as [E | Hne].
      - subst te. rewrite Htr1 in Htest2. injection Htest2 as <-.
        apply set_column_replace in Hs. subst train'.
        rewrite has_column_replace_ne in Hst by discriminate.
        eexists. split; [exact Htrain | exact Hst].
      - rewrite list_lookup_insert_ne in Htest2 by congruence.
        eexists. split; [exact Htest2 | exact Hst]. }
    split.
    { intros Hne. exists train'. split; [exact Hs |].
      rewrite (Hkeep Hne). rewrite lookup_app_l by (rewrite length_insert; lia).
      exact Htr1. }
    destruct Hfin as (tf & t' & Hfin). eexists tf, _, t', _. exact Hfin.
  - apply wp_ret.
    wp_name Logic.I Hpred.
    apply wp_bind, wp_setitem; [exact Logic.I | intros df3 df4 Hl3 Hs3].
    wp_name Logic.I Htr3. wp_name Logic.I Hgroup.
    wp_name Logic.I Hte3. wp_name Logic.I Hassigned.
    apply wp_bind, wp_setitem; [exact Logic.I | intros df5 df6 Hl5 Hs5].
    apply wp_ret.
    pose proof Hl3 as Hl3'. rewrite Htest2 in Hl3'. injection Hl3' as <-.
    destruct (predicted_frame _ tr _ _ _ _ _ _ _ _ _ _ Hl3
                (has_column_occurrences _ _ Hst) Hs3 Htr3 Hgroup Hte3 Hassigned
                Hl5 Hs5) as [Hkeep Hfin].
    eexists _, _, _, _.
    split; [reflexivity |]. split; [reflexivity |]. split; [exact HX |].
    split; [exact HXt |]. split; [exact Hfit |]. split; [exact Hy |].
    split; [left; reflexivity |].
    split.
    { intros (ds & Hds & Hhas). exfalso.
      destruct (decide (te = tr)) as [E | Hne].
      - subst te. rewrite Htr1 in Htest2. injection Htest2 as <-.
        apply set_column_replace in Hs. subst train'.
        rewrite has_column_replace_ne in Hst by discriminate. congruence.
      - rewrite list_lookup_insert_ne in Htest2 by congruence. congruence. }
    split; [intros _; reflexivity |].
    split.
    { intros Hne. exists train'. split; [exact Hs |].
      rewrite (Hkeep Hne). exact Htr1. }
    destruct Hfin as (tf & t' & Hfin). eexists tf, _, t', _. exact Hfin.
Qed.

(** ** Runs that return *)

Lemma bind_Return {A B} (m : M A) (k : A -> M B) (h : heap) (b : B) (h' : heap) :
  bind m k h = (Return b, h') ->
  exists a h1, m h = (Return a, h1) /\ k a h1 = (Return b, h').
Proof.
  unfold bind. destruct (m h) as [[e | a] h1]; [discriminate |]. eauto.
Qed.

Lemma fold_body_Return (n : nat) (trains tests : list loc) (acc acc' : sweep)
    (i : nat) (h h' : heap) :
  fold_body n trains tests acc i h = (Return acc', h') ->
  exists tr te kmeans y_test te' mse,
    index trains i = Return tr /\ index tests i = Return te /\
    fit_predict n tr te h = (Return (kmeans, y_test, te'), h') /\
    acc' = ((fst (fst acc) ++ [mse])%list, (snd (fst acc) ++ [kmeans])%list,
            (snd acc ++ [tr])%list).
Proof.
  unfold fold_body. destruct acc as [[mse_list models] train_dfs].
  unfold bind at 1, lift at 1.
  destruct (index trains i) as [e | tr]; [discriminate |].
  unfold bind at 1, lift at 1.
  destruct (index tests i) as [e | te]; [discriminate |].
  unfold bind at 1.
  destruct (fit_predict n tr te h) as [[e | [[kmeans y_test] te']] h1] eqn:Hfp;
    [discriminate |].
  unfold bind, lift, deref, ret.
  destruct (h1 !! te') as [test |]; [| discriminate].
  destruct (get_column "predicted_rating" test) as [e | predicted]; [discriminate |].
  destruct (mean_squared_error y_test predicted) as [e | mse]; [discriminate |].
  intros [= <- <-]. exists tr, te, kmeans, y_test, te', mse.
  split; [reflexivity |]. split; [reflexivity |]. split; [exact Hfp | reflexivity].
Qed.

Lemma fit_predict_facts (n : nat) (tr te : loc) (h h' : heap) (kmeans : model)
    (y_test : list value) (te' : loc) :
  fit_predict n tr te h = (Return (kmeans, y_test, te'), h') ->
  fold_inv h tr te h' /\
  exists train test X X_test,
    h !! tr = Some train /\ h !! te = Some test /\
    drop_columns id_columns train = Return X /\
    drop_columns id_columns test = Return X_test /\
    KMeans_fit n X = Return kmeans /\
    get_column "rating" test = Return y_test /\
    (te' = te \/ (length h <= te')%nat) /\
    (stale h te -> (length h <= te')%nat) /\
    (~ stale h te -> te' = te) /\
    (te' <> tr ->
       exists train', set_column "cluster" (map VInt (labels_ kmeans)) train
                      = Return train' /\ h' !! tr = Some train') /\
    exists train_final table test' assigned,
      h' !! tr = Some train_final /\
      groupby_mean "cluster" "rating" train_final = Return table /\
      h' !! te' = Some test' /\
      get_column "cluster" test' = Return assigned /\
      get_column "predicted_rating" test' = Return (map (series_map table) assigned) /\
      occurrences "predicted_rating" test' = 1%nat.
Proof.
  intros E. split.
  - exact (wp_run _ _ _ _ _ _ (fit_predict_frame n tr te h) E).
  - exact (wp_run _ _ _ _ _ _ (fit_predict_Return n tr te h) E).
Qed.

(** C2: a test row whose cluster has no training member is predicted
    [NaN] by a fold, and the single-query predictor returns its tuple
    with [None] for the rating: a marker in both places, and no
    exception in the second. *)
Theorem missing_baseline_is_marked :
  (forall (n : nat) (tr te : loc) (h h' : heap) (kmeans : model)
          (y_test : list value) (te' : loc),
     fit_predict n tr te h = (Return (kmeans, y_test, te'), h') ->
     exists train test members assigned predicted,
       h' !! tr = Some train /\ h' !! te' = Some test /\
       get_column "cluster" train = Return members /\
       get_column "cluster" test = Return assigned /\
       get_column "predicted_rating" test = Return predicted /\
       forall (j : nat) (k : Z),
         nth_error assigned j = Some (VInt k) -> ~ In (VInt k) members ->
         nth_error predicted j = Some VNaN) /\
  (forall (user_id movie_id : Z) (models : list model) (train_dfs : list DataFrame)
          (movie_data movie_rows movie_features train0 : DataFrame) (model0 : model)
          (predicted_cluster : list Z) (k : Z) (members : list value)
          (table : Series),
     rows_where "movieId" (VInt movie_id) movie_data = Return movie_rows ->
     drop_columns id_columns movie_rows = Return movie_features ->
     df_empty movie_features = false ->
     index models 0 = Return model0 ->
     predict model0 movie_features = Return predicted_cluster ->
     index predicted_cluster 0 = Return k ->
     index train_dfs 0 = Return train0 ->
     groupby_mean "cluster" "rating" train0 = Return table ->
     get_column "cluster" train0 = Return members ->
     ~ In (VInt k) members ->
     predict_rating_kmeans user_id movie_id models train_dfs movie_data
     = Return (Some (None, predicted_cluster, table))).
Proof.
  split.
  - intros n tr te h h' kmeans y_test te' E.
    destruct (fit_predict_facts _ _ _ _ _ _ _ _ E) as (_ & F).
    destruct F as (train & test & X & Xt & _ & _ & _ & _ & _ & _ & _ & _ & _ & _ & F).
    destruct F as (tf & table & test' & assigned & Htf & Hg & Ht & Hc & Hp & _).
    destruct (groupby_mean_members _ _ Hg) as [members Hm].
    exists tf, test', members, assigned, (map (series_map table) assigned).
    repeat (split; [assumption |]).
    intros j k Hj Hk. rewrite nth_error_map, Hj. simpl.
    rewrite (groupby_mean_absent _ _ _ _ Hg Hm Hk). reflexivity.
  - intros user_id movie_id models train_dfs movie_data movie_rows movie_features
           train0 model0 predicted_cluster k members table
           Hrows Hdrop Hne Hm Hp Hk Ht Hg Hc Hin.
    unfold predict_rating_kmeans.
    rewrite Hrows. simpl. rewrite Hdrop. simpl. rewrite Hne, Hm. simpl.
    rewrite Hp. simpl. rewrite Ht. simpl. rewrite Hg. simpl. rewrite Hk. simpl.
    unfold series_get. rewrite (groupby_mean_absent _ _ _ _ Hg Hc Hin). reflexivity.
Qed.

(** C10: [predict_rating_kmeans] returns the same for every user id. *)
Theorem predict_rating_kmeans_ignores_user (user_id user_id' movie_id : Z)
    (models : list model) (train_dfs : list DataFrame) (movie_data : DataFrame) :
  predict_rating_kmeans user_id movie_id models train_dfs movie_data
  = predict_rating_kmeans user_id' movie_id models train_dfs movie_data.
Proof. reflexivity. Qed.

Lemma index_lt {A} (l : list A) (i : nat) (a : A) :
  index l i = Return a -> nth_error l i = Some a.
Proof. unfold index. destruct (nth_error l i); [intros [= <-]; reflexivity | discriminate]. Qed.

Lemma index_seq {A} (l : list A) (i : nat) (a : A) :
  index l i = Return a -> In i (seq 0 (length l)).
Proof.
  intros H. apply index_lt in H. apply in_seq.
  assert (nth_error l i <> None) by congruence.
  apply nth_error_Some in H0. lia.
Qed.

(** ** A fold that cannot be fitted *)

Lemma foldM_small_fold (n : nat) (trains tests : list loc) (h0 : heap)
    (i0 : nat) (tr0 : loc) (df0 : DataFrame) :
  index trains i0 = Return tr0 -> h0 !! tr0 = Some df0 ->
  rectangular df0 -> (nrows df0 < n)%nat ->
  forall (idx : list nat) (acc : sweep) (h : heap) (acc' : sweep) (h' : heap),
    In i0 idx -> grows h0 h ->
    (forall l, h0 !! l = Some [] -> h !! l = Some []) ->
    foldM (fold_body n trains tests) acc idx h = (Return acc', h') -> False.
Proof.
  intros Hi0 Hdf0 Hrect Hsmall.
  induction idx as [| i idx IH]; intros acc h acc' h' Hin G Hemp Hrun;
    [destruct Hin |].
  simpl in Hrun. apply bind_Return in Hrun. destruct Hrun as (acc1 & h1 & Hbody & Hrest).
  apply fold_body_Return in Hbody.
  destruct Hbody as (tr & te & kmeans & y & te' & mse & Hi & Hte & Hfp & _).
  destruct (fit_predict_facts _ _ _ _ _ _ _ _ Hfp) as ([G1 U1] & F).
  destruct F as (train & test & X & Xt & Htrain & Htest & HX & HXt & Hfit & _).
  destruct (decide (i = i0)) as [-> | Hne].
  - assert (tr = tr0) by congruence. subst tr.
    destruct df0 as [| c df0'].
    + rewrite (Hemp _ Hdf0) in Htrain. injection Htrain as <-. discriminate.
    + destruct G as [_ G]. destruct (G tr0 _ Hdf0 ltac:(discriminate))
        as (df' & Hdf' & _ & Hn & Hr).
      rewrite Hdf' in Htrain. injection Htrain as <-.
      pose proof (drop_columns_nrows _ _ _ (Hr Hrect) HX) as Hle.
      unfold KMeans_fit in Hfit.
      destruct (Nat.ltb_spec (nrows X) n); [discriminate | lia].
  - destruct Hin as [E | Hin]; [congruence |].
    apply (IH acc1 h1 acc' h' Hin); [eapply grows_trans; eassumption | | exact Hrest].
    intros l Hl. pose proof (Hemp l Hl) as Hl'. rewrite <- Hl'. apply U1.
    split; [eapply lookup_lt_Some; exact Hl' |]. split.
    + intros ->. rewrite Hl' in Htrain. injection Htrain as <-. discriminate.
    + intros ->. rewrite Hl' in Htest. injection Htest as <-. discriminate.
Qed.

(** C3, as the code has it: a fold whose train frame has fewer rows
    than clusters makes the whole sweep raise; no result is returned for
    any fold. *)
Theorem degenerate_fold_aborts (trains tests : list loc) (n : nat) (h : heap)
    (i : nat) (tr : loc) (df : DataFrame) :
  index trains i = Return tr -> h !! tr = Some df ->
  rectangular df -> (nrows df < n)%nat ->
  exists e, fst (train_kmeans_and_predict trains tests n h) = Raise e.
Proof.
  intros Hi Hdf Hrect Hsmall.
  destruct (train_kmeans_and_predict trains tests n h) as [[e | sw] h'] eqn:E;
    [exists e; reflexivity |].
  exfalso. unfold train_kmeans_and_predict in E.
  eapply (foldM_small_fold n trains tests h i tr df Hi Hdf Hrect Hsmall);
    [eapply index_seq; exact Hi | apply grows_refl | auto | exact E].
Qed.

(** ** Two sweeps over the same train frames *)

Lemma fit_predict_agree (n : nat) (trains : list loc) (tr te1 te2 : loc)
    (h1 h2 h1' h2' : heap) (k1 k2 : model) (y1 y2 : list value) (t1 t2 : loc) :
  agree trains h1 h2 -> In tr trains -> ~ In te1 trains -> ~ In te2 trains ->
  fit_predict n tr te1 h1 = (Return (k1, y1, t1), h1') ->
  fit_predict n tr te2 h2 = (Return (k2, y2, t2), h2') ->
  k1 = k2 /\ agree trains h1' h2'.
Proof.
  intros Hag Htr Hte1 Hte2 E1 E2.
  destruct (fit_predict_facts _ _ _ _ _ _ _ _ E1) as ([G1 U1] & F1).
  destruct (fit_predict_facts _ _ _ _ _ _ _ _ E2) as ([G2 U2] & F2).
  destruct F1 as (train1 & test1 & X1 & Xt1 & Htrain1 & _ & HX1 & _ & Hfit1 & _
                  & Hor1 & _ & _ & Hset1 & _).
  destruct F2 as (train2 & test2 & X2 & Xt2 & Htrain2 & _ & HX2 & _ & Hfit2 & _
                  & Hor2 & _ & _ & Hset2 & _).
  destruct (Hag tr Htr) as (df & Hd1 & Hd2).
  assert (train1 = df) by congruence. assert (train2 = df) by congruence.
  subst train1 train2.
  assert (X1 = X2) by congruence. subst X2.
  assert (k1 = k2) by congruence. subst k2.
  split; [reflexivity |].
  assert (N1 : t1 <> tr).
  { destruct Hor1 as [-> | Hge]; [congruence |].
    apply lookup_lt_Some in Hd1. lia. }
  assert (N2 : t2 <> tr).
  { destruct Hor2 as [-> | Hge]; [congruence |].
    apply lookup_lt_Some in Hd2. lia. }
  destruct (Hset1 N1) as (tr1' & Hs1 & Hl1).
  destruct (Hset2 N2) as (tr2' & Hs2 & Hl2).
  assert (tr1' = tr2') by congruence. subst tr2'.
  intros l Hl. destruct (decide (l = tr)) as [-> | Hne].
  - exists tr1'. split; assumption.
  - destruct (Hag l Hl) as (dl & Hdl1 & Hdl2). exists dl. split.
    + rewrite (U1 l); [exact Hdl1 |].
      split; [eapply lookup_lt_Some; exact Hdl1 |]. split; [exact Hne |].
      intros ->. contradiction.
    + rewrite (U2 l); [exact Hdl2 |].
      split; [eapply lookup_lt_Some; exact Hdl2 |]. split; [exact Hne |].
      intros ->. contradiction.
Qed.

Lemma foldM_agree (n : nat) (trains tests1 tests2 : list loc) :
  (forall l, In l tests1 -> ~ In l trains) ->
  (forall l, In l tests2 -> ~ In l trains) ->
  forall (idx : list nat) (acc1 acc2 : sweep) (h1 h2 : heap)
         (sw1 sw2 : sweep) (h1' h2' : heap),
    agree trains h1 h2 ->
    snd (fst acc1) = snd (fst acc2) -> snd acc1 = snd acc2 ->
    foldM (fold_body n trains tests1) acc1 idx h1 = (Return sw1, h1') ->
    foldM (fold_body n trains tests2) acc2 idx h2 = (Return sw2, h2') ->
    snd (fst sw1) = snd (fst sw2) /\ snd sw1 = snd sw2 /\ agree trains h1' h2'.
Proof.
  intros D1 D2. induction idx as [| i idx IH];
    intros acc1 acc2 h1 h2 sw1 sw2 h1' h2' Hag Hm Ht R1 R2; simpl in R1, R2.
  - injection R1 as <- <-. injection R2 as <- <-. auto.
  - apply bind_Return in R1. destruct R1 as (a1 & g1 & B1 & R1).
    apply bind_Return in R2. destruct R2 as (a2 & g2 & B2 & R2).
    apply fold_body_Return in B1.
    destruct B1 as (tr1 & te1 & k1 & y1 & t1 & m1 & Hi1 & Hte1 & F1 & ->).
    apply fold_body_Return in B2.
    destruct B2 as (tr2 & te2 & k2 & y2 & t2 & m2 & Hi2 & Hte2 & F2 & ->).
    assert (tr2 = tr1) by congruence. subst tr2.
    destruct (fit_predict_agree n trains tr1 te1 te2 h1 h2 g1 g2 k1 k2 y1 y2 t1 t2
                Hag (index_In _ _ _ Hi1) (D1 _ (index_In _ _ _ Hte1))
                (D2 _ (index_In _ _ _ Hte2)) F1 F2) as [-> Hag'].
    refine (IH _ _ g1 g2 sw1 sw2 h1' h2' Hag' _ _ R1 R2); simpl; congruence.
Qed.

(** ** The frames a sweep returns *)

Lemma foldM_train_dfs (n : nat) (trains tests : list loc) :
  forall (idx : list nat) (acc : sweep) (h : heap) (sw : sweep) (h' : heap),
    foldM (fold_body n trains tests) acc idx h = (Return sw, h') ->
    exists trs, snd sw = (snd acc ++ trs)%list /\
                Forall2 (fun i tr => nth_error trains i = Some tr) idx trs.
Proof.
  induction idx as [| i idx IH]; intros acc h sw h' R; simpl in R.
  - injection R as <- <-. exists []. rewrite app_nil_r. split; [reflexivity | constructor].
  - apply bind_Return in R. destruct R as (a1 & g1 & B1 & R).
    apply fold_body_Return in B1.
    destruct B1 as (tr & te & k & y & t & m & Hi & _ & _ & ->).
    destruct (IH _ _ _ _ R) as (trs & Hs & Hf). simpl in Hs.
    exists (tr :: trs). split.
    + rewrite Hs, <- app_assoc. reflexivity.
    + constructor; [apply index_lt; exact Hi | exact Hf].
Qed.

Lemma Forall2_seq_nth {A} (l : list A) :
  forall (pre trs : list A),
    Forall2 (fun i a => nth_error (pre ++ l) i = Some a)
            (seq (length pre) (length l)) trs ->
    trs = l.
Proof.
  induction l as [| a l IH]; intros pre trs H; simpl in H.
  - inversion H. reflexivity.
  - inversion H as [| i b idx trs' Hb Hrest]; subst.
    rewrite nth_error_app2 in Hb by lia. rewrite Nat.sub_diag in Hb.
    injection Hb as <-. f_equal.
    apply (IH (pre ++ [a])%list).
    rewrite <- app_assoc, length_app. simpl.
    rewrite Nat.add_1_r. exact Hrest.
Qed.

Lemma Forall2_impl_In {A B} (P Q : A -> B -> Prop) (l1 : list A) (l2 : list B) :
  Forall2 P l1 l2 -> (forall a b, In b l2 -> P a b -> Q a b) -> Forall2 Q l1 l2.
Proof.
  induction 1 as [| a b l1 l2 Hab H IH]; intros Himp; constructor.
  - apply Himp; [left; reflexivity | exact Hab].
  - apply IH. intros a' b' Hin. apply Himp. right. exact Hin.
Qed.

Lemma Forall2_nth_error {A B} (P : A -> B -> Prop) (l1 : list A) (l2 : list B) :
  Forall2 P l1 l2 ->
  forall i a b, nth_error l1 i = Some a -> nth_error l2 i = Some b -> P a b.
Proof.
  induction 1 as [| a0 b0 l1 l2 Hab H IH]; intros i a b H1 H2.
  - destruct i; discriminate.
  - destruct i as [| i]; simpl in H1, H2.
    + injection H1 as <-. injection H2 as <-. exact Hab.
    + exact (IH i a b H1 H2).
Qed.

Lemma Forall2_nth_error_r {A B} (P : A -> B -> Prop) (l1 : list A) (l2 : list B) :
  Forall2 P l1 l2 ->
  forall i b, nth_error l2 i = Some b -> exists a, nth_error l1 i = Some a /\ P a b.
Proof.
  induction 1 as [| a0 b0 l1 l2 Hab H IH]; intros i b H2.
  - destruct i; discriminate.
  - destruct i as [| i]; simpl in H2.
    + injection H2 as <-. exists a0. split; [reflexivity | exact Hab].
    + exact (IH i b H2).
Qed.

(** Each fold of a sweep over distinct train frames leaves behind what
    it predicted from, and the later folds leave that alone. *)
Lemma foldM_baselined (n : nat) (trains tests : list loc) (n0 : nat) :
  List.NoDup trains -> (forall l, In l tests -> ~ In l trains) ->
  (forall l, In l trains -> (l < n0)%nat) ->
  forall (idx : list nat) (acc : sweep) (h : heap) (sw : sweep) (h' : heap),
    List.NoDup idx ->
    (n0 <= length h)%nat ->
    (forall tr, In tr (snd acc) -> In tr trains) ->
    (forall i tr, In i idx -> index trains i = Return tr -> ~ In tr (snd acc)) ->
    Forall2 (baselined trains tests n0 h) (snd (fst acc)) (snd acc) ->
    foldM (fold_body n trains tests) acc idx h = (Return sw, h') ->
    Forall2 (baselined trains tests n0 h') (snd (fst sw)) (snd sw).
Proof.
  intros Hnd Hdis Hlt. induction idx as [| i idx IH];
    intros acc h sw h' Hidx Hn0 Hsub Hnew Hinv R; simpl in R.
  - injection R as <- <-. exact Hinv.
  - apply bind_Return in R. destruct R as (a1 & g1 & B1 & R).
    apply fold_body_Return in B1.
    destruct B1 as (tr & te & k & y & t & m & Hi & Hte & Hfp & ->).
    destruct (fit_predict_facts _ _ _ _ _ _ _ _ Hfp) as ([G U] & F).
    destruct F as (train & test & X & Xt & Htrain & _ & _ & _ & _ & _ & Hor & _ & _
                   & Hset & Hfin).
    inversion Hidx as [| ? ? Hni Hidx']; subst.
    pose proof (index_In _ _ _ Hi) as Htr_in.
    pose proof (index_In _ _ _ Hte) as Hte_in.
    assert (Hlen : (length h <= length g1)%nat) by (destruct G as [L _]; exact L).
    refine (IH _ g1 sw h' Hidx' _ _ _ _ R); simpl.
    + lia.
    + intros tr' Hin. apply in_app_iff in Hin.
      destruct Hin as [Hin | [<- | []]]; [exact (Hsub _ Hin) | exact Htr_in].
    + intros j tr' Hj Hjtr Hin. apply in_app_iff in Hin.
      destruct Hin as [Hin | [<- | []]].
      * exact (Hnew j tr' (or_intror Hj) Hjtr Hin).
      * apply index_lt in Hi, Hjtr.
        assert (i = j).
        { eapply (proj1 (List.NoDup_nth_error trains) Hnd);
            [apply nth_error_Some; congruence | congruence]. }
        subst j. contradiction.
    + apply Forall2_app.
      * eapply Forall2_impl_In; [exact Hinv |].
        intros k' tr' Hin (i' & train0 & table0 & Hi' & Htr' & Hlab & Htab & P).
        destruct P as (te0 & te0' & test0 & assigned0 & Hte0 & Hor0 & Htest0 & Hc0 & Hp0).
        exists i', train0, table0. split; [exact Hi' |].
        split.
        { rewrite <- Htr'. apply U.
          split; [eapply lookup_lt_Some; exact Htr' |]. split.
          - intros ->. exact (Hnew i tr (or_introl eq_refl) Hi Hin).
          - intros ->. exfalso. exact (Hdis _ Hte_in (Hsub _ Hin)). }
        split; [exact Hlab |]. split; [exact Htab |].
        exists te0, te0', test0, assigned0. split; [exact Hte0 |].
        split; [exact Hor0 |]. split; [| split; assumption].
        rewrite <- Htest0. apply U.
        split; [eapply lookup_lt_Some; exact Htest0 |]. split.
        { intros ->. destruct Hor0 as [-> | Hge].
          - apply (Hdis te0); [eapply nth_error_In; exact Hte0 | exact Htr_in].
          - pose proof (Hlt _ Htr_in). lia. }
        { intros _. exists test0. split; [exact Htest0 |].
          eapply get_column_has_column. exact Hp0. }
      * constructor; [| constructor].
        assert (N : t <> tr).
        { destruct Hor as [-> | Hge]; [intros ->; exact (Hdis _ Hte_in Htr_in) |].
          apply lookup_lt_Some in Htrain. lia. }
        destruct (Hset N) as (train' & Hs & Hl).
        destruct Hfin as (train_final & table & test' & assigned & Hl' & Htab & Ht
                          & Hc & Hp & _).
        assert (train_final = train') by congruence. subst train_final.
        exists i, train', table. split; [apply index_lt; exact Hi |].
        split; [exact Hl |]. split.
        { apply set_column_replace in Hs. subst train'. apply get_column_replace_eq. }
        split; [exact Htab |].
        exists te, t, test', assigned. split; [apply index_lt; exact Hte |].
        split; [destruct Hor as [-> | Hge]; [left; reflexivity | right; lia] |].
        split; [exact Ht |]. split; assumption.
Qed.

(** C8: two sweeps over the same train frames that both return have
    fitted the same models and hold the same clustered train frames,
    whatever their test frames are.  Where the train frames are distinct
    objects, the baseline table that a fold computes at line 127 is the
    same in both sweeps, the means of the ratings of its train frame by
    the labels of its model, and it is that table that either sweep has
    predicted from into its own test frame. *)
Theorem no_leakage (trains tests1 tests2 : list loc) (n : nat) (h1 h2 : heap)
    (sw1 sw2 : sweep) (h1' h2' : heap) :
  agree trains h1 h2 ->
  (forall l, In l tests1 -> ~ In l trains) ->
  (forall l, In l tests2 -> ~ In l trains) ->
  train_kmeans_and_predict trains tests1 n h1 = (Return sw1, h1') ->
  train_kmeans_and_predict trains tests2 n h2 = (Return sw2, h2') ->
  snd (fst sw1) = snd (fst sw2) /\
  snd sw1 = snd sw2 /\
  agree trains h1' h2' /\
  (forall l df1 df2, In l trains -> h1' !! l = Some df1 -> h2' !! l = Some df2 ->
     groupby_mean "cluster" "rating" df1 = groupby_mean "cluster" "rating" df2) /\
  (List.NoDup trains ->
   forall i tr, nth_error trains i = Some tr ->
     exists k train table,
       nth_error (snd (fst sw1)) i = Some k /\
       nth_error (snd (fst sw2)) i = Some k /\
       h1' !! tr = Some train /\ h2' !! tr = Some train /\
       get_column "cluster" train = Return (map VInt (labels_ k)) /\
       groupby_mean "cluster" "rating" train = Return table /\
       predicted_from tests1 (length h1) h1' i table /\
       predicted_from tests2 (length h2) h2' i table).
Proof.
  intros Hag D1 D2 R1 R2. unfold train_kmeans_and_predict in R1, R2.
  destruct (foldM_agree n trains tests1 tests2 D1 D2 _ _ _ _ _ _ _ _ _ Hag
              eq_refl eq_refl R1 R2) as (Hm & Ht & Hag').
  split; [exact Hm |]. split; [exact Ht |]. split; [exact Hag' |].
  split.
  { intros l df1 df2 Hl H1 H2. destruct (Hag' l Hl) as (df & Hd1 & Hd2).
    congruence. }
  intros Hnd i tr Hi.
  assert (B : forall tests h sw h',
            (forall l, In l tests -> ~ In l trains) ->
            (forall l, In l trains -> (l < length h)%nat) ->
            foldM (fold_body n trains tests) ([], [], []) (seq 0 (length trains)) h
            = (Return sw, h') ->
            exists k train table,
              nth_error (snd (fst sw)) i = Some k /\ h' !! tr = Some train /\
              get_column "cluster" train = Return (map VInt (labels_ k)) /\
              groupby_mean "cluster" "rating" train = Return table /\
              predicted_from tests (length h) h' i table).
  { intros tests h sw h' D L R.
    assert (F : Forall2 (baselined trains tests (length h) h') (snd (fst sw)) (snd sw)).
    { apply (foldM_baselined n trains tests (length h) Hnd D L _ _ _ _ _
               (List.seq_NoDup _ _) (Nat.le_refl _)) in R; [exact R | | | constructor].
      - intros tr' [].
      - intros j tr' _ _ []. }
    destruct (foldM_train_dfs _ _ _ _ _ _ _ _ R) as (trs & Hs & Hf). simpl in Hs.
    apply (Forall2_seq_nth trains [] trs) in Hf. rewrite Hf in Hs. rewrite Hs in F.
    destruct (Forall2_nth_error_r _ _ _ F i tr Hi) as (k & Hk & Bk).
    destruct Bk as (i' & train & table & Hi' & Htr & Hlab & Htab & P).
    assert (i' = i).
    { eapply (proj1 (List.NoDup_nth_error trains) Hnd);
        [apply nth_error_Some; congruence | congruence]. }
    subst i'. exists k, train, table. auto. }
  assert (L1 : forall l, In l trains -> (l < length h1)%nat).
  { intros l Hl. destruct (Hag l Hl) as (df & Hd & _).
    eapply lookup_lt_Some. exact Hd. }
  assert (L2 : forall l, In l trains -> (l < length h2)%nat).
  { intros l Hl. destruct (Hag l Hl) as (df & _ & Hd).
    eapply lookup_lt_Some. exact Hd. }
  destruct (B tests1 h1 sw1 h1' D1 L1 R1) as (k1 & train1 & table1 & Hk1 & Htr1 & Hlab1
                                               & Htab1 & P1).
  destruct (B tests2 h2 sw2 h2' D2 L2 R2) as (k2 & train2 & table2 & Hk2 & Htr2 & Hlab2
                                               & Htab2 & P2).
  destruct (Hag' tr (nth_error_In _ _ Hi)) as (df & Hd1 & Hd2).
  assert (train1 = train2) by congruence. subst train2.
  assert (table1 = table2) by congruence. subst table2.
  assert (k1 = k2) by congruence. subst k2.
  exists k1, train1, table1. auto 10.
Qed.

(** C9, as the code has it: whatever its outcome, the sweep leaves
    unchanged every frame of the caller other than the train frames and
    the test frames without a [predicted_rating] column, and it returns
    the caller's own train frames as [train_dfs].  A fold that returns
    has set the [cluster] column of its train frame in place; it has
    predicted into the test frame itself where that had no
    [predicted_rating] column and into a new frame where it had one; and
    in the frame it predicted into the column occurs once. *)
Theorem sweep_side_effects :
  (forall (trains tests : list loc) (n : nat) (h : heap) (r : result sweep)
          (h' : heap) (l : loc) (df : DataFrame),
     train_kmeans_and_predict trains tests n h = (r, h') ->
     h !! l = Some df -> ~ In l trains ->
     (In l tests -> has_column "predicted_rating" df = true) ->
     h' !! l = Some df) /\
  (forall (trains tests : list loc) (n : nat) (h h' : heap) (mse_list : list Q)
          (models : list model) (train_dfs : list loc),
     train_kmeans_and_predict trains tests n h
     = (Return (mse_list, models, train_dfs), h') ->
     train_dfs = trains) /\
  (forall (n : nat) (tr te : loc) (h h' : heap) (kmeans : model)
          (y_test : list value) (te' : loc),
     fit_predict n tr te h = (Return (kmeans, y_test, te'), h') ->
     (te <> tr ->
        exists train train',
          h !! tr = Some train /\
          set_column "cluster" (map VInt (labels_ kmeans)) train = Return train' /\
          h' !! tr = Some train') /\
     (~ stale h te -> te' = te) /\
     (stale h te -> (length h <= te')%nat) /\
     exists test', h' !! te' = Some test' /\
                   occurrences "predicted_rating" test' = 1%nat).
Proof.
  split; [| split].
  - intros trains tests n h r h' l df E Hl Hn Hs.
    destruct (train_kmeans_and_predict_frame _ _ _ _ _ _ E) as [_ U].
    rewrite <- Hl. apply U.
    split; [eapply lookup_lt_Some; exact Hl |]. split; [exact Hn |].
    intros Hin. exists df. split; [exact Hl | exact (Hs Hin)].
  - intros trains tests n h h' mse_list models train_dfs E.
    unfold train_kmeans_and_predict in E.
    destruct (foldM_train_dfs _ _ _ _ _ _ _ _ E) as (trs & Hs & Hf).
    simpl in Hs. subst trs.
    exact (Forall2_seq_nth trains [] train_dfs Hf).
  - intros n tr te h h' kmeans y_test te' E.
    destruct (fit_predict_facts _ _ _ _ _ _ _ _ E) as (_ & F).
    destruct F as (train & test & X & Xt & Htrain & _ & _ & _ & _ & _ & Hor & Hst
                   & Hns & Hset & F).
    destruct F as (tf & table & test' & assigned & _ & _ & Ht & _ & _ & Hocc).
    split; [| split; [exact Hns | split; [exact Hst |]]].
    + intros Hne. assert (N : te' <> tr).
      { destruct Hor as [-> | Hge]; [exact Hne |].
        apply lookup_lt_Some in Htrain. lia. }
      destruct (Hset N) as (train' & Hs & Hl). exists train, train'. auto.
    + exists test'. split; assumption.
Qed.

End Sweep.

(** ** The theorems at work on the example data *)

(** User 5 rates nothing in [example_ratings]. *)
Lemma filterRules_cold_user_witness :
  filterRules 5 10 example_ratings 0 (VFloat (7 # 2)) []
  = Return (ColdUser (VFloat (7 # 2))).
Proof.
  apply (filterRules_cold_user value 5 10 example_ratings 0 (VFloat (7 # 2)) []
           [VInt 1; VInt 1; VInt 2]).
  - reflexivity.
  - reflexivity.
  - intros v [<- | [<- | [<- | []]]]; reflexivity.
Defined.

(** User 1 rates movie 11 with 3.5, in row 1 only. *)
Lemma filterRules_already_rated_witness :
  filterRules 1 11 example_ratings 0 (VFloat 3) [] = Return (AlreadyRated (VFloat (7 # 2))).
Proof.
  apply (filterRules_already_rated value 1 11 example_ratings 0 (VFloat 3) [] 1).
  - reflexivity.
  - reflexivity.
  - reflexivity.
  - intros [| [| [| [| j]]]] H1 H2; try reflexivity; discriminate.
Defined.

(** With three clusters the train rows fall into clusters 2, 1 and 1;
    the second row of [unseen_test], movie 12, falls into cluster 0. *)
Lemma missing_baseline_is_marked_witness :
  (exists train test members assigned predicted,
     snd (@fit_predict FlagCount 3 0%nat 4%nat example_store) !! 0%nat = Some train /\
     snd (@fit_predict FlagCount 3 0%nat 4%nat example_store) !! 4%nat = Some test /\
     get_column "cluster" train = Return members /\
     get_column "cluster" test = Return assigned /\
     get_column "predicted_rating" test = Return predicted /\
     forall (j : nat) (k : Z),
       nth_error assigned j = Some (VInt k) -> ~ In (VInt k) members ->
       nth_error predicted j = Some VNaN) /\
  @predict_rating_kmeans FlagCount 1 12 [(3%nat, [2; 1; 1])] [clustered_train]
    unseen_test
  = Return (Some (None, [0], [(1, VFloat (11 # 4)); (2, VFloat 4)])).
Proof.
  split.
  - apply (proj1 (@missing_baseline_is_marked FlagCount) 3%nat 0%nat 4%nat
             example_store _ (3%nat, [2; 1; 1]) [VFloat 5; VFloat 3] 4%nat).
    reflexivity.
  - apply (proj2 (@missing_baseline_is_marked FlagCount) 1 12 [(3%nat, [2; 1; 1])]
             [clustered_train] unseen_test
             [("userId", [VInt 3]); ("movieId", [VInt 12]); ("rating", [VFloat 3]);
              ("title", [VStr "Fog"]); ("Action", [VInt 0]); ("Comedy", [VInt 0])]
             [("Action", [VInt 0]); ("Comedy", [VInt 0])]
             clustered_train (3%nat, [2; 1; 1]) [0] 0
             [VInt 2; VInt 1; VInt 1]); try reflexivity.
    intros [H | [H | [H | []]]]; discriminate.
Defined.

(** The second fold trains on [tiny_train], one row, for two clusters. *)
Lemma degenerate_fold_aborts_witness :
  exists e,
    fst (@train_kmeans_and_predict FlagCount [0; 2]%nat [1; 1]%nat 2 example_store)
    = Raise e.
Proof.
  apply (@degenerate_fold_aborts FlagCount [0; 2]%nat [1; 1]%nat 2%nat example_store
           1%nat 2%nat tiny_train).
  - reflexivity.
  - reflexivity.
  - repeat constructor.
  - simpl. lia.
Defined.

(** C3, as the claim states it, fails: with a second fold of one train
    row and two clusters the sweep raises and returns no result, though
    the first fold on its own evaluates to an error of 17/32. *)
Lemma degenerate_fold_loses_the_sweep :
  (nrows tiny_train < 2)%nat /\
  fst (@train_kmeans_and_predict FlagCount [0]%nat [1]%nat 2 example_store)
  = Return ([17 # 32], [(2%nat, [0; 1; 1])], [0%nat]) /\
  fst (@train_kmeans_and_predict FlagCount [0; 2]%nat [1; 1]%nat 2 example_store)
  = Raise (ValueError "n_samples should be >= n_clusters").
Proof. split; [simpl; lia | split; reflexivity]. Qed.

(** The same train frame, swept with two different test frames: the
    model labels its rows 0, 1 and 1, and either sweep has predicted
    from the means 4 and 11/4 of its ratings. *)
Lemma no_leakage_witness :
  agree [0%nat]
    (snd (@train_kmeans_and_predict FlagCount [0]%nat [1]%nat 2
            [example_train; example_test]))
    (snd (@train_kmeans_and_predict FlagCount [0]%nat [1]%nat 2
            [example_train; other_test])) /\
  exists k train table,
    nth_error [(2%nat, [0; 1; 1])] 0 = Some k /\
    nth_error [(2%nat, [0; 1; 1])] 0 = Some k /\
    snd (@train_kmeans_and_predict FlagCount [0]%nat [1]%nat 2
           [example_train; example_test]) !! 0%nat = Some train /\
    snd (@train_kmeans_and_predict FlagCount [0]%nat [1]%nat 2
           [example_train; other_test]) !! 0%nat = Some train /\
    get_column "cluster" train = Return (map VInt (@labels_ FlagCount k)) /\
    groupby_mean "cluster" "rating" train = Return table /\
    predicted_from [1%nat] 2
      (snd (@train_kmeans_and_predict FlagCount [0]%nat [1]%nat 2
              [example_train; example_test])) 0 table /\
    predicted_from [1%nat] 2
      (snd (@train_kmeans_and_predict FlagCount [0]%nat [1]%nat 2
              [example_train; other_test])) 0 table.
Proof.
  assert (Hag : agree [0%nat] [example_train; example_test]
                  [example_train; other_test]).
  { intros l [<- | []]. exists example_train. split; reflexivity. }
  assert (D : forall l : loc, In l [1%nat] -> ~ In l [0%nat]).
  { intros l [<- | []] [H | []]. discriminate. }
  assert (Hnd : List.NoDup [0%nat]) by (constructor; [intros [] | constructor]).
  destruct (@no_leakage FlagCount [0]%nat [1]%nat [1]%nat 2%nat
              [example_train; example_test] [example_train; other_test]
              ([17 # 32], [(2%nat, [0; 1; 1])], [0%nat])
              ([49 # 16], [(2%nat, [0; 1; 1])], [0%nat]) _ _ Hag D D eq_refl eq_refl)
    as (_ & _ & A & _ & B).
  split; [exact A | exact (B Hnd 0%nat 0%nat eq_refl)].
Defined.

(** [stale_test] carries a prediction column: the sweep leaves it as it
    was. *)
Lemma sweep_side_effects_witness :
  snd (@train_kmeans_and_predict FlagCount [0]%nat [3]%nat 2 example_store) !! 3%nat
  = Some stale_test.
Proof.
  apply (proj1 (@sweep_side_effects FlagCount) [0]%nat [3]%nat 2%nat example_store
           (fst (@train_kmeans_and_predict FlagCount [0]%nat [3]%nat 2 example_store))
           _ 3%nat stale_test).
  - apply surjective_pairing.
  - reflexivity.
  - intros [H | []]. discriminate.
  - intros _. reflexivity.
Defined.

(** C9, as the claim states it, fails: the sweep writes a [cluster]
    column into the caller's train frame, and [cluster] and
    [predicted_rating] columns into a test frame that had no prediction
    column. *)
Lemma sweep_writes_caller_frames :
  example_store !! 0%nat = Some example_train /\
  example_store !! 1%nat = Some example_test /\
  snd (@train_kmeans_and_predict FlagCount [0]%nat [1]%nat 2 example_store) !! 0%nat
  = Some (example_train ++ [("cluster", [VInt 0; VInt 1; VInt 1])])%list /\
  snd (@train_kmeans_and_predict FlagCount [0]%nat [1]%nat 2 example_store) !! 1%nat
  = Some (example_test ++ [("cluster", [VInt 0; VInt 1]);
                           ("predicted_rating", [VFloat 4; VFloat (11 # 4)])])%list /\
  snd (@train_kmeans_and_predict FlagCount [0]%nat [1]%nat 2 example_store) !! 0%nat
  <> example_store !! 0%nat /\
  snd (@train_kmeans_and_predict FlagCount [0]%nat [1]%nat 2 example_store) !! 1%nat
  <> example_store !! 1%nat.
Proof.
  split; [reflexivity |]. split; [reflexivity |].
  split; [reflexivity |]. split; [reflexivity |].
  split; intros H; vm_compute in H; discriminate H.
Qed.


(** ** More on the rounding stage *)

Lemma frac_bounds (x : Q) : (0 <= frac x)%Q /\ (frac x < 1)%Q.
Proof.
  unfold frac. pose proof (Qfloor_le x) as H1. pose proof (Qlt_floor x) as H2.
  rewrite inject_Z_plus in H2. change (inject_Z 1) with 1%Q in H2. split; lra.
Qed.

Lemma Qfloor_unique (x : Q) (j : Z) :
  (inject_Z j <= x)%Q -> (x < inject_Z (j + 1))%Q -> Qfloor x = j.
Proof.
  intros H1 H2. pose proof (Qfloor_le x) as H3. pose proof (Qlt_floor x) as H4.
  assert (A : (inject_Z j < inject_Z (Qfloor x + 1))%Q) by lra.
  assert (B : (inject_Z (Qfloor x) < inject_Z (j + 1))%Q) by lra.
  rewrite <- Zlt_Qlt in A, B. lia.
Qed.

(** The three branches of the rounding of a non-negative rating. *)
Lemma roundRating_branches (x : Q) :
  (0 <= x)%Q ->
  (num_val (roundRating x) == inject_Z (Qfloor x) /\ frac x < 1 # 4)%Q \/
  (num_val (roundRating x) == inject_Z (Qfloor x) + (1 # 2) /\
   1 # 4 <= frac x /\ frac x < 3 # 4)%Q \/
  (num_val (roundRating x) == inject_Z (Qfloor x) + 1 /\ 3 # 4 <= frac x)%Q.
Proof.
  intros Hx. unfold roundRating. rewrite (frac_int_of_float x Hx).
  rewrite (int_of_float_floor x Hx).
  destruct (Qlt_le_dec _ _) as [H | H]; [| destruct (Qlt_le_dec _ _) as [H' | H']];
    simpl num_val.
  - left. split; [reflexivity | exact H].
  - right. left. rewrite Qred_correct. split; [reflexivity | split; assumption].
  - right. right. rewrite inject_Z_plus. change (inject_Z 1) with 1%Q.
    split; [reflexivity | exact H'].
Qed.

(** X1: a non-negative rating is rounded to a multiple of one half that
    lies within a quarter of it. *)
Theorem roundRating_nearest_half (x : Q) :
  (0 <= x)%Q ->
  (- (1 # 4) <= num_val (roundRating x) - x)%Q /\
  (num_val (roundRating x) - x <= 1 # 4)%Q /\
  exists k : Z, (2 * num_val (roundRating x) == inject_Z k)%Q.
Proof.
  intros Hx. destruct (frac_bounds x) as [F0 F1].
  destruct (roundRating_branches x Hx) as [[E H] | [(E & H1 & H2) | [E H]]];
    unfold frac in *; (split; [lra |]); (split; [lra |]).
  - exists (2 * Qfloor x)%Z.
    rewrite inject_Z_mult. change (inject_Z 2) with 2%Q. lra.
  - exists (2 * Qfloor x + 1)%Z. rewrite inject_Z_plus, inject_Z_mult.
    change (inject_Z 2) with 2%Q. change (inject_Z 1) with 1%Q. lra.
  - exists (2 * Qfloor x + 2)%Z. rewrite inject_Z_plus, inject_Z_mult.
    change (inject_Z 2) with 2%Q. lra.
Qed.

Lemma int_of_float_nonpos (x : Q) : (x <= 0)%Q -> (x <= inject_Z (int_of_float x))%Q.
Proof.
  destruct x as [n d]. unfold Qle, int_of_float. simpl. intros H.
  pose proof (Z.quot_rem' n (Z.pos d)) as E.
  pose proof (Z.rem_nonpos n (Z.pos d) ltac:(lia) ltac:(lia)) as R. nia.
Qed.

(** X2: a rating that is zero or negative is not rounded to a half: it is
    cut to [int(x)], as an integer. *)
Theorem roundRating_nonpositive (x : Q) :
  (x <= 0)%Q -> roundRating x = PyInt (int_of_float x).
Proof.
  intros Hx. unfold roundRating. pose proof (int_of_float_nonpos x Hx) as H.
  destruct (Qlt_le_dec _ _) as [_ | H']; [reflexivity | exfalso; lra].
Qed.

Lemma roundRating_half_point (y : Q) (k : Z) :
  (0 <= y)%Q -> (2 * y == inject_Z k)%Q -> (num_val (roundRating y) == y)%Q.
Proof.
  intros Hy Hk. unfold roundRating. rewrite (frac_int_of_float y Hy).
  rewrite (int_of_float_floor y Hy). unfold frac.
  destruct (Z.even k) eqn:Ev.
  - apply Z.even_spec in Ev. destruct Ev as [j ->].
    rewrite inject_Z_mult in Hk. change (inject_Z 2) with 2%Q in Hk.
    assert (E : (y == inject_Z j)%Q) by lra.
    rewrite (Qfloor_comp _ _ E), Qfloor_Z.
    destruct (Qlt_le_dec _ _) as [_ | H]; [simpl; lra | exfalso; lra].
  - assert (Od : Z.odd k = true) by (rewrite <- Z.negb_even, Ev; reflexivity).
    apply Z.odd_spec in Od. destruct Od as [j ->].
    rewrite inject_Z_plus, inject_Z_mult in Hk.
    change (inject_Z 2) with 2%Q in Hk. change (inject_Z 1) with 1%Q in Hk.
    assert (F : Qfloor y = j).
    { apply Qfloor_unique; [lra |].
      rewrite inject_Z_plus. change (inject_Z 1) with 1%Q. lra. }
    rewrite F.
    destruct (Qlt_le_dec _ _) as [H | _]; [exfalso; lra |].
    destruct (Qlt_le_dec _ _) as [_ | H]; [| exfalso; lra].
    simpl. rewrite Qred_correct. lra.
Qed.

(** X3: rounding a rounded non-negative rating again changes nothing. *)
Theorem roundRating_idempotent (x : Q) :
  (0 <= x)%Q ->
  (num_val (roundRating (num_val (roundRating x))) == num_val (roundRating x))%Q.
Proof.
  intros Hx. destruct (frac_bounds x) as [F0 F1].
  assert (G : (- (1 # 4) <= num_val (roundRating x) - x)%Q /\
              exists k : Z, (2 * num_val (roundRating x) == inject_Z k)%Q).
  { destruct (roundRating_branches x Hx) as [[E H] | [(E & H1 & H2) | [E H]]];
      unfold frac in *; (split; [lra |]).
    - exists (2 * Qfloor x)%Z.
      rewrite inject_Z_mult. change (inject_Z 2) with 2%Q. lra.
    - exists (2 * Qfloor x + 1)%Z. rewrite inject_Z_plus, inject_Z_mult.
      change (inject_Z 2) with 2%Q. change (inject_Z 1) with 1%Q. lra.
    - exists (2 * Qfloor x + 2)%Z. rewrite inject_Z_plus, inject_Z_mult.
      change (inject_Z 2) with 2%Q. lra. }
  destruct G as (L & k & Hk).
  assert (H0 : (0 <= num_val (roundRating x))%Q).
  { assert (N : (-1 < inject_Z k)%Q) by lra.
    change (-1)%Q with (inject_Z (-1)) in N. rewrite <- Zlt_Qlt in N.
    assert (N' : (inject_Z 0 <= inject_Z k)%Q) by (rewrite <- Zle_Qle; lia).
    change (inject_Z 0) with 0%Q in N'. lra. }
  exact (roundRating_half_point _ k H0 Hk).
Qed.

(** ** More on frames *)

Lemma columns_select_rows (mask : list bool) (df : DataFrame) :
  columns (select_rows mask df) = columns df.
Proof. unfold columns, select_rows. rewrite map_map. reflexivity. Qed.

Lemma has_column_select_rows (label : string) (mask : list bool) (df : DataFrame) :
  has_column label (select_rows mask df) = has_column label df.
Proof. unfold has_column. rewrite columns_select_rows. reflexivity. Qed.

Lemma drop_columns_select_rows (labels : list string) (mask : list bool)
    (df X : DataFrame) :
  drop_columns labels df = Return X ->
  drop_columns labels (select_rows mask df) = Return (select_rows mask X).
Proof.
  unfold drop_columns.
  assert (E : List.find (fun l => negb (has_column l (select_rows mask df))) labels
              = List.find (fun l => negb (has_column l df)) labels).
  { induction labels as [| l labels IH]; simpl; [reflexivity |].
    rewrite has_column_select_rows, IH. reflexivity. }
  rewrite E. clear E.
  destruct (List.find _ labels); [intros H; discriminate H |]. intros [= <-]. f_equal.
  induction df as [| c df IH]; simpl; [reflexivity |].
  destruct (negb _); simpl; rewrite IH; reflexivity.
Qed.

Lemma has_columns_drop (labels : list string) (df : DataFrame) :
  (forall l, In l labels -> has_column l df = true) ->
  exists X, drop_columns labels df = Return X.
Proof.
  intros H. unfold drop_columns.
  destruct (List.find _ labels) as [l |] eqn:E; [| eauto].
  apply find_some in E. destruct E as [Hin Hneg].
  rewrite (H l Hin) in Hneg. discriminate.
Qed.

(** ** More on group means *)

Lemma insert_key_intro (k x : Z) (ks : list Z) :
  x = k \/ In x ks -> In x (insert_key k ks).
Proof.
  induction ks as [| k' ks IH]; simpl.
  - intros [-> | []]. left. reflexivity.
  - destruct (Z.ltb_spec k k'); [simpl; intuition congruence |].
    destruct (Z.eqb_spec k k') as [-> | Hne]; [simpl; intuition congruence |].
    simpl. intros [-> | [<- | H']].
    + right. apply IH. left. reflexivity.
    + left. reflexivity.
    + right. apply IH. right. exact H'.
Qed.

Lemma group_keys_intro (k : Z) (labels : list (option Z)) :
  In (Some k) labels -> In k (group_keys labels).
Proof.
  induction labels as [| l labels IH]; simpl; [tauto |].
  intros [-> | H].
  - apply insert_key_intro. left. reflexivity.
  - destruct l as [k' |]; [apply insert_key_intro; right |]; exact (IH H).
Qed.

Lemma as_label_intro (k : Z) (cells : list value) :
  forall labels, mapR as_label cells = Return labels ->
                 In (VInt k) cells -> In (Some k) labels.
Proof.
  induction cells as [| c cells IH]; simpl; intros labels.
  - intros _ [].
  - destruct (as_label c) as [e | l] eqn:El; simpl; [discriminate |].
    destruct (mapR as_label cells) as [e | ls]; simpl; [discriminate |].
    intros [= <-] [-> | H].
    + left. simpl in El. congruence.
    + right. exact (IH ls eq_refl H).
Qed.

Lemma series_lookup_present (f : Z -> value) (k : Z) (ks : list Z) :
  In k ks -> series_lookup (map (fun x => (x, f x)) ks) k = Some (f k).
Proof.
  induction ks as [| k' ks IH]; simpl; [tauto |].
  intros H. destruct (Z.eqb_spec k' k) as [-> | Hne]; [reflexivity |].
  destruct H as [E | H]; [congruence | exact (IH H)].
Qed.

(** The entry of a cluster with a member is the mean of its members'
    ratings. *)
Lemma groupby_mean_present (df : DataFrame) (table : Series)
    (members ratings : list value) (labels : list (option Z)) (xs : list (option Q))
    (k : Z) :
  groupby_mean "cluster" "rating" df = Return table ->
  get_column "cluster" df = Return members ->
  get_column "rating" df = Return ratings ->
  mapR as_label members = Return labels ->
  mapR as_number ratings = Return xs ->
  In (VInt k) members ->
  series_lookup table k = Some (mean_of (select (map (is_label k) labels) xs)).
Proof.
  unfold groupby_mean. intros Hg Hc Hr Hl Hx Hk.
  rewrite Hc, Hr in Hg. simpl in Hg. rewrite Hl, Hx in Hg. simpl in Hg.
  injection Hg as <-.
  apply (series_lookup_present
           (fun x => mean_of (select (map (is_label x) labels) xs))).
  apply group_keys_intro. eapply as_label_intro; eassumption.
Qed.

Lemma groupby_mean_columns (df : DataFrame) (table : Series) :
  groupby_mean "cluster" "rating" df = Return table ->
  exists members ratings labels xs,
    get_column "cluster" df = Return members /\
    get_column "rating" df = Return ratings /\
    mapR as_label members = Return labels /\
    mapR as_number ratings = Return xs.
Proof.
  unfold groupby_mean.
  destruct (get_column "cluster" df) as [e | members]; [discriminate |].
  destruct (get_column "rating" df) as [e | ratings]; [discriminate |]. simpl.
  destruct (mapR as_label members) as [e | labels] eqn:El; [discriminate |].
  destruct (mapR as_number ratings) as [e | xs] eqn:Ex; [discriminate |]. simpl.
  intros _. exists members, ratings, labels, xs. auto.
Qed.

(** ** More on the single-query predictor *)

Section Queries.
Context {K : Clusterer}.

(** X5: for a movie that no row of [movie_data] carries,
    [predict_rating_kmeans] returns [None] and looks at no model and no
    train frame. *)
Theorem predict_rating_kmeans_unknown_movie (user_id movie_id : Z)
    (models : list model) (train_dfs : list DataFrame) (movie_data : DataFrame)
    (movies : list value) :
  get_column "movieId" movie_data = Return movies ->
  (forall l, In l id_columns -> has_column l movie_data = true) ->
  (forall v, In v movies -> val_eqb v (VInt movie_id) = false) ->
  predict_rating_kmeans user_id movie_id models train_dfs movie_data = Return None.
Proof.
  intros Hm Hid Hnone. unfold predict_rating_kmeans, rows_where. rewrite Hm. simpl.
  destruct (has_columns_drop _ _ Hid) as [X HX].
  rewrite (drop_columns_select_rows _ _ _ _ HX). simpl.
  rewrite (df_empty_select_none (fun x => val_eqb x (VInt movie_id)) movies X Hnone).
  reflexivity.
Qed.

(** X6: the rating that [predict_rating_kmeans] returns for a movie whose
    cluster has members in the first train frame is the mean of the
    ratings of the rows of that frame in that cluster, whoever the user
    is. *)
Theorem predict_rating_kmeans_baseline (user_id movie_id : Z)
    (models : list model) (train_dfs : list DataFrame)
    (movie_data movie_rows movie_features train0 : DataFrame) (model0 : model)
    (predicted_cluster : list Z) (k : Z) (members ratings : list value)
    (labels : list (option Z)) (xs : list (option Q)) :
  rows_where "movieId" (VInt movie_id) movie_data = Return movie_rows ->
  drop_columns id_columns movie_rows = Return movie_features ->
  df_empty movie_features = false ->
  index models 0 = Return model0 ->
  predict model0 movie_features = Return predicted_cluster ->
  index predicted_cluster 0 = Return k ->
  index train_dfs 0 = Return train0 ->
  get_column "cluster" train0 = Return members ->
  get_column "rating" train0 = Return ratings ->
  mapR as_label members = Return labels ->
  mapR as_number ratings = Return xs ->
  In (VInt k) members ->
  exists table,
    predict_rating_kmeans user_id movie_id models train_dfs movie_data
    = Return (Some (Some (mean_of (select (map (is_label k) labels) xs)),
                    predicted_cluster, table)).
Proof.
  intros Hrows Hdrop Hne Hm Hp Hk Ht Hc Hr Hl Hx Hin.
  assert (Hg : exists table, groupby_mean "cluster" "rating" train0 = Return table).
  { unfold groupby_mean. rewrite Hc, Hr. simpl. rewrite Hl, Hx. simpl. eauto. }
  destruct Hg as [table Hg]. exists table.
  unfold predict_rating_kmeans.
  rewrite Hrows. simpl. rewrite Hdrop. simpl. rewrite Hne, Hm. simpl.
  rewrite Hp. simpl. rewrite Ht. simpl. rewrite Hg. simpl. rewrite Hk. simpl.
  unfold series_get.
  rewrite (groupby_mean_present _ _ _ _ _ _ _ Hg Hc Hr Hl Hx Hin). reflexivity.
Qed.

(** X7: in the test frame that one fold leaves, the predicted rating of a
    row whose cluster has train members is the mean of the train ratings
    of that cluster. *)
Theorem fit_predict_baseline (n : nat) (tr te : loc) (h h' : heap)
    (kmeans : model) (y_test : list value) (te' : loc) :
  fit_predict n tr te h = (Return (kmeans, y_test, te'), h') ->
  exists train test members ratings labels xs assigned predicted,
    h' !! tr = Some train /\ h' !! te' = Some test /\
    get_column "cluster" train = Return members /\
    get_column "rating" train = Return ratings /\
    mapR as_label members = Return labels /\
    mapR as_number ratings = Return xs /\
    get_column "cluster" test = Return assigned /\
    get_column "predicted_rating" test = Return predicted /\
    length predicted = length assigned /\
    forall (j : nat) (k : Z),
      nth_error assigned j = Some (VInt k) -> In (VInt k) members ->
      nth_error predicted j
      = Some (mean_of (select (map (is_label k) labels) xs)).
Proof.
  intros E. destruct (fit_predict_facts _ _ _ _ _ _ _ _ E) as (_ & F).
  destruct F as (train & test & X & Xt & _ & _ & _ & _ & _ & _ & _ & _ & _ & _ & F).
  destruct F as (tf & table & test' & assigned & Htf & Hg & Ht & Hc & Hp & _).
  destruct (groupby_mean_columns _ _ Hg) as (members & ratings & labels & xs
                                             & Hm & Hr & Hl & Hx).
  exists tf, test', members, ratings, labels, xs, assigned,
         (map (series_map table) assigned).
  repeat (split; [assumption |]).
  split; [apply length_map |].
  intros j k Hj Hk. rewrite nth_error_map, Hj. simpl.
  rewrite (groupby_mean_present _ _ _ _ _ _ _ Hg Hm Hr Hl Hx Hk). reflexivity.
Qed.

End Queries.

(** ** More on the refiner *)

Lemma select_nth (f : value -> bool) :
  forall (us rs : list value) (j : nat) (R : value),
    nth_error (select (map f us) rs) j = Some R ->
    exists i u, nth_error us i = Some u /\ f u = true /\ nth_error rs i = Some R.
Proof.
  induction us as [| u us IH]; intros rs j R H; simpl in H.
  - destruct j; discriminate.
  - destruct rs as [| r rs]; [destruct j; discriminate |].
    destruct (f u) eqn:Ef.
    + destruct j as [| j]; simpl in H.
      * injection H as ->. exists 0%nat, u. auto.
      * destruct (IH rs j R H) as (i & u' & H1 & H2 & H3).
        exists (S i), u'. auto.
    + destruct (IH rs j R H) as (i & u' & H1 & H2 & H3).
      exists (S i), u'. auto.
Qed.

Lemma select_nth2 (f : value -> bool) :
  forall (us ms rs : list value) (j : nat) (m R : value),
    nth_error (select (map f us) ms) j = Some m ->
    nth_error (select (map f us) rs) j = Some R ->
    exists i u, nth_error us i = Some u /\ f u = true /\
                nth_error ms i = Some m /\ nth_error rs i = Some R.
Proof.
  induction us as [| u us IH]; intros ms rs j m R Hm Hr; simpl in Hm, Hr.
  - destruct j; discriminate.
  - destruct ms as [| m0 ms]; [destruct j; discriminate |].
    destruct rs as [| r0 rs]; [destruct j; discriminate |].
    destruct (f u) eqn:Ef.
    + destruct j as [| j]; simpl in Hm, Hr.
      * injection Hm as ->. injection Hr as ->. exists 0%nat, u. auto.
      * destruct (IH ms rs j m R Hm Hr) as (i & u' & H1 & H2 & H3 & H4).
        exists (S i), u'. auto.
    + destruct (IH ms rs j m R Hm Hr) as (i & u' & H1 & H2 & H3 & H4).
      exists (S i), u'. auto.
Qed.

Lemma select_nil_mask (mask : list bool) :
  forall (c : list value),
    (length mask <= length c)%nat -> select mask c = [] ->
    forall b, In b mask -> b = false.
Proof.
  induction mask as [| b0 mask IH]; intros c Hlen Hsel b Hb; [destruct Hb |].
  destruct c as [| x c]; simpl in Hlen; [lia |]. simpl in Hsel.
  destruct b0; [discriminate |].
  destruct Hb as [<- | Hb]; [reflexivity |].
  apply (IH c); [lia | exact Hsel | exact Hb].
Qed.

Lemma get_column_In (label : string) (df : DataFrame) (c : list value) :
  get_column label df = Return c -> In (label, c) df.
Proof.
  induction df as [| c0 df IH]; simpl; [discriminate |].
  destruct (String.eqb_spec label (fst c0)) as [E | N].
  - intros [= <-]. left. destruct c0; simpl in E. subst. reflexivity.
  - intros H. right. exact (IH H).
Qed.

Lemma rectangular_length (label : string) (df : DataFrame) (c : list value) :
  rectangular df -> get_column label df = Return c -> length c = nrows df.
Proof.
  intros Hr Hc. apply get_column_In in Hc. unfold rectangular in Hr.
  rewrite List.Forall_forall in Hr. exact (Hr _ Hc).
Qed.

Lemma get_column_drop_ne (labels : list string) (label : string) (df X : DataFrame) :
  drop_columns labels df = Return X -> ~ In label labels ->
  get_column label X = get_column label df.
Proof.
  intros HX Hn. apply drop_columns_filter in HX. subst X.
  induction df as [| c df IH]; simpl; [reflexivity |].
  destruct (existsb (String.eqb (fst c)) labels) eqn:Ex; simpl.
  - destruct (String.eqb_spec label (fst c)) as [E | N]; [| exact IH].
    exfalso. apply Hn. apply existsb_exists in Ex. destruct Ex as (l & Hl & El).
    apply String.eqb_eq in El. congruence.
  - destruct (String.eqb label (fst c)); [reflexivity | exact IH].
Qed.

Lemma match_rules_In (table : list Rule) (movie_genres : list string)
    (user_movies : list (value * list string)) (rule : Rule) (r : value) :
  In (rule, r) (match_rules table movie_genres user_movies) ->
  In rule table /\ issubset (consequents rule) movie_genres = true /\
  exists g, In (r, g) user_movies /\ issubset (antecedents rule) g = true.
Proof.
  unfold match_rules. intros H. apply in_flat_map in H.
  destruct H as (rule' & Hrule & H).
  destruct (issubset (consequents rule') movie_genres) eqn:Ec; [| destruct H].
  apply in_flat_map in H. destruct H as ([r' g] & Hm & H). simpl in H.
  destruct (issubset (antecedents rule') g) eqn:Ea; [| destruct H].
  destruct H as [[= <- <-] | []].
  split; [exact Hrule |]. split; [exact Ec |]. exists g. auto.
Qed.

(** X8: a rating that [filterRules] returns as already given stands in
    the dataset, in a row that carries the user and the movie. *)
Theorem filterRules_rating_on_file (B : Type) (userId movieId : Z) (df : DataFrame)
    (cluster : nat) (cluster_mean_ratings : B) (rules : list (list (list Rule)))
    (R : value) :
  filterRules userId movieId df cluster cluster_mean_ratings rules
  = Return (AlreadyRated R) ->
  exists i, carries "userId" (VInt userId) i df = true /\
            carries "movieId" (VInt movieId) i df = true /\
            cell "rating" i df = Some R.
Proof.
  unfold filterRules, rows_where.
  destruct (get_column "userId" df) as [e | us] eqn:Hus; simpl; [discriminate |].
  rewrite get_column_select_rows.
  destruct (get_column "movieId" df) as [e | ms] eqn:Hms; simpl; [discriminate |].
  set (f := fun x => val_eqb x (VInt userId)).
  set (g := fun x => val_eqb x (VInt movieId)).
  destruct (existsb g (select (map f us) ms)) eqn:Hex.
  - rewrite !get_column_select_rows.
    destruct (get_column "rating" df) as [e | rs] eqn:Hrs; simpl; [discriminate |].
    unfold index.
    destruct (nth_error _ 0) as [R' |] eqn:Hhd; simpl; [| discriminate].
    intros [= <-].
    destruct (select_nth g _ _ _ _ Hhd) as (j & m & Hj & Hg & Hr).
    destruct (select_nth2 f _ _ _ _ _ _ Hj Hr) as (i & u & Hu & Hf & Hm & HR).
    exists i. unfold carries, cell. rewrite Hus, Hms, Hrs, Hu, Hm. auto.
  - destruct (df_empty (select_rows (map f us) df)); [discriminate |].
    destruct (drop_columns _ (select_rows (map f us) df)) as [e | um];
      simpl; [discriminate |].
    destruct (get_column "rating" um) as [e | ratings]; simpl; [discriminate |].
    destruct (drop_columns id_columns _) as [e | feats]; simpl; [discriminate |].
    destruct (index rules 0) as [e | fold0]; simpl; [discriminate |].
    destruct (index fold0 cluster) as [e | table]; simpl; discriminate.
Qed.

(** X9: [filterRules] falls back to a baseline only for a user without a
    row, and the baseline is the one it was given. *)
Theorem filterRules_baseline_means_cold (B : Type) (userId movieId : Z)
    (df : DataFrame) (cluster : nat) (cluster_mean_ratings b : B)
    (rules : list (list (list Rule))) :
  filterRules userId movieId df cluster cluster_mean_ratings rules
  = Return (ColdUser b) ->
  b = cluster_mean_ratings /\
  (rectangular df -> forall i, carries "userId" (VInt userId) i df = false).
Proof.
  unfold filterRules, rows_where.
  destruct (get_column "userId" df) as [e | us] eqn:Hus; simpl; [discriminate |].
  rewrite get_column_select_rows.
  destruct (get_column "movieId" df) as [e | ms] eqn:Hms; simpl; [discriminate |].
  set (f := fun x => val_eqb x (VInt userId)).
  set (g := fun x => val_eqb x (VInt movieId)).
  destruct (existsb g (select (map f us) ms)) eqn:Hex.
  - rewrite !get_column_select_rows.
    destruct (get_column "rating" df) as [e | rs]; simpl; [discriminate |].
    unfold index. destruct (nth_error _ 0); simpl; discriminate.
  - destruct (df_empty (select_rows (map f us) df)) eqn:Hemp.
    + intros [= <-]. split; [reflexivity |]. intros Hrect i.
      unfold carries, cell. rewrite Hus.
      destruct (nth_error us i) as [u |] eqn:Hu; [| reflexivity].
      destruct df as [| c0 df']; [discriminate |].
      simpl in Hemp. apply Nat.eqb_eq in Hemp.
      apply length_zero_iff_nil in Hemp.
      assert (Hlen : (length (map f us) <= length (snd c0))%nat).
      { rewrite length_map, (rectangular_length _ _ _ Hrect Hus). simpl. lia. }
      apply (select_nil_mask _ _ Hlen Hemp (f u)).
      apply in_map. eapply nth_error_In. exact Hu.
    + destruct (drop_columns _ (select_rows (map f us) df)) as [e | um];
        simpl; [discriminate |].
      destruct (get_column "rating" um) as [e | ratings]; simpl; [discriminate |].
      destruct (drop_columns id_columns _) as [e | feats]; simpl; [discriminate |].
      destruct (index rules 0) as [e | fold0]; simpl; [discriminate |].
      destruct (index fold0 cluster) as [e | table]; simpl; discriminate.
Qed.

(** X10: the pairs that [filterRules] returns pair a rule of the table
    [rules[0][cluster]], the table at position [cluster] of the first
    fold, with a rating that the user gave in the dataset. *)
Theorem filterRules_rules_of_cluster (B : Type) (userId movieId : Z)
    (df : DataFrame) (cluster : nat) (cluster_mean_ratings : B)
    (rules : list (list (list Rule))) (l : list (Rule * value)) :
  filterRules userId movieId df cluster cluster_mean_ratings rules
  = Return (ImportantRules l) ->
  exists fold0 table,
    index rules 0 = Return fold0 /\ index fold0 cluster = Return table /\
    forall rule r, In (rule, r) l ->
      In rule table /\
      exists i, carries "userId" (VInt userId) i df = true /\
                cell "rating" i df = Some r.
Proof.
  unfold filterRules, rows_where.
  destruct (get_column "userId" df) as [e | us] eqn:Hus; simpl; [discriminate |].
  rewrite get_column_select_rows.
  destruct (get_column "movieId" df) as [e | ms] eqn:Hms; simpl; [discriminate |].
  set (f := fun x => val_eqb x (VInt userId)).
  set (g := fun x => val_eqb x (VInt movieId)).
  destruct (existsb g (select (map f us) ms)) eqn:Hex.
  - rewrite !get_column_select_rows.
    destruct (get_column "rating" df) as [e | rs]; simpl; [discriminate |].
    unfold index. destruct (nth_error _ 0); simpl; discriminate.
  - destruct (df_empty (select_rows (map f us) df)); [discriminate |].
    destruct (drop_columns _ (select_rows (map f us) df)) as [e | um] eqn:Hum;
      simpl; [discriminate |].
    destruct (get_column "rating" um) as [e | ratings] eqn:Hr; simpl;
      [discriminate |].
    rewrite (get_column_drop_ne _ "rating" _ _ Hum) in Hr
      by (intros [E | [E | [E | []]]]; discriminate).
    rewrite get_column_select_rows in Hr.
    destruct (get_column "rating" df) as [e | rs] eqn:Hrs; simpl in Hr;
      [discriminate |].
    injection Hr as <-.
    destruct (drop_columns id_columns _) as [e | feats]; simpl; [discriminate |].
    destruct (index rules 0) as [e | fold0] eqn:Hf0; simpl; [discriminate |].
    destruct (index fold0 cluster) as [e | table] eqn:Htab; simpl; [discriminate |].
    intros [= <-]. exists fold0, table. split; [reflexivity |].
    split; [exact Htab |].
    intros rule r Hin. apply match_rules_In in Hin.
    destruct Hin as (Hrule & _ & gs & Hm & _).
    split; [exact Hrule |].
    apply in_combine_l in Hm. apply In_nth_error in Hm. destruct Hm as [j Hj].
    destruct (select_nth f _ _ _ _ Hj) as (i & u & Hu & Hf & HR).
    exists i. unfold carries, cell. rewrite Hus, Hrs, Hu. auto.
Qed.

(** ** More on the sweep *)

Section SweepResults.
Context {K : Clusterer}.

Lemma foldM_lengths (n : nat) (trains tests : list loc) :
  forall (idx : list nat) (acc : sweep) (h : heap) (sw : sweep) (h' : heap),
    foldM (fold_body n trains tests) acc idx h = (Return sw, h') ->
    length (fst (fst sw)) = (length (fst (fst acc)) + length idx)%nat /\
    length (snd (fst sw)) = (length (snd (fst acc)) + length idx)%nat /\
    forall i, In i idx -> exists te, index tests i = Return te.
Proof.
  induction idx as [| i idx IH]; intros acc h sw h' R; simpl in R.
  - injection R as <- <-. simpl. split; [lia |]. split; [lia |]. intros i [].
  - apply bind_Return in R. destruct R as (a1 & g1 & B1 & R).
    apply fold_body_Return in B1.
    destruct B1 as (tr & te & k & y & t & m & Hi & Hte & _ & ->).
    destruct (IH _ _ _ _ R) as (L1 & L2 & L3). simpl in L1, L2.
    rewrite length_app in L1, L2. simpl in L1, L2. simpl.
    split; [lia |]. split; [lia |].
    intros j [<- | Hj]; [eauto | exact (L3 j Hj)].
Qed.

(** X11: a sweep that returns has one error and one model per train
    frame, and had a test frame for each. *)
Theorem sweep_one_result_per_fold (trains tests : list loc) (n : nat) (h h' : heap)
    (mse_list : list Q) (models : list model) (train_dfs : list loc) :
  train_kmeans_and_predict trains tests n h
  = (Return (mse_list, models, train_dfs), h') ->
  length mse_list = length trains /\ length models = length trains /\
  (length trains <= length tests)%nat.
Proof.
  intros E. unfold train_kmeans_and_predict in E.
  destruct (foldM_lengths _ _ _ _ _ _ _ _ E) as (L1 & L2 & L3).
  simpl in L1, L2. rewrite length_seq in L1, L2.
  split; [exact L1 |]. split; [exact L2 |].
  destruct (length trains) as [| m] eqn:Em; [lia |].
  destruct (L3 m) as [te Hte]; [apply in_seq; lia |].
  apply index_lt in Hte. assert (nth_error tests m <> None) by congruence.
  apply nth_error_Some in H. lia.
Qed.

Lemma foldM_labelled (n : nat) (trains tests : list loc) :
  List.NoDup trains -> (forall l, In l tests -> ~ In l trains) ->
  forall (idx : list nat) (acc : sweep) (h : heap) (sw : sweep) (h' : heap),
    List.NoDup idx ->
    (forall tr, In tr (snd acc) -> In tr trains) ->
    (forall i tr, In i idx -> index trains i = Return tr -> ~ In tr (snd acc)) ->
    Forall2 (labelled h) (snd (fst acc)) (snd acc) ->
    foldM (fold_body n trains tests) acc idx h = (Return sw, h') ->
    Forall2 (labelled h') (snd (fst sw)) (snd sw).
Proof.
  intros Hnd Hdis. induction idx as [| i idx IH];
    intros acc h sw h' Hidx Hsub Hnew Hinv R; simpl in R.
  - injection R as <- <-. exact Hinv.
  - apply bind_Return in R. destruct R as (a1 & g1 & B1 & R).
    apply fold_body_Return in B1.
    destruct B1 as (tr & te & k & y & t & m & Hi & Hte & Hfp & ->).
    destruct (fit_predict_facts _ _ _ _ _ _ _ _ Hfp) as ([G U] & F).
    destruct F as (train & test & X & Xt & Htrain & _ & _ & _ & _ & _ & Hor & _ & _
                   & Hset & _).
    inversion Hidx as [| ? ? Hni Hidx']; subst.
    pose proof (index_In _ _ _ Hi) as Htr_in.
    pose proof (index_In _ _ _ Hte) as Hte_in.
    refine (IH _ g1 sw h' Hidx' _ _ _ R); simpl.
    + intros tr' Hin. apply in_app_iff in Hin.
      destruct Hin as [Hin | [<- | []]]; [exact (Hsub _ Hin) | exact Htr_in].
    + intros j tr' Hj Hjtr Hin. apply in_app_iff in Hin.
      destruct Hin as [Hin | [<- | []]].
      * exact (Hnew j tr' (or_intror Hj) Hjtr Hin).
      * apply index_lt in Hi, Hjtr.
        assert (i = j).
        { eapply (proj1 (List.NoDup_nth_error trains) Hnd);
            [apply nth_error_Some; congruence | congruence]. }
        subst j. contradiction.
    + apply Forall2_app.
      * eapply Forall2_impl_In; [exact Hinv |].
        intros k' tr' Hin (df & Hdf & Hcol). exists df. split; [| exact Hcol].
        rewrite <- Hdf. apply U.
        split; [eapply lookup_lt_Some; exact Hdf |]. split.
        -- intros ->. exact (Hnew i tr (or_introl eq_refl) Hi Hin).
        -- intros ->. exfalso. exact (Hdis _ Hte_in (Hsub _ Hin)).
      * constructor; [| constructor].
        assert (N : t <> tr).
        { destruct Hor as [-> | Hge]; [intros ->; exact (Hdis _ Hte_in Htr_in) |].
          apply lookup_lt_Some in Htrain. lia. }
        destruct (Hset N) as (train' & Hs & Hl). exists train'.
        split; [exact Hl |]. apply set_column_replace in Hs. subst train'.
        apply get_column_replace_eq.
Qed.

(** X12: where the train frames are distinct objects and none is a test
    frame, every returned train frame carries in its [cluster] column
    the labels of the model returned with it. *)
Theorem sweep_labels_train_frames (trains tests : list loc) (n : nat) (h h' : heap)
    (mse_list : list Q) (models : list model) (train_dfs : list loc) :
  List.NoDup trains -> (forall l, In l tests -> ~ In l trains) ->
  train_kmeans_and_predict trains tests n h
  = (Return (mse_list, models, train_dfs), h') ->
  forall i tr k, nth_error train_dfs i = Some tr -> nth_error models i = Some k ->
    exists df, h' !! tr = Some df /\
               get_column "cluster" df = Return (map VInt (labels_ k)).
Proof.
  intros Hnd Hdis E i tr k Htr Hk. unfold train_kmeans_and_predict in E.
  assert (F : Forall2 (labelled h') models train_dfs).
  { apply (foldM_labelled n trains tests Hnd Hdis _ _ _ _ _
             (List.seq_NoDup _ _)) in E; [exact E | | | constructor].
    - intros tr' [].
    - intros j tr' _ _ []. }
  exact (Forall2_nth_error _ _ _ F i k tr Hk Htr).
Qed.

End SweepResults.

(** ** Splitting into folds *)

Lemma extends_refl (h : heap) : extends h h.
Proof. exists []. rewrite app_nil_r. reflexivity. Qed.

Lemma extends_trans (h1 h2 h3 : heap) : extends h1 h2 -> extends h2 h3 -> extends h1 h3.
Proof. intros [e1 ->] [e2 ->]. exists (e1 ++ e2)%list. rewrite app_assoc. reflexivity. Qed.

Lemma extends_alloc (h : heap) (df : DataFrame) : extends h (h ++ [df]).
Proof. exists [df]. reflexivity. Qed.

Lemma extends_lookup (h h' : heap) (l : loc) (df : DataFrame) :
  extends h h' -> h !! l = Some df -> h' !! l = Some df.
Proof.
  intros [ext ->] H. rewrite lookup_app_l; [exact H | eapply lookup_lt_Some; exact H].
Qed.

Lemma split_body_extends (data : loc) (acc : list loc * list loc)
    (fold : list nat * list nat) (h : heap) :
  wp (split_body data acc fold) (extends h) (fun _ h' => extends h h') h.
Proof.
  pose proof (extends_refl h) as I0.
  unfold split_body. destruct acc as [trs tes]. destruct fold as [tri tei].
  do 2 wp_pure I0. apply wp_bind, wp_alloc.
  match goal with
  | |- context [(h ++ [?x])%list] => pose proof (extends_alloc h x) as I1
  end.
  do 2 wp_pure I1. apply wp_bind, wp_alloc. apply wp_ret.
  eapply extends_trans; [exact I1 | apply extends_alloc].
Qed.

Lemma foldM_split_extends (data : loc) (h0 : heap) :
  forall (folds : Splits) (acc : list loc * list loc) (h : heap),
    extends h0 h ->
    wp (foldM (split_body data) acc folds) (extends h0) (fun _ h' => extends h0 h') h.
Proof.
  induction folds as [| fold folds IH]; intros acc h Hh; simpl.
  - apply wp_ret. exact Hh.
  - apply wp_bind.
    apply (wp_conseq _ _ _ _ _ _ (split_body_extends data acc fold h)).
    + intros h' Hh'. eapply extends_trans; eassumption.
    + intros acc' h' Hh'. apply IH. eapply extends_trans; eassumption.
Qed.

(** X13: [return_datasets] works on copies: whether it returns or raises,
    every frame that was there before is as it was, the caller's [data]
    among them. *)
Theorem return_datasets_keeps_store (data : loc) (kf : nat -> result Splits)
    (h : heap) (r : result (list loc * list loc)) (h' : heap) :
  return_datasets data kf h = (r, h') ->
  forall l df, h !! l = Some df -> h' !! l = Some df.
Proof.
  intros E l df Hl. apply (extends_lookup h h' l df); [| exact Hl].
  assert (W : wp (return_datasets data kf) (extends h) (fun _ h' => extends h h') h).
  { pose proof (extends_refl h) as I0. unfold return_datasets.
    wp_pure I0. apply wp_bind, wp_alloc.
    match goal with
    | |- context [(h ++ [?x])%list] => pose proof (extends_alloc h x) as I1
    end.
    do 2 wp_pure I1. apply foldM_split_extends. exact I1. }
  pose proof (wp_run _ _ _ _ _ _ W E) as R. destruct r; exact R.
Qed.

Lemma split_body_Return (data : loc) (acc out : list loc * list loc)
    (fold : list nat * list nat) (h h' : heap) :
  split_body data acc fold h = (Return out, h') ->
  exists df a b,
    h !! data = Some df /\
    iloc (fst fold) df = Return a /\ iloc (snd fold) df = Return b /\
    h' = (h ++ [a; b])%list /\
    out = ((fst acc ++ [length h])%list, (snd acc ++ [S (length h)])%list).
Proof.
  unfold split_body. destruct acc as [trs tes]. destruct fold as [tri tei].
  unfold bind, deref, lift, alloc, ret.
  destruct (h !! data) as [df |] eqn:Hd; [| discriminate].
  destruct (iloc tri df) as [e | a] eqn:Ha; [discriminate |].
  rewrite lookup_app_l by (eapply lookup_lt_Some; exact Hd). rewrite Hd.
  destruct (iloc tei df) as [e | b] eqn:Hb; [discriminate |].
  intros [= <- <-]. exists df, a, b. simpl.
  rewrite length_app, <- app_assoc. simpl. rewrite Nat.add_1_r. auto.
Qed.

Lemma foldM_split_Return (data : loc) (df : DataFrame) :
  forall (folds : Splits) (acc out : list loc * list loc) (h h' : heap),
    h !! data = Some df ->
    foldM (split_body data) acc folds h = (Return out, h') ->
    exists frames,
      Forall2 (fun fold ab => iloc (fst fold) df = Return (fst ab) /\
                              iloc (snd fold) df = Return (snd ab)) folds frames /\
      h' = (h ++ interleave frames)%list /\
      fst out = (fst acc ++ map (fun j => length h + 2 * j)%nat
                               (seq 0 (length folds)))%list /\
      snd out = (snd acc ++ map (fun j => length h + 2 * j + 1)%nat
                               (seq 0 (length folds)))%list.
Proof.
  induction folds as [| fold folds IH]; intros acc out h h' Hd R; simpl in R.
  - injection R as <- <-. exists []. simpl. rewrite !app_nil_r.
    split; [constructor | auto].
  - apply bind_Return in R. destruct R as (acc1 & h1 & B & R).
    apply split_body_Return in B.
    destruct B as (df' & a & b & Hd' & Ha & Hb & -> & ->).
    assert (df' = df) by congruence. subst df'.
    assert (Hd1 : (h ++ [a; b])%list !! data = Some df)
      by (rewrite lookup_app_l; [exact Hd | eapply lookup_lt_Some; exact Hd]).
    destruct (IH _ _ _ _ Hd1 R) as (frames & HF & -> & Htr & Hte).
    exists ((a, b) :: frames). simpl in *.
    split; [constructor; auto |].
    split; [rewrite <- app_assoc; reflexivity |].
    rewrite length_app in Htr, Hte. simpl in Htr, Hte.
    rewrite Htr, Hte, <- !app_assoc, <- seq_shift, !map_map. simpl.
    split; (f_equal; f_equal; [lia | apply map_ext; intros j; lia]).
Qed.

Lemma interleave_lookup (frames : list (DataFrame * DataFrame)) :
  forall (j : nat) (a b : DataFrame),
    nth_error frames j = Some (a, b) ->
    interleave frames !! (2 * j)%nat = Some a /\
    interleave frames !! (2 * j + 1)%nat = Some b.
Proof.
  induction frames as [| ab frames IH]; intros j a b H; [destruct j; discriminate |].
  destruct j as [| j]; simpl in H.
  - injection H as ->. simpl. auto.
  - destruct (IH j a b H) as [H1 H2].
    replace (2 * S j + 1)%nat with (S (S (2 * j + 1))) by lia.
    replace (2 * S j)%nat with (S (S (2 * j))) by lia.
    split; [exact H1 | exact H2].
Qed.

Lemma get_column_map_cells (g : list value -> list value) (label : string)
    (df : DataFrame) :
  get_column label (map (fun c => (fst c, g (snd c))) df)
  = rbind (get_column label df) (fun c => Return (g c)).
Proof.
  induction df as [| c df IH]; simpl; [reflexivity |].
  destruct (String.eqb label (fst c)); [reflexivity | exact IH].
Qed.

Lemma iloc_Return (positions : list nat) (df a : DataFrame) :
  iloc positions df = Return a ->
  (forall p, In p positions -> (p < nrows df)%nat) /\
  a = map (fun c => (fst c, map (fun i => nth i (snd c) VNaN) positions)) df.
Proof.
  unfold iloc. destruct (existsb _ positions) eqn:E; [discriminate |].
  intros [= <-]. split; [| reflexivity].
  intros p Hp. destruct (Nat.leb_spec (nrows df) p) as [Hle | Hlt]; [| exact Hlt].
  assert (existsb (fun i => Nat.leb (nrows df) i) positions = true).
  { apply existsb_exists. exists p. split; [exact Hp | apply Nat.leb_le; exact Hle]. }
  congruence.
Qed.

(** Row [i] of [df.iloc[positions]] is the row of [df] at the [i]-th of
    the positions. *)
Lemma iloc_rows (positions : list nat) (df a : DataFrame) :
  rectangular df -> iloc positions df = Return a ->
  columns a = columns df /\
  forall label i p, nth_error positions i = Some p ->
    (p < nrows df)%nat /\ cell label i a = cell label p df.
Proof.
  intros Hrect H. apply iloc_Return in H. destruct H as [Hin ->]. split.
  - unfold columns. rewrite map_map. reflexivity.
  - intros label i p Hp. pose proof (Hin p (nth_error_In _ _ Hp)) as Hlt.
    split; [exact Hlt |]. unfold cell.
    rewrite (get_column_map_cells (fun c => map (fun i => nth i c VNaN) positions)).
    destruct (get_column label df) as [e | c] eqn:Hc; simpl; [reflexivity |].
    rewrite nth_error_map, Hp. simpl.
    rewrite <- (rectangular_length _ _ _ Hrect Hc) in Hlt.
    symmetry. apply nth_error_nth'. exact Hlt.
Qed.

Lemma return_datasets_Return (data : loc) (kf : nat -> result Splits)
    (h h' : heap) (trains tests : list loc) :
  return_datasets data kf h = (Return (trains, tests), h') ->
  exists df folds frames,
    h !! data = Some df /\ kf (nrows df) = Return folds /\
    Forall2 (fun fold ab => iloc (fst fold) df = Return (fst ab) /\
                            iloc (snd fold) df = Return (snd ab)) folds frames /\
    h' = ((h ++ [df]) ++ interleave frames)%list /\
    trains = map (fun j => S (length h) + 2 * j)%nat (seq 0 (length folds)) /\
    tests = map (fun j => S (length h) + 2 * j + 1)%nat (seq 0 (length folds)).
Proof.
  unfold return_datasets. unfold bind at 1, deref at 1.
  destruct (h !! data) as [df |] eqn:Hd; [| discriminate].
  unfold bind at 1, alloc at 1. unfold bind at 1, deref at 1.
  rewrite lookup_app_r by lia. rewrite Nat.sub_diag. simpl.
  unfold bind at 1, lift at 1.
  destruct (kf (nrows df)) as [e | folds] eqn:Hk; [discriminate |].
  intros R.
  assert (Hd1 : (h ++ [df])%list !! length h = Some df)
    by (rewrite lookup_app_r by lia; rewrite Nat.sub_diag; reflexivity).
  destruct (foldM_split_Return _ _ _ _ _ _ _ Hd1 R) as (frames & HF & -> & Htr & Hte).
  exists df, folds, frames. simpl in Htr, Hte.
  rewrite length_app in Htr, Hte. simpl in Htr, Hte.
  rewrite Nat.add_1_r in Htr, Hte. auto 10.
Qed.

(** X14: [return_datasets] returns one train and one test frame per
    split, all of them distinct new objects, none of them the copy of
    [data]. *)
Theorem return_datasets_fresh_folds (data : loc) (kf : nat -> result Splits)
    (h h' : heap) (trains tests : list loc) :
  return_datasets data kf h = (Return (trains, tests), h') ->
  (exists df folds, h !! data = Some df /\ kf (nrows df) = Return folds /\
                    length trains = length folds /\ length tests = length folds) /\
  List.NoDup (trains ++ tests) /\
  forall l, In l (trains ++ tests) -> (length h < l)%nat.
Proof.
  intros E. apply return_datasets_Return in E.
  destruct E as (df & folds & frames & Hd & Hk & _ & _ & -> & ->).
  split; [exists df, folds; rewrite !length_map, !length_seq; auto |].
  split.
  - apply List.NoDup_app.
    + apply List.NoDup_map_NoDup_ForallPairs; [| apply List.seq_NoDup].
      intros x y _ _ Hxy. lia.
    + apply List.NoDup_map_NoDup_ForallPairs; [| apply List.seq_NoDup].
      intros x y _ _ Hxy. lia.
    + intros l H1 H2. apply in_map_iff in H1, H2.
      destruct H1 as (x & <- & _). destruct H2 as (y & Hy & _). lia.
  - intros l Hl. apply in_app_iff in Hl.
    destruct Hl as [Hl | Hl]; apply in_map_iff in Hl; destruct Hl as (x & <- & _); lia.
Qed.

(** X15: the train and the test frame of fold [j] have the columns of
    [data], and their row [i] is the row of [data] at the [i]-th
    position of the split. *)
Theorem return_datasets_rows (data : loc) (kf : nat -> result Splits)
    (h h' : heap) (trains tests : list loc) (df : DataFrame) (folds : Splits)
    (j : nat) (train_index test_index : list nat) :
  return_datasets data kf h = (Return (trains, tests), h') ->
  h !! data = Some df -> rectangular df -> kf (nrows df) = Return folds ->
  nth_error folds j = Some (train_index, test_index) ->
  exists tr te train test,
    nth_error trains j = Some tr /\ nth_error tests j = Some te /\
    h' !! tr = Some train /\ h' !! te = Some test /\
    columns train = columns df /\ columns test = columns df /\
    (forall label i p, nth_error train_index i = Some p ->
       (p < nrows df)%nat /\ cell label i train = cell label p df) /\
    (forall label i p, nth_error test_index i = Some p ->
       (p < nrows df)%nat /\ cell label i test = cell label p df).
Proof.
  intros E Hd Hrect Hk Hj. apply return_datasets_Return in E.
  destruct E as (df' & folds' & frames & Hd' & Hk' & HF & -> & -> & ->).
  assert (df' = df) by congruence. subst df'.
  assert (folds' = folds) by congruence. subst folds'.
  assert (Hjlt : (j < length folds)%nat)
    by (apply nth_error_Some; congruence).
  destruct (nth_error frames j) as [[a b] |] eqn:Hf.
  2:{ apply nth_error_None in Hf. apply Forall2_length in HF. lia. }
  destruct (Forall2_nth_error _ _ _ HF j _ _ Hj Hf) as [Ha Hb]. simpl in Ha, Hb.
  destruct (interleave_lookup _ _ _ _ Hf) as [La Lb].
  destruct (iloc_rows _ _ _ Hrect Ha) as [Ca Ra].
  destruct (iloc_rows _ _ _ Hrect Hb) as [Cb Rb].
  exists (S (length h) + 2 * j)%nat, (S (length h) + 2 * j + 1)%nat, a, b.
  pose proof (proj2 (Nat.ltb_lt _ _) Hjlt) as Hjb.
  split; [rewrite nth_error_map, nth_error_seq, Hjb; reflexivity |].
  split; [rewrite nth_error_map, nth_error_seq, Hjb; reflexivity |].
  assert (L : forall k, ((h ++ [df]) ++ interleave frames)%list !! (S (length h) + k)%nat
                        = interleave frames !! k).
  { intros k. rewrite lookup_app_r by (rewrite length_app; simpl; lia).
    f_equal. rewrite length_app. simpl. lia. }
  split; [rewrite L; exact La |].
  split.
  { replace (S (length h) + 2 * j + 1)%nat with (S (length h) + (2 * j + 1))%nat by lia.
    rewrite L. exact Lb. }
  auto.
Qed.

(** ** The users with the most ratings *)

Lemma shrinking_data_Return (n : Z) (df out : DataFrame) :
  shrinking_data n df = Return out ->
  exists users movies labels,
    get_column "userId" df = Return users /\
    get_column "movieId" df = Return movies /\
    mapR as_label users = Return labels /\
    out = select_rows
            (map (isin (map fst (nlargest n
                    (map (fun k => (k, count_cells (select (map (is_label k) labels)
                                                           movies)))
                         (group_keys labels))))) users) df.
Proof.
  unfold shrinking_data, groupby_count.
  destruct (get_column "userId" df) as [e | users] eqn:Hu; simpl; [discriminate |].
  destruct (get_column "movieId" df) as [e | movies] eqn:Hm; simpl; [discriminate |].
  destruct (mapR as_label users) as [e | labels] eqn:Hl; simpl; [discriminate |].
  intros [= <-]. exists users, movies, labels. auto.
Qed.

Lemma select_length_le {A} (mask : list bool) :
  forall (c : list A), (length (select mask c) <= length c)%nat.
Proof.
  induction mask as [| b mask IH]; intros [| x c]; simpl; try lia.
  destruct b; simpl; specialize (IH c); lia.
Qed.

Lemma select_all_false {A} (mask : list bool) :
  (forall b, In b mask -> b = false) -> forall (c : list A), select mask c = [].
Proof.
  induction mask as [| b mask IH]; intros H [| x c]; simpl; try reflexivity.
  rewrite (H b (or_introl eq_refl)). apply IH. intros b' Hb'. apply H. right. exact Hb'.
Qed.

(** X16: for [n <= 0] the result keeps the columns and no row. *)
Theorem shrinking_data_none (n : Z) (df out : DataFrame) :
  (n <= 0)%Z -> shrinking_data n df = Return out ->
  columns out = columns df /\ nrows out = 0%nat.
Proof.
  intros Hn E. apply shrinking_data_Return in E.
  destruct E as (users & movies & labels & Hu & _ & _ & ->).
  split; [apply columns_select_rows |].
  unfold nlargest. replace (Z.to_nat n) with 0%nat by lia. simpl.
  destruct df as [| c df]; [reflexivity |]. simpl.
  rewrite select_all_false; [reflexivity |].
  intros b Hb. apply in_map_iff in Hb. destruct Hb as (v & <- & _).
  destruct v; reflexivity.
Qed.

Lemma as_label_cells (cells : list value) :
  forall labels, mapR as_label cells = Return labels ->
    labels = map int_label cells /\
    forall v, In v cells -> v = VNaN \/ exists k, v = VInt k.
Proof.
  induction cells as [| c cells IH]; simpl; intros labels.
  - intros [= <-]. split; [reflexivity | intros v []].
  - destruct (as_label c) as [e | l] eqn:El; simpl; [discriminate |].
    destruct (mapR as_label cells) as [e | ls]; simpl; [discriminate |].
    intros [= <-]. destruct (IH ls eq_refl) as [-> Hc]. split.
    + simpl. f_equal. destruct c; simpl in El; simpl; congruence.
    + intros v [<- | Hv]; [| exact (Hc v Hv)].
      destruct c; simpl in El; try discriminate; eauto.
Qed.

Lemma as_label_ints (cells : list value) :
  (forall v, In v cells -> v = VNaN \/ exists k, v = VInt k) ->
  mapR as_label cells = Return (map int_label cells).
Proof.
  induction cells as [| c cells IH]; intros H; simpl; [reflexivity |].
  rewrite IH by (intros v Hv; apply H; right; exact Hv).
  destruct (H c (or_introl eq_refl)) as [-> | [k ->]]; reflexivity.
Qed.

Lemma insert_key_sorted (k : Z) (ks : list Z) :
  StronglySorted Z.lt ks -> StronglySorted Z.lt (insert_key k ks).
Proof.
  induction 1 as [| k' ks Hs IH Hall]; simpl.
  - constructor; constructor.
  - destruct (Z.ltb_spec k k') as [Hlt | Hge].
    + constructor; [constructor; assumption |].
      constructor; [exact Hlt |].
      eapply List.Forall_impl; [| exact Hall]. intros x Hx. simpl in Hx. lia.
    + destruct (Z.eqb_spec k k') as [-> | Hne]; [constructor; assumption |].
      constructor; [exact IH |].
      rewrite List.Forall_forall. intros x Hx.
      apply insert_key_In in Hx. destruct Hx as [-> | Hx]; [lia |].
      rewrite List.Forall_forall in Hall. exact (Hall x Hx).
Qed.

Lemma group_keys_sorted (labels : list (option Z)) :
  StronglySorted Z.lt (group_keys labels).
Proof.
  induction labels as [| l labels IH]; simpl; [constructor |].
  destruct l; [apply insert_key_sorted |]; exact IH.
Qed.

Lemma sorted_NoDup (ks : list Z) : StronglySorted Z.lt ks -> List.NoDup ks.
Proof.
  induction 1 as [| k ks Hs IH Hall]; constructor; [| exact IH].
  intros Hin. rewrite List.Forall_forall in Hall. specialize (Hall k Hin). lia.
Qed.

Lemma group_keys_NoDup (labels : list (option Z)) : List.NoDup (group_keys labels).
Proof. apply sorted_NoDup, group_keys_sorted. Qed.

Lemma insert_desc_In (x y : Z * nat) (l : list (Z * nat)) :
  In x (insert_desc y l) <-> x = y \/ In x l.
Proof.
  induction l as [| z l IH]; simpl; [intuition |].
  destruct (Nat.ltb (snd z) (snd y)); simpl; [intuition |].
  rewrite IH. intuition.
Qed.

Lemma insert_desc_length (y : Z * nat) (l : list (Z * nat)) :
  length (insert_desc y l) = S (length l).
Proof.
  induction l as [| z l IH]; simpl; [reflexivity |].
  destruct (Nat.ltb (snd z) (snd y)); simpl; [reflexivity | rewrite IH; reflexivity].
Qed.

Lemma insert_desc_descending (y : Z * nat) (l : list (Z * nat)) :
  descending l -> descending (insert_desc y l).
Proof.
  unfold descending. induction 1 as [| z l Hs IH Hall]; simpl.
  - constructor; constructor.
  - destruct (Nat.ltb_spec (snd z) (snd y)) as [Hlt | Hge].
    + constructor; [constructor; assumption |].
      constructor; [lia |].
      eapply List.Forall_impl; [| exact Hall]. intros x Hx. simpl in Hx. lia.
    + constructor; [exact IH |].
      rewrite List.Forall_forall. intros x Hx.
      apply insert_desc_In in Hx. destruct Hx as [-> | Hx]; [exact Hge |].
      rewrite List.Forall_forall in Hall. exact (Hall x Hx).
Qed.

Lemma sort_desc_spec (l : list (Z * nat)) :
  descending (sort_desc l) /\ length (sort_desc l) = length l /\
  forall x, In x (sort_desc l) <-> In x l.
Proof.
  unfold sort_desc.
  assert (G : forall acc, descending acc ->
    descending (fold_left (fun acc x => insert_desc x acc) l acc) /\
    length (fold_left (fun acc x => insert_desc x acc) l acc)
    = (length l + length acc)%nat /\
    forall x, In x (fold_left (fun acc x => insert_desc x acc) l acc)
              <-> In x l \/ In x acc).
  { induction l as [| y l IH]; intros acc Hacc; simpl.
    - split; [exact Hacc |]. split; [reflexivity | intuition].
    - destruct (IH (insert_desc y acc) (insert_desc_descending y acc Hacc))
        as (D & L & I).
      split; [exact D |]. split; [rewrite L, insert_desc_length; lia |].
      intros x. rewrite I, insert_desc_In. intuition. }
  destruct (G [] ltac:(constructor)) as (D & L & I).
  split; [exact D |]. split; [rewrite L; simpl; lia |].
  intros x. rewrite I. simpl. intuition.
Qed.

Lemma descending_split (l : list (Z * nat)) :
  descending l -> forall n x y, In x (firstn n l) -> In y (skipn n l) ->
  (snd y <= snd x)%nat.
Proof.
  unfold descending. induction 1 as [| z l Hs IH Hall]; intros n x y Hx Hy.
  - destruct n; destruct Hx.
  - destruct n as [| n]; [destruct Hx |]. simpl in Hx, Hy.
    destruct Hx as [<- | Hx]; [| exact (IH n x y Hx Hy)].
    rewrite List.Forall_forall in Hall. apply Hall.
    rewrite <- (firstn_skipn n l). apply in_or_app. right. exact Hy.
Qed.

Lemma isin_In (index : list Z) (k : Z) : isin index (VInt k) = true <-> In k index.
Proof.
  simpl. rewrite existsb_exists. split.
  - intros (x & Hx & E). apply Z.eqb_eq in E. congruence.
  - intros H. exists k. split; [exact H | apply Z.eqb_refl].
Qed.

Lemma select_In (f : value -> bool) (us : list value) (x : value) :
  In x (select (map f us) us) -> In x us /\ f x = true.
Proof.
  intros H. apply In_nth_error in H. destruct H as [j Hj].
  destruct (select_nth f _ _ _ _ Hj) as (i & u & Hu & Hf & Hx).
  assert (u = x) by congruence. subst u.
  split; [eapply nth_error_In; exact Hx | exact Hf].
Qed.

(** X17: the result holds rows of at most [n] distinct users. *)
Theorem shrinking_data_at_most_n (n : Z) (df out : DataFrame)
    (users_out : list value) (labels_out : list (option Z)) :
  shrinking_data n df = Return out ->
  get_column "userId" out = Return users_out ->
  mapR as_label users_out = Return labels_out ->
  (length (group_keys labels_out) <= Z.to_nat n)%nat.
Proof.
  intros E Hu Hl. apply shrinking_data_Return in E.
  destruct E as (users & movies & labels & Hus & _ & _ & ->).
  rewrite get_column_select_rows, Hus in Hu. simpl in Hu. injection Hu as <-.
  set (tops := map fst (nlargest n _)) in *.
  apply Nat.le_trans with (length tops).
  - apply List.NoDup_incl_length; [apply group_keys_NoDup |].
    intros k Hk. apply group_keys_In in Hk.
    apply (as_label_In k _ _ Hl) in Hk. apply select_In in Hk.
    apply isin_In. exact (proj2 Hk).
  - unfold tops, nlargest. rewrite length_map. apply firstn_le_length.
Qed.

Lemma select_select (f m : value -> bool) :
  forall (us c : list value),
    (forall x, In x us -> f x = true -> m x = true) ->
    select (map f (select (map m us) us)) (select (map m us) c)
    = select (map f us) c.
Proof.
  induction us as [| u us IH]; intros c H; simpl; [reflexivity |].
  assert (H' : forall x, In x us -> f x = true -> m x = true)
    by (intros x Hx; apply H; right; exact Hx).
  destruct c as [| x c].
  - destruct (m u); simpl; [destruct (f u) |]; try reflexivity.
    destruct (select (map m us) us); reflexivity.
  - destruct (m u) eqn:Em; simpl.
    + destruct (f u); rewrite IH by exact H'; reflexivity.
    + destruct (f u) eqn:Ef; [| apply IH; exact H'].
      rewrite (H u (or_introl eq_refl) Ef) in Em. discriminate.
Qed.

(** X18: a user who is in the result is there with every one of their
    rows: the rows of the user are those of the input. *)
Theorem shrinking_data_whole_histories (n : Z) (df out : DataFrame) (u : Z) (i : nat) :
  shrinking_data n df = Return out ->
  carries "userId" (VInt u) i out = true ->
  rows_where "userId" (VInt u) out = rows_where "userId" (VInt u) df.
Proof.
  intros E Hc. apply shrinking_data_Return in E.
  destruct E as (users & movies & labels & Hus & _ & Hl & ->).
  set (tops := map fst (nlargest n _)) in *.
  destruct (as_label_cells _ _ Hl) as [_ Hcells].
  assert (Hkept : isin tops (VInt u) = true).
  { apply carries_column in Hc. destruct Hc as (c & x & Hcol & Hx & Hv).
    rewrite get_column_select_rows, Hus in Hcol. simpl in Hcol. injection Hcol as <-.
    apply nth_error_In in Hx. apply select_In in Hx. destruct Hx as [Hin Hm].
    destruct (Hcells x Hin) as [-> | [k ->]]; [discriminate |].
    simpl in Hv. apply Z.eqb_eq in Hv. subst k. exact Hm. }
  unfold rows_where. rewrite get_column_select_rows, Hus. simpl. f_equal.
  unfold select_rows. rewrite map_map. apply map_ext. intros c. simpl. f_equal.
  apply select_select. intros x Hx Hf.
  destruct (Hcells x Hx) as [-> | [k ->]]; [discriminate |].
  simpl in Hf. apply Z.eqb_eq in Hf. subst k. exact Hkept.
Qed.

Lemma select_all_true (mask : list bool) :
  (forall b, In b mask -> b = true) ->
  forall (c : list value), (length c <= length mask)%nat -> select mask c = c.
Proof.
  induction mask as [| b mask IH]; intros H [| x c] Hlen; simpl in *;
    try reflexivity; try lia.
  rewrite (H b (or_introl eq_refl)). f_equal.
  apply IH; [intros b' Hb'; apply H; right; exact Hb' | lia].
Qed.

(** X19: where the frame has at most [n] distinct users the result is the
    frame itself. *)
Theorem shrinking_data_all (n : Z) (df : DataFrame) (users : list value) :
  rectangular df ->
  get_column "userId" df = Return users ->
  has_column "movieId" df = true ->
  (forall v, In v users -> exists k, v = VInt k) ->
  (length (group_keys (map int_label users)) <= Z.to_nat n)%nat ->
  shrinking_data n df = Return df.
Proof.
  intros Hrect Hus Hm Hint Hn.
  destruct (has_column_get_column _ _ Hm) as [movies Hmv].
  unfold shrinking_data, groupby_count. rewrite Hus, Hmv. simpl.
  rewrite as_label_ints by (intros v Hv; right; exact (Hint v Hv)). simpl.
  f_equal. unfold nlargest.
  set (likes := map _ (group_keys (map int_label users))).
  destruct (sort_desc_spec likes) as (_ & Hlen & Hin).
  rewrite firstn_all2
    by (rewrite Hlen; unfold likes; rewrite length_map; exact Hn).
  assert (Hall : forall b, In b (map (isin (map fst (sort_desc likes))) users)
                           -> b = true).
  { intros b Hb. apply in_map_iff in Hb. destruct Hb as (v & <- & Hv).
    destruct (Hint v Hv) as [k ->]. apply isin_In.
    apply in_map_iff.
    exists (k, count_cells (select (map (is_label k) (map int_label users)) movies)).
    split; [reflexivity |]. apply Hin. unfold likes. apply in_map_iff.
    exists k. split; [reflexivity |]. apply group_keys_intro.
    apply in_map_iff. exists (VInt k). auto. }
  unfold select_rows. rewrite <- (map_id df) at 2. apply map_ext_in.
  intros [label c] Hc. simpl. f_equal.
  apply select_all_true; [exact Hall |].
  rewrite length_map. pose proof (rectangular_length _ _ _ Hrect Hus) as L2.
  unfold rectangular in Hrect. rewrite List.Forall_forall in Hrect.
  pose proof (Hrect _ Hc) as L1. simpl in L1. lia.
Qed.

Lemma select_intro (f : value -> bool) (us : list value) (x : value) :
  In x us -> f x = true -> In x (select (map f us) us).
Proof.
  induction us as [| u us IH]; intros Hin Hf; [destruct Hin |]. simpl.
  destruct Hin as [-> | Hin].
  - rewrite Hf. left. reflexivity.
  - destruct (f u); [right |]; exact (IH Hin Hf).
Qed.

(** X20: a user who was kept has rated at least as many movies as a user
    who was dropped. *)
Theorem shrinking_data_most_active (n : Z) (df out : DataFrame)
    (likes : list (Z * nat)) (users_out : list value) (u v : Z) (cu cv : nat) :
  shrinking_data n df = Return out ->
  groupby_count "userId" "movieId" df = Return likes ->
  get_column "userId" out = Return users_out ->
  In (u, cu) likes -> In (v, cv) likes ->
  In (VInt u) users_out -> ~ In (VInt v) users_out ->
  (cv <= cu)%nat.
Proof.
  intros E Hlikes Hu Hcu Hcv Hkept Hdropped.
  unfold shrinking_data in E. rewrite Hlikes in E. simpl in E.
  destruct (get_column "userId" df) as [e | users] eqn:Hus; simpl in E;
    [discriminate |].
  injection E as <-.
  rewrite get_column_select_rows, Hus in Hu. simpl in Hu. injection Hu as <-.
  unfold groupby_count in Hlikes. rewrite Hus in Hlikes. simpl in Hlikes.
  destruct (get_column "movieId" df) as [e | movies]; simpl in Hlikes;
    [discriminate |].
  destruct (mapR as_label users) as [e | labels] eqn:Hl; simpl in Hlikes;
    [discriminate |].
  injection Hlikes as <-.
  set (count := fun k => count_cells (select (map (is_label k) labels) movies)) in *.
  set (likes := map (fun k => (k, count k)) (group_keys labels)) in *.
  assert (Hfun : forall k c, In (k, c) likes -> c = count k).
  { intros k c H. apply in_map_iff in H. destruct H as (k' & [= <- <-] & _).
    reflexivity. }
  destruct (sort_desc_spec likes) as (Hdesc & _ & Hin).
  unfold nlargest in *. set (m := Z.to_nat n) in *.
  apply select_In in Hkept. destruct Hkept as [_ Hkept].
  apply isin_In in Hkept. apply in_map_iff in Hkept.
  destruct Hkept as ([u' cu'] & Eu & Hfirst). simpl in Eu. subst u'.
  assert (Hcu' : cu' = count u).
  { apply Hfun. apply Hin. rewrite <- (firstn_skipn m (sort_desc likes)).
    apply in_or_app. left. exact Hfirst. }
  assert (Hskip : In (v, cv) (skipn m (sort_desc likes))).
  { pose proof (proj2 (Hin _) Hcv) as Hs.
    rewrite <- (firstn_skipn m (sort_desc likes)) in Hs.
    apply in_app_or in Hs. destruct Hs as [Hf | Hs]; [| exact Hs].
    exfalso. apply Hdropped. apply select_intro.
    - apply in_map_iff in Hcv. destruct Hcv as (v' & [= <- _] & Hk).
      apply group_keys_In in Hk. exact (as_label_In _ _ _ Hl Hk).
    - apply isin_In. apply in_map_iff. exists (v, cv). auto. }
  rewrite (Hfun _ _ Hcu), <- Hcu'.
  exact (descending_split _ Hdesc m (u, cu') (v, cv) Hfirst Hskip).
Qed.


(** ** The two mappings *)

Lemma dict_get_map {A} (f : Z -> A) (k : Z) (ks : list Z) :
  dict_get (map (fun x => (x, f x)) ks) k = if existsb (Z.eqb k) ks then Some (f k) else None.
Proof.
  induction ks as [| k' ks IH]; simpl; [reflexivity |].
  rewrite (Z.eqb_sym k k').
  destruct (Z.eqb_spec k' k) as [-> | Hne]; [reflexivity | exact IH].
Qed.

Lemma id_cell_dec (x y : value) :
  (x = VNaN \/ exists k, x = VInt k) -> (y = VNaN \/ exists k, y = VInt k) ->
  (same_value x y = true /\ x = y) \/ (same_value x y = false /\ x <> y).
Proof.
  intros [-> | [a ->]] [-> | [b ->]]; unfold same_value; simpl.
  - left. auto.
  - right. split; [reflexivity | discriminate].
  - right. split; [reflexivity | discriminate].
  - rewrite ?orb_false_r. destruct (Z.eqb_spec a b) as [-> | Hne];
      [left; auto | right; split; [reflexivity | congruence]].
Qed.

Lemma unique_incl (cells : list value) (x : value) : In x (unique cells) -> In x cells.
Proof.
  induction cells as [| c cells IH]; simpl; [tauto |].
  intros [-> | H]; [left; reflexivity |].
  apply filter_In in H. right. exact (IH (proj1 H)).
Qed.

Lemma unique_In (cells : list value) (x : value) :
  (forall v, In v cells -> v = VNaN \/ exists k, v = VInt k) ->
  In x (unique cells) <-> In x cells.
Proof.
  intros Hc. split; [apply unique_incl |].
  induction cells as [| c cells IH]; simpl; [tauto |].
  assert (Hc' : forall v, In v cells -> v = VNaN \/ exists k, v = VInt k)
    by (intros v Hv; apply Hc; right; exact Hv).
  intros [-> | H]; [left; reflexivity |].
  destruct (id_cell_dec x c (Hc x (or_intror H)) (Hc c (or_introl eq_refl)))
    as [[_ ->] | [Hs _]]; [left; reflexivity |].
  right. apply filter_In. split; [exact (IH Hc' H) | rewrite Hs; reflexivity].
Qed.

Lemma unique_NoDup (cells : list value) : List.NoDup (unique cells).
Proof.
  induction cells as [| c cells IH]; simpl; [constructor |].
  constructor.
  - intros H. apply filter_In in H. destruct H as [_ H].
    assert (R : same_value c c = true).
    { unfold same_value. destruct c; simpl;
        rewrite ?Z.eqb_refl, ?String.eqb_refl; try reflexivity.
      rewrite (proj2 (Qeq_bool_iff x x) (Qeq_refl x)). reflexivity. }
    rewrite R in H. discriminate.
  - apply List.NoDup_filter. exact IH.
Qed.

Lemma select_intro2 (f : value -> bool) :
  forall (us c : list value) (i : nat) (x y : value),
    nth_error us i = Some x -> f x = true -> nth_error c i = Some y ->
    In y (select (map f us) c).
Proof.
  induction us as [| u us IH]; intros c i x y Hx Hf Hy; [destruct i; discriminate |].
  destruct c as [| c0 c]; [destruct i; discriminate |].
  destruct i as [| i]; simpl in Hx, Hy; simpl.
  - injection Hx as ->. injection Hy as ->. rewrite Hf. left. reflexivity.
  - destruct (f u); [right |]; exact (IH c i x y Hx Hf Hy).
Qed.

Lemma select_incl (mask : list bool) :
  forall (c : list value) (x : value), In x (select mask c) -> In x c.
Proof.
  induction mask as [| b mask IH]; intros [| c0 c] x H; simpl in H; try tauto.
  destruct b; [destruct H as [-> | H]; [left; reflexivity |] |];
    right; exact (IH c x H).
Qed.

(** The entry of key [k]: the cells of [vals] in the rows whose key
    cell is [k], for columns of ids. *)
Lemma groupby_unique_In (keys vals : list value) (d : list (Z * list value))
    (k : Z) (y : value) :
  groupby_unique keys vals = Return d ->
  (forall v, In v vals -> v = VNaN \/ exists j, v = VInt j) ->
  (exists ys, dict_get d k = Some ys /\ In y ys) <->
  (exists i, nth_error keys i = Some (VInt k) /\ nth_error vals i = Some y).
Proof.
  unfold groupby_unique. intros E Hv.
  destruct (mapR as_label keys) as [e | labels] eqn:Hl; simpl in E; [discriminate |].
  injection E as <-. destruct (as_label_cells _ _ Hl) as [-> Hk].
  set (f := fun v => is_label k (int_label v)).
  assert (Hmask : map (is_label k) (map int_label keys) = map f keys)
    by (rewrite map_map; reflexivity).
  assert (Hf : forall v, In v keys -> (f v = true <-> v = VInt k)).
  { intros v Hin. unfold f. destruct (Hk v Hin) as [-> | [j ->]]; simpl.
    - split; discriminate.
    - rewrite Z.eqb_eq. split; congruence. }
  rewrite (dict_get_map (fun x => unique (select (map (is_label x)
                                                    (map int_label keys)) vals))).
  rewrite Hmask. split.
  - intros (ys & Hd & Hy).
    destruct (existsb (Z.eqb k) _); [| discriminate]. injection Hd as <-.
    apply unique_incl in Hy. apply In_nth_error in Hy. destruct Hy as [j Hj].
    destruct (select_nth f _ _ _ _ Hj) as (i & u & Hu & Hfu & Hy).
    exists i. split; [| exact Hy].
    apply (Hf u (nth_error_In _ _ Hu)) in Hfu. congruence.
  - intros (i & Hki & Hyi).
    assert (Hex : existsb (Z.eqb k) (group_keys (map int_label keys)) = true).
    { apply existsb_exists. exists k. split; [| apply Z.eqb_refl].
      apply group_keys_intro. apply in_map_iff. exists (VInt k).
      split; [reflexivity | eapply nth_error_In; exact Hki]. }
    rewrite Hex. eexists. split; [reflexivity |].
    apply unique_In.
    + intros v Hin. apply Hv. eapply select_incl. exact Hin.
    + eapply select_intro2; [exact Hki | | exact Hyi].
      apply (Hf _ (nth_error_In _ _ Hki)). reflexivity.
Qed.

Lemma create_mappings_Return (df : DataFrame) (user2movie movie2user : list (Z * list value)) :
  create_mappings df = Return (user2movie, movie2user) ->
  exists users movies,
    get_column "userId" df = Return users /\
    get_column "movieId" df = Return movies /\
    groupby_unique users movies = Return user2movie /\
    groupby_unique movies users = Return movie2user /\
    (forall v, In v users -> v = VNaN \/ exists k, v = VInt k) /\
    (forall v, In v movies -> v = VNaN \/ exists k, v = VInt k).
Proof.
  unfold create_mappings.
  destruct (get_column "userId" df) as [e | users]; simpl; [discriminate |].
  destruct (get_column "movieId" df) as [e | movies]; simpl; [discriminate |].
  destruct (groupby_unique users movies) as [e | u2m] eqn:H1; simpl; [discriminate |].
  destruct (groupby_unique movies users) as [e | m2u] eqn:H2; simpl; [discriminate |].
  intros [= <- <-]. exists users, movies.
  repeat (split; [reflexivity || assumption |]).
  unfold groupby_unique in H1, H2.
  destruct (mapR as_label users) as [e | lu] eqn:Hu; simpl in H1; [discriminate |].
  destruct (mapR as_label movies) as [e | lm] eqn:Hm; simpl in H2; [discriminate |].
  split; [exact (proj2 (as_label_cells _ _ Hu)) | exact (proj2 (as_label_cells _ _ Hm))].
Qed.

(** X21: [user2movie[u]] lists movie [m] exactly when some row of the
    frame carries user [u] and movie [m]. *)
Theorem create_mappings_user2movie (df : DataFrame)
    (user2movie movie2user : list (Z * list value)) (u m : Z) :
  create_mappings df = Return (user2movie, movie2user) ->
  (exists ms, dict_get user2movie u = Some ms /\ In (VInt m) ms) <->
  (exists i, cell "userId" i df = Some (VInt u) /\
             cell "movieId" i df = Some (VInt m)).
Proof.
  intros E. apply create_mappings_Return in E.
  destruct E as (users & movies & Hu & Hm & H1 & _ & _ & Hmv).
  rewrite (groupby_unique_In _ _ _ u (VInt m) H1 Hmv).
  unfold cell. rewrite Hu, Hm. reflexivity.
Qed.

(** X22: the two mappings are converse: [m] is among the movies of [u]
    exactly when [u] is among the users of [m]. *)
Theorem create_mappings_converse (df : DataFrame)
    (user2movie movie2user : list (Z * list value)) (u m : Z) :
  create_mappings df = Return (user2movie, movie2user) ->
  (exists ms, dict_get user2movie u = Some ms /\ In (VInt m) ms) <->
  (exists us, dict_get movie2user m = Some us /\ In (VInt u) us).
Proof.
  intros E. apply create_mappings_Return in E.
  destruct E as (users & movies & Hu & Hm & H1 & H2 & Huv & Hmv).
  rewrite (groupby_unique_In _ _ _ u (VInt m) H1 Hmv).
  rewrite (groupby_unique_In _ _ _ m (VInt u) H2 Huv).
  split; intros (i & A & B); exists i; auto.
Qed.

(** X23: no list of either mapping names an id twice. *)
Theorem create_mappings_distinct (df : DataFrame)
    (user2movie movie2user : list (Z * list value)) (k : Z) (ids : list value) :
  create_mappings df = Return (user2movie, movie2user) ->
  dict_get user2movie k = Some ids \/ dict_get movie2user k = Some ids ->
  List.NoDup ids.
Proof.
  intros E. apply create_mappings_Return in E.
  destruct E as (users & movies & _ & _ & H1 & H2 & _ & _).
  assert (G : forall keys vals d, groupby_unique keys vals = Return d ->
                dict_get d k = Some ids -> List.NoDup ids).
  { intros keys vals d Hg Hd. unfold groupby_unique in Hg.
    destruct (mapR as_label keys) as [e | labels]; simpl in Hg; [discriminate |].
    injection Hg as <-.
    rewrite (dict_get_map (fun x => unique (select (map (is_label x) labels) vals)))
      in Hd.
    destruct (existsb _ _); [| discriminate]. injection Hd as <-.
    apply unique_NoDup. }
  intros [H | H]; [exact (G _ _ _ H1 H) | exact (G _ _ _ H2 H)].
Qed.

(** ** Mining rules *)

Lemma mapR_Forall2 {A B} (f : A -> result B) (l : list A) :
  forall out, mapR f l = Return out -> Forall2 (fun a b => f a = Return b) l out.
Proof.
  induction l as [| a l IH]; simpl; intros out.
  - intros [= <-]. constructor.
  - destruct (f a) as [e | b] eqn:Ea; simpl; [discriminate |].
    destruct (mapR f l) as [e | bs]; simpl; [discriminate |].
    intros [= <-]. constructor; [exact Ea | exact (IH bs eq_refl)].
Qed.

Lemma has_column_drop_columns (labels : list string) (label : string)
    (df X : DataFrame) :
  drop_columns labels df = Return X ->
  has_column label X
  = has_column label df && negb (existsb (String.eqb label) labels).
Proof.
  intros H. apply drop_columns_filter in H. subst X.
  unfold has_column, columns.
  induction df as [| c df IH]; simpl; [reflexivity |].
  destruct (existsb (String.eqb (fst c)) labels) eqn:Ex; simpl.
  - rewrite IH. destruct (String.eqb_spec label (fst c)) as [-> | N]; simpl.
    + rewrite Ex. simpl. rewrite andb_false_r. reflexivity.
    + reflexivity.
  - rewrite IH. destruct (String.eqb_spec label (fst c)) as [-> | N]; simpl.
    + rewrite Ex. reflexivity.
    + reflexivity.
Qed.

Section MiningFacts.
Context {Mi : Miner}.

Lemma mined_flags (dataset train_df rows flags : DataFrame) (clusters : list value)
    (c : value) :
  drop_columns id_columns dataset = Return train_df ->
  get_column "cluster" train_df = Return clusters ->
  rows_where "cluster" c train_df = Return rows ->
  drop_columns ["cluster"] rows = Return flags ->
  get_column "cluster" dataset = Return clusters /\
  flags_of dataset clusters c flags.
Proof.
  intros Hd Hc Hr Hf.
  assert (Hcl : get_column "cluster" dataset = Return clusters).
  { rewrite <- Hc. symmetry. apply (get_column_drop_ne _ _ _ _ Hd).
    intros [E | [E | [E | [E | []]]]]; discriminate. }
  split; [exact Hcl |].
  unfold rows_where in Hr. rewrite Hc in Hr. simpl in Hr. injection Hr as <-.
  split.
  - intros label Hin. rewrite (has_column_drop_columns _ _ _ _ Hf).
    rewrite has_column_select_rows, (has_column_drop_columns _ _ _ _ Hd).
    destruct Hin as [<- | Hin]; [simpl; apply andb_false_r |].
    assert (Ex : existsb (String.eqb label) id_columns = true).
    { apply existsb_exists. exists label. split; [exact Hin | apply String.eqb_refl]. }
    rewrite Ex. simpl. rewrite andb_false_r. reflexivity.
  - intros label Hn.
    rewrite (get_column_drop_ne _ _ _ _ Hf) by (intros [E | []]; apply Hn; left; exact E).
    rewrite get_column_select_rows.
    rewrite (get_column_drop_ne _ _ _ _ Hd)
      by (intros Hin; apply Hn; right; exact Hin).
    reflexivity.
Qed.

(** The tables of one fold, by position. *)
Lemma mined_in_fold (dataset train_df : DataFrame) (clusters : list value)
    (min_support : Q) (tables : list itemsets) (p : nat) (table : itemsets) :
  drop_columns id_columns dataset = Return train_df ->
  get_column "cluster" train_df = Return clusters ->
  mapR (fun cluster =>
          rows <- rows_where "cluster" cluster train_df ;;
          flags <- drop_columns ["cluster"] rows ;;
          apriori flags min_support) (unique clusters) = Return tables ->
  nth_error tables p = Some table ->
  exists c flags,
    get_column "cluster" dataset = Return clusters /\
    nth_error (unique clusters) p = Some c /\
    flags_of dataset clusters c flags /\
    apriori flags min_support = Return table.
Proof.
  intros Hd Hc F Hp. apply mapR_Forall2 in F.
  destruct (nth_error (unique clusters) p) as [c |] eqn:Hcp.
  2:{ apply nth_error_None in Hcp. apply Forall2_length in F.
      assert (nth_error tables p <> None) by congruence.
      apply nth_error_Some in H. lia. }
  pose proof (Forall2_nth_error _ _ _ F p _ _ Hcp Hp) as G. simpl in G.
  destruct (rows_where "cluster" c train_df) as [e | rows] eqn:Hr; simpl in G;
    [discriminate |].
  destruct (drop_columns ["cluster"] rows) as [e | flags] eqn:Hf; simpl in G;
    [discriminate |].
  destruct (mined_flags _ _ _ _ _ _ Hd Hc Hr Hf) as [Hcl Hfl].
  exists c, flags. auto.
Qed.

(** X24: table [p] of fold [f] is mined from the rows of the [p]-th
    distinct cluster label of that fold, counted in order of first
    appearance, with the id columns and the cluster column dropped. *)
Theorem getFrequentItemset_by_position (clustered_data : list DataFrame)
    (min_support : Q) (out : list (list itemsets)) (f p : nat)
    (dataset : DataFrame) (tables : list itemsets) (table : itemsets) :
  getFrequentItemset clustered_data min_support = Return out ->
  nth_error clustered_data f = Some dataset ->
  nth_error out f = Some tables ->
  nth_error tables p = Some table ->
  exists clusters c flags,
    get_column "cluster" dataset = Return clusters /\
    nth_error (unique clusters) p = Some c /\
    flags_of dataset clusters c flags /\
    apriori flags min_support = Return table.
Proof.
  intros E Hds Ht Hp. apply mapR_Forall2 in E.
  pose proof (Forall2_nth_error _ _ _ E f _ _ Hds Ht) as F. simpl in F.
  destruct (drop_columns id_columns dataset) as [e | train_df] eqn:Hd; simpl in F;
    [discriminate |].
  destruct (get_column "cluster" train_df) as [e | clusters] eqn:Hc; simpl in F;
    [discriminate |].
  destruct (mined_in_fold _ _ _ _ _ _ _ Hd Hc F Hp) as (c & flags & H).
  exists clusters, c, flags. exact H.
Qed.

(** X25: there is one list of tables per fold, and in it one table per
    distinct cluster label of the fold. *)
Theorem getFrequentItemset_shape (clustered_data : list DataFrame)
    (min_support : Q) (out : list (list itemsets)) :
  getFrequentItemset clustered_data min_support = Return out ->
  Forall2 (fun dataset tables =>
             exists clusters, get_column "cluster" dataset = Return clusters /\
                              length tables = length (unique clusters))
          clustered_data out.
Proof.
  intros E. apply mapR_Forall2 in E.
  eapply Forall2_impl_In; [exact E |]. intros dataset tables _ F. simpl in F.
  destruct (drop_columns id_columns dataset) as [e | train_df] eqn:Hd; simpl in F;
    [discriminate |].
  destruct (get_column "cluster" train_df) as [e | clusters] eqn:Hc; simpl in F;
    [discriminate |].
  apply mapR_Forall2 in F. apply Forall2_length in F.
  exists clusters. split; [| congruence].
  rewrite <- Hc. symmetry. apply (get_column_drop_ne _ _ _ _ Hd).
  intros [H | [H | [H | [H | []]]]]; discriminate.
Qed.

(** X26: the table that [rules[f][p]] names holds the rules of the [p]-th
    distinct cluster label of fold [f], in order of first appearance:
    the position is not the label. *)
Theorem getRules_by_position (clustered_data : list DataFrame)
    (min_support min_threshold : Q) (metric : string)
    (freq : list (list itemsets)) (rules : list (list (list Rule)))
    (f p : nat) (dataset : DataFrame) (fold_rules : list (list Rule))
    (table : list Rule) :
  getFrequentItemset clustered_data min_support = Return freq ->
  getRules freq metric min_threshold = Return rules ->
  nth_error clustered_data f = Some dataset ->
  index rules f = Return fold_rules ->
  index fold_rules p = Return table ->
  exists clusters c flags mined,
    get_column "cluster" dataset = Return clusters /\
    nth_error (unique clusters) p = Some c /\
    flags_of dataset clusters c flags /\
    apriori flags min_support = Return mined /\
    association_rules mined metric min_threshold = Return table.
Proof.
  intros E R Hds Hf Hp. apply index_lt in Hf, Hp.
  apply mapR_Forall2 in R.
  destruct (nth_error freq f) as [tables |] eqn:Ht.
  2:{ apply nth_error_None in Ht. apply Forall2_length in R.
      assert (nth_error rules f <> None) by congruence.
      apply nth_error_Some in H. lia. }
  pose proof (Forall2_nth_error _ _ _ R f _ _ Ht Hf) as R1. simpl in R1.
  apply mapR_Forall2 in R1.
  destruct (nth_error tables p) as [mined |] eqn:Hm.
  2:{ apply nth_error_None in Hm. apply Forall2_length in R1.
      assert (nth_error fold_rules p <> None) by congruence.
      apply nth_error_Some in H. lia. }
  pose proof (Forall2_nth_error _ _ _ R1 p _ _ Hm Hp) as R2. simpl in R2.
  apply mapR_Forall2 in E.
  destruct (nth_error clustered_data f) as [dataset' |] eqn:Hds'; [| discriminate].
  injection Hds as ->.
  pose proof (Forall2_nth_error _ _ _ E f _ _ Hds' Ht) as F. simpl in F.
  destruct (drop_columns id_columns dataset) as [e | train_df] eqn:Hd; simpl in F;
    [discriminate |].
  destruct (get_column "cluster" train_df) as [e | clusters] eqn:Hcl; simpl in F;
    [discriminate |].
  destruct (mined_in_fold _ _ _ _ _ _ _ Hd Hcl F Hm)
    as (c & flags & Hc & Hcp & Hfl & Ha).
  exists clusters, c, flags, mined. auto 6.
Qed.

End MiningFacts.

(** ** The utility matrix *)

Lemma as_number_cells (cells : list value) :
  forall rs, mapR as_number cells = Return rs -> rs = map number_of cells.
Proof.
  induction cells as [| c cells IH]; simpl; intros rs.
  - intros [= <-]. reflexivity.
  - destruct (as_number c) as [e | r] eqn:Er; simpl; [discriminate |].
    destruct (mapR as_number cells) as [e | rs']; simpl; [discriminate |].
    intros [= <-]. rewrite (IH rs' eq_refl). f_equal.
    destruct c; simpl in Er; simpl; congruence.
Qed.

(** The rows of [df] as [pivot_table] reads them. *)
Lemma create_utility_matrix_Return (df : DataFrame) (M : UtilityMatrix) :
  create_utility_matrix df = Return M ->
  exists users movies ratings,
    get_column "userId" df = Return users /\
    get_column "movieId" df = Return movies /\
    get_column "rating" df = Return ratings /\
    let rows := List.filter is_rated
                  (combine (map int_label users)
                     (combine (map int_label movies) (map number_of ratings))) in
    M = mkUtility (group_keys (map fst rows))
          (group_keys (map (fun t => fst (snd t)) rows))
          (map (fun u => map (fun m => pivot_cell rows u m)
                           (group_keys (map (fun t => fst (snd t)) rows)))
               (group_keys (map fst rows))).
Proof.
  unfold create_utility_matrix.
  destruct (get_column "rating" df) as [e | ratings]; simpl; [discriminate |].
  destruct (get_column "userId" df) as [e | users]; simpl; [discriminate |].
  destruct (get_column "movieId" df) as [e | movies]; simpl; [discriminate |].
  destruct (mapR as_label users) as [e | us] eqn:Eu; simpl; [discriminate |].
  destruct (mapR as_label movies) as [e | ms] eqn:Em; simpl; [discriminate |].
  destruct (mapR as_number ratings) as [e | rs] eqn:Er; simpl; [discriminate |].
  intros [= <-]. exists users, movies, ratings.
  destruct (as_label_cells _ _ Eu) as [-> _].
  destruct (as_label_cells _ _ Em) as [-> _].
  rewrite (as_number_cells _ _ Er). repeat split; reflexivity.
Qed.

Lemma nth_error_combine {A B} (l1 : list A) (l2 : list B) (i : nat) (a : A) (b : B) :
  nth_error (combine l1 l2) i = Some (a, b) <->
  nth_error l1 i = Some a /\ nth_error l2 i = Some b.
Proof.
  revert l2 i. induction l1 as [| x l1 IH]; intros l2 i.
  - simpl. destruct i; simpl; split; intros H; try discriminate;
      destruct H; discriminate.
  - destruct l2 as [| y l2].
    + simpl. destruct i; simpl; split; intros H; try discriminate;
        destruct H; discriminate.
    + destruct i as [| i]; simpl.
      * split; [intros [= <- <-]; split; reflexivity | intros [[= <-] [= <-]]; reflexivity].
      * apply IH.
Qed.

(** Row [i] of the frame as a triple. *)
Lemma triple_at (users movies ratings : list value) (i : nat) (t : Triple) :
  nth_error (combine (map int_label users)
               (combine (map int_label movies) (map number_of ratings))) i = Some t <->
  exists a b c, nth_error users i = Some a /\ nth_error movies i = Some b /\
                nth_error ratings i = Some c /\
                t = (int_label a, (int_label b, number_of c)).
Proof.
  destruct t as [u [m r]]. rewrite nth_error_combine, nth_error_combine.
  rewrite !nth_error_map. split.
  - intros (Hu & Hm & Hr).
    destruct (nth_error users i) as [a |]; [| discriminate].
    destruct (nth_error movies i) as [b |]; [| discriminate].
    destruct (nth_error ratings i) as [c |]; [| discriminate].
    simpl in *. exists a, b, c. repeat split; congruence.
  - intros (a & b & c & -> & -> & -> & [= -> -> ->]). simpl. repeat split.
Qed.

Lemma int_label_Some (v : value) (k : Z) : int_label v = Some k -> v = VInt k.
Proof. destruct v; simpl; congruence. Qed.

Lemma filter_filter {A} (f g : A -> bool) (l : list A) :
  List.filter f (List.filter g l) = List.filter (fun x => g x && f x) l.
Proof.
  induction l as [| a l IH]; simpl; [reflexivity |].
  destruct (g a); simpl; [destruct (f a) |]; rewrite IH; reflexivity.
Qed.

Lemma filter_none {A} (f : A -> bool) (l : list A) :
  (forall x, In x l -> f x = false) -> List.filter f l = [].
Proof.
  induction l as [| a l IH]; intros H; simpl; [reflexivity |].
  rewrite (H a (or_introl eq_refl)). apply IH. intros x Hx. apply H. right. exact Hx.
Qed.

Lemma filter_single {A} (f : A -> bool) (l : list A) :
  forall i a, nth_error l i = Some a -> f a = true ->
    (forall j b, nth_error l j = Some b -> f b = true -> j = i) ->
    List.filter f l = [a].
Proof.
  induction l as [| x l IH]; intros i a Hi Ha Hu; [destruct i; discriminate |].
  destruct i as [| i]; simpl in Hi.
  - injection Hi as ->. simpl. rewrite Ha. f_equal. apply filter_none.
    intros y Hy. destruct (f y) eqn:Ey; [| reflexivity].
    destruct (In_nth_error _ _ Hy) as [j Hj].
    specialize (Hu (S j) y Hj Ey). discriminate.
  - simpl. destruct (f x) eqn:Ex.
    + specialize (Hu 0%nat x eq_refl Ex). discriminate.
    + apply (IH i a Hi Ha). intros j b Hj Hb.
      specialize (Hu (S j) b Hj Hb). congruence.
Qed.

Lemma position_In (k : Z) (labels : list Z) :
  In k labels -> exists i, position k labels = Some i /\ nth_error labels i = Some k.
Proof.
  induction labels as [| k' labels IH]; simpl; [tauto |].
  intros H. destruct (Z.eqb_spec k' k) as [-> | Hne].
  - exists 0%nat. split; reflexivity.
  - destruct H as [-> | H]; [congruence |].
    destruct (IH H) as (i & -> & Hi). exists (S i). split; [reflexivity | exact Hi].
Qed.

Lemma position_None (k : Z) (labels : list Z) :
  ~ In k labels -> position k labels = None.
Proof.
  induction labels as [| k' labels IH]; simpl; [reflexivity |].
  intros H. destruct (Z.eqb_spec k' k) as [-> | Hne]; [tauto |].
  rewrite IH by tauto. reflexivity.
Qed.

(** A labelled lookup in a table that was built cell by cell. *)
Lemma um_get_cell (f : Z -> Z -> Q) (index cols : list Z) (u m : Z) :
  In u index -> In m cols ->
  um_get (mkUtility index cols (map (fun u => map (fun m => f u m) cols) index)) u m
  = Some (f u m).
Proof.
  intros Hu Hm. unfold um_get. simpl.
  destruct (position_In _ _ Hu) as (i & -> & Hi).
  destruct (position_In _ _ Hm) as (j & -> & Hj).
  rewrite nth_error_map, Hi. simpl. rewrite nth_error_map, Hj. reflexivity.
Qed.

(** The row labels and the column labels of the rated rows. *)
Lemma rated_labels (users movies ratings : list value) (u m : Z) (x : Q) (i : nat) :
  nth_error users i = Some (VInt u) ->
  nth_error movies i = Some (VInt m) ->
  (exists v, nth_error ratings i = Some v /\ number_of v = Some x) ->
  let rows := List.filter is_rated
                (combine (map int_label users)
                   (combine (map int_label movies) (map number_of ratings))) in
  In u (group_keys (map fst rows)) /\
  In m (group_keys (map (fun t => fst (snd t)) rows)).
Proof.
  intros Hu Hm (v & Hv & Hx) rows.
  assert (Hin : In (Some u, (Some m, Some x)) rows).
  { apply filter_In. split; [| reflexivity].
    apply (nth_error_In _ i). apply triple_at.
    exists (VInt u), (VInt m), v. rewrite Hx. repeat split; assumption. }
  split; apply group_keys_intro.
  - exact (in_map fst _ _ Hin).
  - exact (in_map (fun t : Triple => fst (snd t)) _ _ Hin).
Qed.

(** ** [create_utility_matrix]: the pair that was rated once *)

(** X27: a pair of a user and a movie that one row of the frame rates,
    and no other row names, has that rating as its cell of the utility
    matrix. *)
Theorem create_utility_matrix_rated_once (df : DataFrame) (M : UtilityMatrix)
    (i : nat) (u m : Z) (v : value) (x : Q) :
  create_utility_matrix df = Return M ->
  cell "userId" i df = Some (VInt u) ->
  cell "movieId" i df = Some (VInt m) ->
  cell "rating" i df = Some v ->
  number_of v = Some x ->
  (forall j, carries "userId" (VInt u) j df = true ->
             carries "movieId" (VInt m) j df = true -> j = i) ->
  exists y, um_get M u m = Some y /\ (y == x)%Q.
Proof.
  intros HM Hu Hm Hv Hx Honce.
  destruct (create_utility_matrix_Return _ _ HM)
    as (users & movies & ratings & Eu & Em & Er & HM').
  cbv zeta in HM'. subst M.
  unfold cell in Hu, Hm, Hv. rewrite Eu in Hu. rewrite Em in Hm. rewrite Er in Hv.
  destruct (rated_labels users movies ratings u m x i Hu Hm
              (ex_intro _ v (conj Hv Hx))) as [Hi Hc].
  rewrite (um_get_cell _ _ _ u m Hi Hc).
  eexists. split; [reflexivity |].
  unfold pivot_cell. rewrite filter_filter.
  rewrite (filter_single _ _ i (Some u, (Some m, Some x))).
  - unfold mean_of. simpl. rewrite Qred_correct. unfold Qsum. simpl.
    change (inject_Z 1) with 1%Q. field.
  - apply triple_at. exists (VInt u), (VInt m), v. rewrite Hx.
    repeat split; assumption.
  - unfold in_group. simpl. rewrite !Z.eqb_refl. reflexivity.
  - intros j t Ht Hp. apply triple_at in Ht.
    destruct Ht as (a & b & c & Ha & Hb & Hc' & ->).
    apply andb_prop in Hp. destruct Hp as [_ Hp]. unfold in_group in Hp. simpl in Hp.
    apply andb_prop in Hp. destruct Hp as [Hpu Hpm].
    destruct (int_label a) as [u' |] eqn:Ea; simpl in Hpu; [| discriminate].
    destruct (int_label b) as [m' |] eqn:Eb; simpl in Hpm; [| discriminate].
    apply Z.eqb_eq in Hpu. apply Z.eqb_eq in Hpm. subst u' m'.
    apply int_label_Some in Ea. apply int_label_Some in Eb. subst a b.
    apply Honce; unfold carries, cell.
    + rewrite Eu, Ha. simpl. apply Z.eqb_refl.
    + rewrite Em, Hb. simpl. apply Z.eqb_refl.
Qed.

(** ** [create_utility_matrix]: the pair that was never rated *)

(** X28: where the table has a row for the user and a column for the
    movie but no row of the frame names the two together, the cell is
    the 0 that [fillna] put there. *)
Theorem create_utility_matrix_unrated_pair (df : DataFrame) (M : UtilityMatrix)
    (u m : Z) :
  create_utility_matrix df = Return M ->
  In u (um_index M) -> In m (um_columns M) ->
  (forall j, carries "userId" (VInt u) j df = true ->
             carries "movieId" (VInt m) j df = true -> False) ->
  um_get M u m = Some 0%Q.
Proof.
  intros HM Hi Hc Hnone.
  destruct (create_utility_matrix_Return _ _ HM)
    as (users & movies & ratings & Eu & Em & Er & HM').
  cbv zeta in HM'. subst M. simpl in Hi, Hc.
  rewrite (um_get_cell _ _ _ u m Hi Hc). f_equal.
  unfold pivot_cell. rewrite filter_filter, filter_none; [reflexivity |].
  intros t Ht. destruct (In_nth_error _ _ Ht) as [j Hj].
  apply triple_at in Hj. destruct Hj as (a & b & c & Ha & Hb & Hc' & ->).
  destruct (is_rated _ && in_group u m _) eqn:Hp; [| reflexivity].
  exfalso. apply andb_prop in Hp. destruct Hp as [_ Hp].
  unfold in_group in Hp. simpl in Hp.
  apply andb_prop in Hp. destruct Hp as [Hpu Hpm].
  destruct (int_label a) as [u' |] eqn:Ea; simpl in Hpu; [| discriminate].
  destruct (int_label b) as [m' |] eqn:Eb; simpl in Hpm; [| discriminate].
  apply Z.eqb_eq in Hpu. apply Z.eqb_eq in Hpm. subst u' m'.
  apply int_label_Some in Ea. apply int_label_Some in Eb. subst a b.
  apply (Hnone j); unfold carries, cell.
  - rewrite Eu, Ha. simpl. apply Z.eqb_refl.
  - rewrite Em, Hb. simpl. apply Z.eqb_refl.
Qed.

(** ** [create_utility_matrix]: the labels of the table *)

(** X29: the table has a row for exactly the users, and a column for
    exactly the movies, of the rows of the frame that carry a user, a
    movie and a rating: a row whose rating is missing brings neither. *)
Theorem create_utility_matrix_labels (df : DataFrame) (M : UtilityMatrix) (k : Z) :
  create_utility_matrix df = Return M ->
  (In k (um_index M) <->
   exists i m v x, cell "userId" i df = Some (VInt k) /\
                   cell "movieId" i df = Some (VInt m) /\
                   cell "rating" i df = Some v /\ number_of v = Some x) /\
  (In k (um_columns M) <->
   exists i u v x, cell "userId" i df = Some (VInt u) /\
                   cell "movieId" i df = Some (VInt k) /\
                   cell "rating" i df = Some v /\ number_of v = Some x).
Proof.
  intros HM.
  destruct (create_utility_matrix_Return _ _ HM)
    as (users & movies & ratings & Eu & Em & Er & HM').
  cbv zeta in HM'. subst M. simpl. unfold cell. rewrite Eu, Em, Er.
  assert (Hrows : forall t, In t (List.filter is_rated
              (combine (map int_label users)
                 (combine (map int_label movies) (map number_of ratings)))) ->
            exists i u m v x, t = (Some u, (Some m, Some x)) /\
              nth_error users i = Some (VInt u) /\
              nth_error movies i = Some (VInt m) /\
              nth_error ratings i = Some v /\ number_of v = Some x).
  { intros t Ht. apply filter_In in Ht. destruct Ht as [Ht Hr].
    destruct (In_nth_error _ _ Ht) as [i Hi]. apply triple_at in Hi.
    destruct Hi as (a & b & c & Ha & Hb & Hc & ->). simpl in Hr.
    destruct (int_label a) as [u |] eqn:Ea; [| discriminate].
    destruct (int_label b) as [m |] eqn:Eb; [| discriminate].
    destruct (number_of c) as [x |] eqn:Ec; [| discriminate].
    apply int_label_Some in Ea. apply int_label_Some in Eb. subst a b.
    exists i, u, m, c, x. repeat split; assumption. }
  split; split.
  - intros H. apply group_keys_In in H. apply in_map_iff in H.
    destruct H as (t & Hk & Ht).
    destruct (Hrows t Ht) as (i & u & m & v & x & -> & Hu & Hm & Hv & Hx).
    simpl in Hk. injection Hk as ->. exists i, m, v, x. repeat split; assumption.
  - intros (i & m & v & x & Hu & Hm & Hv & Hx).
    exact (proj1 (rated_labels users movies ratings k m x i Hu Hm
                    (ex_intro _ v (conj Hv Hx)))).
  - intros H. apply group_keys_In in H. apply in_map_iff in H.
    destruct H as (t & Hk & Ht).
    destruct (Hrows t Ht) as (i & u & m & v & x & -> & Hu & Hm & Hv & Hx).
    simpl in Hk. injection Hk as ->. exists i, u, v, x. repeat split; assumption.
  - intros (i & u & v & x & Hu & Hm & Hv & Hx).
    exact (proj2 (rated_labels users movies ratings u k x i Hu Hm
                    (ex_intro _ v (conj Hv Hx)))).
Qed.

(** ** [create_utility_matrix]: the shape of the table *)

(** X30: the row labels and the column labels ascend without a repeat,
    there is one row per row label and every row has one cell per
    column label. *)
Theorem create_utility_matrix_shape (df : DataFrame) (M : UtilityMatrix) :
  create_utility_matrix df = Return M ->
  StronglySorted Z.lt (um_index M) /\
  StronglySorted Z.lt (um_columns M) /\
  length (um_rows M) = length (um_index M) /\
  Forall (fun row => length row = length (um_columns M)) (um_rows M).
Proof.
  intros HM.
  destruct (create_utility_matrix_Return _ _ HM)
    as (users & movies & ratings & Eu & Em & Er & HM').
  cbv zeta in HM'. subst M. simpl.
  split; [apply group_keys_sorted |]. split; [apply group_keys_sorted |].
  split; [apply length_map |].
  apply List.Forall_forall. intros row Hrow. apply in_map_iff in Hrow.
  destruct Hrow as (u & <- & _). apply length_map.
Qed.

(** ** The further theorems at work on the example data *)

(** 2.4 is rounded to 2.5. *)
Lemma roundRating_nearest_half_witness :
  (- (1 # 4) <= num_val (roundRating (24 # 10)) - (24 # 10))%Q /\
  (num_val (roundRating (24 # 10)) - (24 # 10) <= 1 # 4)%Q /\
  exists k : Z, (2 * num_val (roundRating (24 # 10)) == inject_Z k)%Q.
Proof. apply (roundRating_nearest_half (24 # 10)). discriminate. Defined.

(** -1.5 is cut to -1. *)
Lemma roundRating_nonpositive_witness :
  roundRating (- (3 # 2)) = PyInt (int_of_float (- (3 # 2))).
Proof. apply (roundRating_nonpositive (- (3 # 2))). discriminate. Defined.

Lemma roundRating_idempotent_witness :
  (num_val (roundRating (num_val (roundRating (24 # 10))))
   == num_val (roundRating (24 # 10)))%Q.
Proof. apply (roundRating_idempotent (24 # 10)). discriminate. Defined.

(** No row of [example_ratings] carries movie 12. *)
Lemma predict_rating_kmeans_unknown_movie_witness :
  @predict_rating_kmeans FlagCount 1 12 [] [] example_ratings = Return None.
Proof.
  apply (@predict_rating_kmeans_unknown_movie FlagCount 1 12 [] [] example_ratings
           [VInt 10; VInt 11; VInt 10]).
  - reflexivity.
  - intros l [<- | [<- | [<- | [<- | []]]]]; reflexivity.
  - intros v [<- | [<- | [<- | []]]]; reflexivity.
Defined.

(** Movie 10 of [unseen_test] sets two flags and falls into cluster 2,
    whose one train row has rating 4. *)
Lemma predict_rating_kmeans_baseline_witness :
  exists table,
    @predict_rating_kmeans FlagCount 1 10 [(3%nat, [2; 1; 1])] [clustered_train]
      unseen_test
    = Return (Some (Some (VFloat 4), [2], table)).
Proof.
  apply (@predict_rating_kmeans_baseline FlagCount 1 10 [(3%nat, [2; 1; 1])]
           [clustered_train] unseen_test
           [("userId", [VInt 3]); ("movieId", [VInt 10]); ("rating", [VFloat 5]);
            ("title", [VStr "Heat"]); ("Action", [VInt 1]); ("Comedy", [VInt 1])]
           [("Action", [VInt 1]); ("Comedy", [VInt 1])]
           clustered_train (3%nat, [2; 1; 1]) [2] 2
           [VInt 2; VInt 1; VInt 1] [VFloat 4; VFloat (7 # 2); VFloat 2]
           [Some 2; Some 1; Some 1] [Some 4%Q; Some (7 # 2)%Q; Some 2%Q]);
    try reflexivity.
  left. reflexivity.
Defined.

(** One fold on [example_train] and [example_test] with two clusters. *)
Lemma fit_predict_baseline_witness :
  exists train test members ratings labels xs assigned predicted,
    snd (@fit_predict FlagCount 2 0%nat 1%nat example_store) !! 0%nat = Some train /\
    snd (@fit_predict FlagCount 2 0%nat 1%nat example_store) !! 1%nat = Some test /\
    get_column "cluster" train = Return members /\
    get_column "rating" train = Return ratings /\
    mapR as_label members = Return labels /\
    mapR as_number ratings = Return xs /\
    get_column "cluster" test = Return assigned /\
    get_column "predicted_rating" test = Return predicted /\
    length predicted = length assigned /\
    forall (j : nat) (k : Z),
      nth_error assigned j = Some (VInt k) -> In (VInt k) members ->
      nth_error predicted j
      = Some (mean_of (select (map (is_label k) labels) xs)).
Proof.
  apply (@fit_predict_baseline FlagCount 2%nat 0%nat 1%nat example_store _
           (2%nat, [0; 1; 1]) [VFloat 5; VFloat 3] 1%nat).
  reflexivity.
Defined.

(** User 1 has rated movie 11. *)
Lemma filterRules_rating_on_file_witness :
  exists i, carries "userId" (VInt 1) i example_ratings = true /\
            carries "movieId" (VInt 11) i example_ratings = true /\
            cell "rating" i example_ratings = Some (VFloat (7 # 2)).
Proof.
  apply (filterRules_rating_on_file value 1 11 example_ratings 0 (VFloat 3) []
           (VFloat (7 # 2))).
  reflexivity.
Defined.

(** User 5 gets the baseline. *)
Lemma filterRules_baseline_means_cold_witness :
  VFloat (7 # 2) = VFloat (7 # 2) /\
  (rectangular example_ratings ->
   forall i, carries "userId" (VInt 5) i example_ratings = false).
Proof.
  apply (filterRules_baseline_means_cold value 5 10 example_ratings 0
           (VFloat (7 # 2)) (VFloat (7 # 2)) []).
  reflexivity.
Defined.

(** User 2 has rated an action movie, and movie 11 is a comedy. *)
Lemma filterRules_rules_of_cluster_witness :
  exists fold0 table,
    index [[[mkRule ["Action"] ["Comedy"] (1 # 2) 0]]] 0 = Return fold0 /\
    index fold0 0 = Return table /\
    forall rule r, In (rule, r) [(mkRule ["Action"] ["Comedy"] (1 # 2) 0, VFloat 2)] ->
      In rule table /\
      exists i, carries "userId" (VInt 2) i example_ratings = true /\
                cell "rating" i example_ratings = Some r.
Proof.
  apply (filterRules_rules_of_cluster value 2 11 example_ratings 0 (VFloat 3)
           [[[mkRule ["Action"] ["Comedy"] (1 # 2) 0]]]
           [(mkRule ["Action"] ["Comedy"] (1 # 2) 0, VFloat 2)]).
  reflexivity.
Defined.

(** A sweep of one fold. *)
Lemma sweep_one_result_per_fold_witness :
  length [17 # 32] = length [0%nat] /\
  length [(2%nat, [0; 1; 1])] = length [0%nat] /\
  (length [0%nat] <= length [1%nat])%nat.
Proof.
  apply (@sweep_one_result_per_fold FlagCount [0%nat] [1%nat] 2%nat example_store
           (snd (@train_kmeans_and_predict FlagCount [0%nat] [1%nat] 2 example_store))
           [17 # 32] [(2%nat, [0; 1; 1])] [0%nat]).
  reflexivity.
Defined.

Lemma sweep_labels_train_frames_witness :
  exists df,
    snd (@train_kmeans_and_predict FlagCount [0%nat] [1%nat] 2 example_store) !! 0%nat
    = Some df /\
    get_column "cluster" df = Return (map VInt [0; 1; 1]).
Proof.
  refine (@sweep_labels_train_frames FlagCount [0%nat] [1%nat] 2%nat example_store
            (snd (@train_kmeans_and_predict FlagCount [0%nat] [1%nat] 2 example_store))
            [17 # 32] [(2%nat, [0; 1; 1])] [0%nat] _ _ eq_refl
            0%nat 0%nat (2%nat, [0; 1; 1]) eq_refl eq_refl).
  - constructor; [intros [] | constructor].
  - intros l [<- | []] [H | []]. discriminate.
Defined.

(** [example_ratings], split in two folds. *)
Lemma return_datasets_keeps_store_witness :
  snd (return_datasets 0%nat example_kf [example_ratings]) !! 0%nat
  = Some example_ratings.
Proof.
  refine (return_datasets_keeps_store 0%nat example_kf [example_ratings]
            (fst (return_datasets 0%nat example_kf [example_ratings]))
            (snd (return_datasets 0%nat example_kf [example_ratings]))
            _ 0%nat example_ratings eq_refl).
  reflexivity.
Defined.

Lemma return_datasets_fresh_folds_witness :
  (exists df folds, [example_ratings] !! 0%nat = Some df /\
                    example_kf (nrows df) = Return folds /\
                    length [2%nat; 4%nat] = length folds /\
                    length [3%nat; 5%nat] = length folds) /\
  List.NoDup ([2%nat; 4%nat] ++ [3%nat; 5%nat]) /\
  forall l, In l ([2%nat; 4%nat] ++ [3%nat; 5%nat]) ->
            (length [example_ratings] < l)%nat.
Proof.
  apply (return_datasets_fresh_folds 0%nat example_kf [example_ratings]
           (snd (return_datasets 0%nat example_kf [example_ratings]))
           [2%nat; 4%nat] [3%nat; 5%nat]).
  reflexivity.
Defined.

Lemma return_datasets_rows_witness :
  exists tr te train test,
    nth_error [2%nat; 4%nat] 0 = Some tr /\ nth_error [3%nat; 5%nat] 0 = Some te /\
    snd (return_datasets 0%nat example_kf [example_ratings]) !! tr = Some train /\
    snd (return_datasets 0%nat example_kf [example_ratings]) !! te = Some test /\
    columns train = columns example_ratings /\
    columns test = columns example_ratings /\
    (forall label i p, nth_error [0%nat; 1%nat] i = Some p ->
       (p < nrows example_ratings)%nat /\
       cell label i train = cell label p example_ratings) /\
    (forall label i p, nth_error [2%nat] i = Some p ->
       (p < nrows example_ratings)%nat /\
       cell label i test = cell label p example_ratings).
Proof.
  apply (return_datasets_rows 0%nat example_kf [example_ratings]
           (snd (return_datasets 0%nat example_kf [example_ratings]))
           [2%nat; 4%nat] [3%nat; 5%nat] example_ratings
           [([0%nat; 1%nat], [2%nat]); ([1%nat; 2%nat], [0%nat])] 0%nat
           [0%nat; 1%nat] [2%nat]).
  - reflexivity.
  - reflexivity.
  - repeat constructor.
  - reflexivity.
  - reflexivity.
Defined.

(** The most active user of [example_ratings] is user 1, with two rows. *)
Lemma shrinking_data_none_witness :
  columns (map (fun c => (fst c, [])) example_ratings) = columns example_ratings /\
  nrows (map (fun c => (fst c, @nil value)) example_ratings) = 0%nat.
Proof.
  apply (shrinking_data_none 0 example_ratings
           (map (fun c => (fst c, [])) example_ratings)).
  - lia.
  - reflexivity.
Defined.

Lemma shrinking_data_at_most_n_witness :
  (length (group_keys [Some 1%Z; Some 1%Z]) <= Z.to_nat 1%Z)%nat.
Proof.
  apply (shrinking_data_at_most_n 1 example_ratings
           (select_rows [true; true; false] example_ratings)
           [VInt 1; VInt 1] [Some 1; Some 1]); reflexivity.
Defined.

Lemma shrinking_data_whole_histories_witness :
  rows_where "userId" (VInt 1) (select_rows [true; true; false] example_ratings)
  = rows_where "userId" (VInt 1) example_ratings.
Proof.
  apply (shrinking_data_whole_histories 1 example_ratings
           (select_rows [true; true; false] example_ratings) 1 0%nat); reflexivity.
Defined.

Lemma shrinking_data_all_witness :
  shrinking_data 2 example_ratings = Return example_ratings.
Proof.
  apply (shrinking_data_all 2 example_ratings [VInt 1; VInt 1; VInt 2]).
  - repeat constructor.
  - reflexivity.
  - reflexivity.
  - intros v [<- | [<- | [<- | []]]]; eauto.
  - simpl. lia.
Defined.

Lemma shrinking_data_most_active_witness : (1 <= 2)%nat.
Proof.
  apply (shrinking_data_most_active 1 example_ratings
           (select_rows [true; true; false] example_ratings)
           [(1, 2%nat); (2, 1%nat)] [VInt 1; VInt 1] 1 2 2%nat 1%nat).
  - reflexivity.
  - reflexivity.
  - reflexivity.
  - left. reflexivity.
  - right. left. reflexivity.
  - left. reflexivity.
  - intros [H | [H | []]]; discriminate.
Defined.

(** The mappings of [example_ratings]. *)
Lemma create_mappings_user2movie_witness :
  (exists ms, dict_get [(1, [VInt 10; VInt 11]); (2, [VInt 10])] 1 = Some ms /\
              In (VInt 11) ms) <->
  (exists i, cell "userId" i example_ratings = Some (VInt 1) /\
             cell "movieId" i example_ratings = Some (VInt 11)).
Proof.
  apply (create_mappings_user2movie example_ratings
           [(1, [VInt 10; VInt 11]); (2, [VInt 10])]
           [(10, [VInt 1; VInt 2]); (11, [VInt 1])] 1 11).
  reflexivity.
Defined.

Lemma create_mappings_converse_witness :
  (exists ms, dict_get [(1, [VInt 10; VInt 11]); (2, [VInt 10])] 2 = Some ms /\
              In (VInt 10) ms) <->
  (exists us, dict_get [(10, [VInt 1; VInt 2]); (11, [VInt 1])] 10 = Some us /\
              In (VInt 2) us).
Proof.
  apply (create_mappings_converse example_ratings
           [(1, [VInt 10; VInt 11]); (2, [VInt 10])]
           [(10, [VInt 1; VInt 2]); (11, [VInt 1])] 2 10).
  reflexivity.
Defined.

Lemma create_mappings_distinct_witness : List.NoDup [VInt 1; VInt 2].
Proof.
  apply (create_mappings_distinct example_ratings
           [(1, [VInt 10; VInt 11]); (2, [VInt 10])]
           [(10, [VInt 1; VInt 2]); (11, [VInt 1])] 10 [VInt 1; VInt 2]).
  - reflexivity.
  - right. reflexivity.
Defined.

(** The rows of [clustered_train] carry the labels 2, 1 and 1: the first
    table is that of label 2. *)
Lemma getFrequentItemset_by_position_witness :
  exists clusters c flags,
    get_column "cluster" clustered_train = Return clusters /\
    nth_error (unique clusters) 0 = Some c /\
    flags_of clustered_train clusters c flags /\
    @apriori FlagMiner flags (1 # 2) = Return ["Action"; "Comedy"].
Proof.
  apply (@getFrequentItemset_by_position FlagMiner [clustered_train] (1 # 2)
           [[["Action"; "Comedy"]; []]] 0%nat 0%nat clustered_train
           [["Action"; "Comedy"]; []] ["Action"; "Comedy"]); reflexivity.
Defined.

Lemma getFrequentItemset_shape_witness :
  Forall2 (fun dataset tables =>
             exists clusters, get_column "cluster" dataset = Return clusters /\
                              length tables = length (unique clusters))
          [clustered_train] [[["Action"; "Comedy"]; []]].
Proof.
  apply (@getFrequentItemset_shape FlagMiner [clustered_train] (1 # 2)
           [[["Action"; "Comedy"]; []]]).
  reflexivity.
Defined.

Lemma getRules_by_position_witness :
  exists clusters c flags mined,
    get_column "cluster" clustered_train = Return clusters /\
    nth_error (unique clusters) 0 = Some c /\
    flags_of clustered_train clusters c flags /\
    @apriori FlagMiner flags (1 # 2) = Return mined /\
    @association_rules FlagMiner mined "confidence" (1 # 2)
    = Return [mkRule ["Action"] ["Comedy"] 1 0; mkRule ["Comedy"] ["Action"] 1 0].
Proof.
  apply (@getRules_by_position FlagMiner [clustered_train] (1 # 2) (1 # 2)
           "confidence" [[["Action"; "Comedy"]; []]]
           [[[mkRule ["Action"] ["Comedy"] 1 0; mkRule ["Comedy"] ["Action"] 1 0]; []]]
           0%nat 0%nat clustered_train
           [[mkRule ["Action"] ["Comedy"] 1 0; mkRule ["Comedy"] ["Action"] 1 0]; []]
           [mkRule ["Action"] ["Comedy"] 1 0; mkRule ["Comedy"] ["Action"] 1 0]);
    reflexivity.
Defined.

(** The utility matrix of [sparse_ratings]: users 1 and 2, movies 10 and
    11; user 3 has no rating. *)
Lemma create_utility_matrix_rated_once_witness :
  exists y, um_get (mkUtility [1; 2] [10; 11] [[4%Q; (7 # 2)%Q]; [2%Q; 0%Q]]) 2 10
            = Some y /\ (y == 2)%Q.
Proof.
  apply (create_utility_matrix_rated_once sparse_ratings
           (mkUtility [1; 2] [10; 11] [[4%Q; (7 # 2)%Q]; [2%Q; 0%Q]])
           2%nat 2 10 (VInt 2) 2%Q).
  - reflexivity.
  - reflexivity.
  - reflexivity.
  - reflexivity.
  - reflexivity.
  - intros [| [| [| [| [| j]]]]] H1 H2; try reflexivity; discriminate.
Defined.

Lemma create_utility_matrix_unrated_pair_witness :
  um_get (mkUtility [1; 2] [10; 11] [[4%Q; (7 # 2)%Q]; [2%Q; 0%Q]]) 2 11 = Some 0%Q.
Proof.
  apply (create_utility_matrix_unrated_pair sparse_ratings
           (mkUtility [1; 2] [10; 11] [[4%Q; (7 # 2)%Q]; [2%Q; 0%Q]]) 2 11).
  - reflexivity.
  - right. left. reflexivity.
  - right. left. reflexivity.
  - intros [| [| [| [| [| j]]]]] H1 H2; discriminate.
Defined.

Lemma create_utility_matrix_labels_witness :
  (In 3 [1; 2] <->
   exists i m v x, cell "userId" i sparse_ratings = Some (VInt 3) /\
                   cell "movieId" i sparse_ratings = Some (VInt m) /\
                   cell "rating" i sparse_ratings = Some v /\ number_of v = Some x) /\
  (In 3 [10; 11] <->
   exists i u v x, cell "userId" i sparse_ratings = Some (VInt u) /\
                   cell "movieId" i sparse_ratings = Some (VInt 3) /\
                   cell "rating" i sparse_ratings = Some v /\ number_of v = Some x).
Proof.
  apply (create_utility_matrix_labels sparse_ratings
           (mkUtility [1; 2] [10; 11] [[4%Q; (7 # 2)%Q]; [2%Q; 0%Q]]) 3).
  reflexivity.
Defined.

Lemma create_utility_matrix_shape_witness :
  StronglySorted Z.lt [1; 2] /\
  StronglySorted Z.lt [10; 11] /\
  length [[4%Q; (7 # 2)%Q]; [2%Q; 0%Q]] = length [1; 2] /\
  Forall (fun row => length row = length [10; 11]) [[4%Q; (7 # 2)%Q]; [2%Q; 0%Q]].
Proof.
  apply (create_utility_matrix_shape sparse_ratings
           (mkUtility [1; 2] [10; 11] [[4%Q; (7 # 2)%Q]; [2%Q; 0%Q]])).
  reflexivity.
Defined.
